(** * WebScrapBook capturer, background script (src/capturer/background.js)

    A shallow embedding of the capture orchestrator: the per-session
    capture state ([capturer.captureInfo]), the filename allocator
    ([capturer.getUniqueFilename]), the access deduplicator of
    [capturer.downloadFile] and [capturer.captureUrl], the packager
    ([capturer.saveDocument], [capturer.downloadBlob]) and the session
    teardown of [capturer.captureTab].

    JavaScript strings are modelled as byte strings ([string]), the
    bytes of their UTF-8 encoding; a [Map] is a [gmap], a [Set] a
    [gset]. *)

From Stdlib Require Import ZArith NArith String Ascii List Lia.
From stdpp Require Import base option list gmap sets strings pretty.

Local Open Scope N_scope.
Local Open Scope stdpp_scope.

(** ** JavaScript built-ins used by the script *)

Module Js.

(** A code unit in [lo..hi]. *)
Definition between (lo hi c : ascii) : bool :=
  (N_of_ascii lo <=? N_of_ascii c) && (N_of_ascii c <=? N_of_ascii hi).

(** Lower case of an ASCII letter: A-Z go to a-z, every other byte is
    left as it is. *)
Definition lower_char (c : ascii) : ascii :=
  if between "A" "Z" c then ascii_of_N (N_of_ascii c + 32) else c.

(** [String.prototype.toLowerCase] as far as ASCII goes: the letters
    A-Z are folded, byte by byte.  This is the built-in on a string of
    ASCII characters, and the notion [equal up to the case of ASCII
    letters] of the properties.  The built-in on arbitrary strings
    folds every cased letter of Unicode and depends on the context of
    a letter; it is the operation [toLowerCase] of the interface
    below, which the allocators of names use.  The script also
    lower-cases a file name to see whether it ends with an extension
    of a document type ([captureUrl]); the extensions are ASCII, a
    name ends with one in lower case exactly if its last bytes are
    ASCII letters that fold to it, and this function is used
    there. *)
Fixpoint toLowerCase (s : string) : string :=
  match s with
  | EmptyString => EmptyString
  | String c s' => String (lower_char c) (toLowerCase s')
  end.

(** Every byte of [s] is an ASCII character. *)
Fixpoint is_ascii (s : string) : bool :=
  match s with
  | EmptyString => true
  | String c s' => (N_of_ascii c <? 128) && is_ascii s'
  end.

(** [s.startsWith(p)] *)
Fixpoint startsWith (p s : string) : bool :=
  match p, s with
  | EmptyString, _ => true
  | String a p', String b s' => if decide (a = b) then startsWith p' s' else false
  | String _ _, EmptyString => false
  end.

(** [s.endsWith(p)] *)
Definition endsWith (p s : string) : bool :=
  startsWith (String.rev p) (String.rev s).

(** JavaScript truthiness of a value that is a string, [null] or
    [undefined] ([None]): only a non-empty string is truthy. *)
Definition truthy (v : option string) : bool :=
  match v with
  | Some (String _ _) => true
  | _ => false
  end.

(** [v || d] for such a value. *)
Definition or_default (v : option string) (d : string) : string :=
  match v with
  | Some (String c s) => String c s
  | _ => d
  end.

(** Number to string conversion of a non-negative integer. *)
Definition numberToString (n : nat) : string := pretty n.

(** What is left of [s] after the prefix [p], if [s] starts with it. *)
Fixpoint strip_prefix (p s : string) : option string :=
  match p, s with
  | EmptyString, _ => Some s
  | String a p', String b s' => if decide (a = b) then strip_prefix p' s' else None
  | String _ _, EmptyString => None
  end.

(** [s.replace(pat, rep)] for a string pattern and a replacement
    without [$]: the first occurrence of [pat] is replaced. *)
Fixpoint replace (pat rep s : string) : string :=
  match strip_prefix pat s with
  | Some rest => rep +:+ rest
  | None =>
      match s with
      | EmptyString => EmptyString
      | String c s' => String c (replace pat rep s')
      end
  end.

Definition is_digit (c : ascii) : bool := between "0" "9" c.
Definition is_alpha (c : ascii) : bool := between "A" "Z" c || between "a" "z" c.

(** The characters [encodeURIComponent] leaves alone:
    A-Z a-z 0-9 - _ . ! ~ * ' ( ) *)
Definition uri_unreserved (c : ascii) : bool :=
  is_alpha c || is_digit c ||
  bool_decide (c ∈ ["-"; "_"; "."; "!"; "~"; "*"; "'"; "("; ")"]%char).

Definition hex_digit (n : N) : ascii :=
  default "0"%char (String.get (N.to_nat n) "0123456789ABCDEF").

(** [encodeURIComponent(s)] on the UTF-8 bytes of [s]. *)
Fixpoint encodeURIComponent (s : string) : string :=
  match s with
  | EmptyString => EmptyString
  | String c s' =>
      if uri_unreserved c then String c (encodeURIComponent s')
      else String "%" (String (hex_digit (N_of_ascii c / 16))
                      (String (hex_digit (N_of_ascii c mod 16))
                              (encodeURIComponent s')))
  end.

(** A word character of a regular expression: [[A-Za-z0-9_]]. *)
Definition is_word_char (c : ascii) : bool :=
  is_alpha c || is_digit c || bool_decide (c = "_"%char).

Definition head (s : string) : option ascii :=
  match s with
  | EmptyString => None
  | String c _ => Some c
  end.

Fixpoint last (s : string) : option ascii :=
  match s with
  | EmptyString => None
  | String c EmptyString => Some c
  | String _ s' => last s'
  end.

Definition is_word (c : option ascii) : bool :=
  match c with
  | Some c => is_word_char c
  | None => false
  end.

(** The assertion [\b] between the characters [prev] and [next]
    ([None] at either end of the input). *)
Definition word_boundary (prev next : option ascii) : bool :=
  xorb (is_word prev) (is_word next).

(** [\bw\b] matched at the start of [s], [prev] being the character
    before [s]. *)
Definition bounded_word_here (prev : option ascii) (s w : string) : bool :=
  word_boundary prev (head s) &&
  match strip_prefix w s with
  | Some rest => word_boundary (last w) (head rest)
  | None => false
  end.

(** [/\b(?:w1|w2|...)\b/.test(s)] for non-empty literal words,
    trying every position from left to right. *)
Fixpoint test_bounded_words (ws : list string) (prev : option ascii) (s : string)
    : bool :=
  existsb (bounded_word_here prev s) ws ||
  match s with
  | EmptyString => false
  | String c s' => test_bounded_words ws (Some c) s'
  end.

End Js.

(** ** Base64, as produced by [FileReader.readAsDataURL] *)

Module Base64.

Definition alphabet : string :=
  "ABCDEFGHIJKLMNOPQRSTUVWXYZabcdefghijklmnopqrstuvwxyz0123456789+/".

(** The character of the six bits [a..f], most significant first. *)
Definition enc6 (a b c d e f : bool) : ascii :=
  let n := 32 * N.b2n a + 16 * N.b2n b + 8 * N.b2n c
           + 4 * N.b2n d + 2 * N.b2n e + N.b2n f in
  default "A"%char (String.get (N.to_nat n) alphabet).

Fixpoint index_of (c : ascii) (s : string) : option N :=
  match s with
  | EmptyString => None
  | String c' s' =>
      if decide (c = c') then Some 0 else N.succ <$> index_of c s'
  end.

(** The six bits of a character of the alphabet. *)
Definition dec6 (c : ascii) : option (bool * bool * bool * bool * bool * bool) :=
  n ← index_of c alphabet;
  Some (N.testbit n 5, N.testbit n 4, N.testbit n 3,
        N.testbit n 2, N.testbit n 1, N.testbit n 0).

Definition pad : ascii := "="%char.

Fixpoint encode (s : string) : string :=
  match s with
  | EmptyString => EmptyString
  | String (Ascii x0 x1 x2 x3 x4 x5 x6 x7) EmptyString =>
      String (enc6 x7 x6 x5 x4 x3 x2)
     (String (enc6 x1 x0 false false false false)
     (String pad (String pad EmptyString)))
  | String (Ascii x0 x1 x2 x3 x4 x5 x6 x7)
      (String (Ascii y0 y1 y2 y3 y4 y5 y6 y7) EmptyString) =>
      String (enc6 x7 x6 x5 x4 x3 x2)
     (String (enc6 x1 x0 y7 y6 y5 y4)
     (String (enc6 y3 y2 y1 y0 false false)
     (String pad EmptyString)))
  | String (Ascii x0 x1 x2 x3 x4 x5 x6 x7)
      (String (Ascii y0 y1 y2 y3 y4 y5 y6 y7)
      (String (Ascii z0 z1 z2 z3 z4 z5 z6 z7) rest)) =>
      String (enc6 x7 x6 x5 x4 x3 x2)
     (String (enc6 x1 x0 y7 y6 y5 y4)
     (String (enc6 y3 y2 y1 y0 z7 z6)
     (String (enc6 z5 z4 z3 z2 z1 z0) (encode rest))))
  end.

Fixpoint decode (s : string) : option string :=
  match s with
  | EmptyString => Some EmptyString
  | String a (String b (String c (String d rest))) =>
      match dec6 a, dec6 b, dec6 c, dec6 d with
      | Some (x7, x6, x5, x4, x3, x2), Some (x1, x0, y7, y6, y5, y4),
        Some (y3, y2, y1, y0, z7, z6), Some (z5, z4, z3, z2, z1, z0) =>
          match decode rest with
          | Some t =>
              Some (String (Ascii x0 x1 x2 x3 x4 x5 x6 x7)
                   (String (Ascii y0 y1 y2 y3 y4 y5 y6 y7)
                   (String (Ascii z0 z1 z2 z3 z4 z5 z6 z7) t)))
          | None => None
          end
      | Some (x7, x6, x5, x4, x3, x2), Some (x1, x0, y7, y6, y5, y4),
        Some (y3, y2, y1, y0, _, _), None =>
          if bool_decide (d = pad /\ rest = EmptyString) then
            Some (String (Ascii x0 x1 x2 x3 x4 x5 x6 x7)
                 (String (Ascii y0 y1 y2 y3 y4 y5 y6 y7) EmptyString))
          else None
      | Some (x7, x6, x5, x4, x3, x2), Some (x1, x0, _, _, _, _), None, None =>
          if bool_decide (c = pad /\ d = pad /\ rest = EmptyString) then
            Some (String (Ascii x0 x1 x2 x3 x4 x5 x6 x7) EmptyString)
          else None
      | _, _, _, _ => None
      end
  | _ => None
  end.

End Base64.

(** ** Values passed between the operations *)

(** A payload: [Blob] with its MIME type and its bytes. *)
Record blob := Blob { blob_type : string; blob_data : string }.

Definition blob_size (b : blob) : N := N.of_nat (String.length (blob_data b)).

(** An exception value ([Error] object). *)
Record exn := Error { message : string }.

(** The [options] object (keys [capture.*]). *)
Record options := Options {
  saveAs : string;
  saveInScrapbook : bool;
  scrapbookFolder : string;
  saveAsciiFilename : bool;
  saveDataUriAsFile : bool;
  recordDocumentMeta : bool
}.

(** The [settings] object. *)
Record settings := Settings {
  timeId : string;
  frameIsMain : bool;
  documentName : option string
}.

(** The object every operation resolves with:
    [{timeId, sourceUrl, targetDir, filename, url, error}], absent
    fields being [None]. *)
Record result := Result {
  r_timeId : option string;
  r_sourceUrl : option string;
  r_targetDir : option string;
  r_filename : option string;
  r_url : string;
  r_error : option exn
}.

Inductive compression := DEFLATE | STORE.

(** One entry of the JSZip builder. *)
Record zip_entry := ZipEntry { ze_blob : blob; ze_compression : compression }.

(** ** The [scrapbook] helper library and the built-in [toLowerCase]

    The background script calls helpers of [scrapbook] (core/common.js),
    of [capturer] (capturer/common.js), of the [Mime] table and of
    JSZip, which are not part of this file; they are the operations of
    an interface.  So is [String.prototype.toLowerCase], whose result
    on letters outside ASCII is given by the character tables of
    Unicode: the interface has the function and the three facts about
    it the properties rest on. *)

Class Scrapbook := {
  (** [scrapbook.sha1(text, "TEXT")] *)
  sha1 : string -> string;
  (** [scrapbook.filenameParts(filename)]: base and extension *)
  filenameParts : string -> string * string;
  (** [scrapbook.filepathParts(path)]: directory and file name *)
  filepathParts : string -> string * string;
  (** [scrapbook.crop(str, maxLength, byUtf8)] *)
  crop : string -> nat -> bool -> string;
  (** [scrapbook.validateFilename(filename, forceAscii)] *)
  validateFilename : string -> bool -> string;
  (** [scrapbook.urlToFilename(url)] *)
  urlToFilename : string -> string;
  (** [scrapbook.escapeFilename(filename)] *)
  escapeFilename : string -> string;
  (** [scrapbook.escapeHtml(str)], [str] possibly [undefined] *)
  escapeHtml : option string -> string;
  (** [scrapbook.idToDate(timeId).toUTCString()] *)
  idToUTCString : string -> string;
  (** [scrapbook.dataUriToFile(dataUri)]: name and content, or nothing *)
  dataUriToFile : string -> option (string * blob);
  (** [scrapbook.stringToDataUri(str, mime, charset)] *)
  stringToDataUri : string -> string -> option string -> string;
  (** [scrapbook.lang(key, args)] *)
  lang : string -> list string -> string;
  (** [capturer.getErrorUrl(sourceUrl, options)] *)
  getErrorUrl : string -> options -> string;
  (** [Mime.prototype.extension(contentType)] *)
  mimeExtension : string -> option string;
  (** [zip.generateAsync({type: "blob"})]: the archive or a failure *)
  generateAsync : gmap string zip_entry -> exn + blob;
  (** [str.toLowerCase()] *)
  toLowerCase : string -> string;
  (** on a string of ASCII characters only the letters A-Z change *)
  toLowerCase_ascii : forall s,
    Js.is_ascii s = true -> toLowerCase s = Js.toLowerCase s;
  (** the case of the ASCII letters of a string does not matter *)
  toLowerCase_fold : forall s, toLowerCase (Js.toLowerCase s) = toLowerCase s;
  (** a decimal number inside a string is kept and can be read off:
      digits are not letters and have no case, and the lower case of
      the letters before and after them does not depend on which
      digits there are *)
  toLowerCase_numbered : forall (pre post : string) (n m : nat),
    toLowerCase (pre +:+ Js.numberToString n +:+ post)
    = toLowerCase (pre +:+ Js.numberToString m +:+ post) -> n = m
}.

(** ** Per-session capture state *)

(** Identity of a promise object. *)
Abbreviation pid := nat (only parsing).

(** A value of [capturer.captureInfo]:
    [{files: Set<string>, accessMap: Map<string, Promise>, zip: JSZip}],
    every field absent in a freshly set [{}]. *)
Record session := Session {
  files : option (gset string);
  accessMap : option (gmap string pid);
  zip : option (gmap string zip_entry)
}.

Definition empty_session : session := Session None None None.

(** [capturer.defaultFilesSet] *)
Definition defaultFilesSet : gset string := {[ "index.rdf"; "index.dat" ]}.

(** [if (!capturer.captureInfo.has(timeId)) { capturer.captureInfo.set(timeId, {}); }] *)
Definition ensure_session (timeId : string) (ci : gmap string session)
  : gmap string session :=
  match ci !! timeId with
  | Some _ => ci
  | None => <[timeId := empty_session]> ci
  end.

Definition get_session (timeId : string) (ci : gmap string session) : session :=
  default empty_session (ci !! timeId).

(** [capturer.captureInfo.get(timeId).files || new Set(capturer.defaultFilesSet)] *)
Definition session_files (timeId : string) (ci : gmap string session) : gset string :=
  default defaultFilesSet (files (get_session timeId ci)).

Definition set_files (timeId : string) (f : gset string) (ci : gmap string session)
  : gmap string session :=
  let s := get_session timeId ci in
  <[timeId := Session (Some f) (accessMap s) (zip s)]> ci.

(** ** Filename allocator *)

Section Allocator.
Context `{Scrapbook}.

(** The candidate built in the loop body for a given [count]. *)
Definition numbered (base ext : string) (count : nat) : string :=
  base +:+ "-" +:+ Js.numberToString count +:+ ext.

(** The [while (files.has(newFilenameCI))] loop.  [fuel] bounds the
    number of times the body runs; [None] means the bound was hit. *)
Fixpoint uniquify (fuel : nat) (files : gset string) (base ext : string)
    (count : nat) (newFilename : string) : option string :=
  if decide (toLowerCase newFilename ∈ files) then
    match fuel with
    | O => None
    | S fuel' =>
        uniquify fuel' files base ext (S count) (numbered base ext (S count))
    end
  else Some newFilename.

(** [capturer.getUniqueFilename(timeId, filename)]; [filename] is
    [None] for [null] or [undefined].  The result is the returned
    name and the updated [capturer.captureInfo]. *)
Definition getUniqueFilename (timeId : string) (filename : option string)
    (ci : gmap string session) : option (string * gmap string session) :=
  let ci := ensure_session timeId ci in
  let files := session_files timeId ci in
  let newFilename := Js.or_default filename "untitled" in
  let '(newFilenameBase, newFilenameExt) := filenameParts newFilename in
  let newFilenameBase := crop (crop newFilenameBase 240 true) 128 false in
  let newFilenameExt :=
    match newFilenameExt with
    | EmptyString => ""
    | _ => "." +:+ newFilenameExt
    end in
  let newFilename := newFilenameBase +:+ newFilenameExt in
  match uniquify (S (size files)) files newFilenameBase newFilenameExt 0 newFilename with
  | Some newFilename =>
      Some (newFilename,
            set_files timeId ({[ toLowerCase newFilename ]} ∪ files) ci)
  | None => None
  end.

End Allocator.

(** ** Access deduplicator and fetch pipeline *)

(** Modelled from the spec: [scrapbook.splitUrlByAnchor] (core/common.js
    is not part of this file) splits a URL at its first [#] into the
    part before the fragment and the fragment, [#] included. *)
Fixpoint splitUrlByAnchor (url : string) : string * string :=
  match url with
  | EmptyString => (EmptyString, EmptyString)
  | String c s =>
      if decide (c = "#"%char) then (EmptyString, url)
      else let '(main, hash) := splitUrlByAnchor s in (String c main, hash)
  end.

(** The parameter object of [downloadFile] and [captureUrl]. *)
Record params := Params {
  p_url : string;
  p_refUrl : option string;
  p_rewriteMethod : option string;
  p_settings : settings;
  p_options : options
}.

Inductive operation := OpDownloadFile | OpCaptureUrl.

(** Life of one transport request ([scrapbook.xhr]). *)
Inductive readyState := Opened | HeadersReceived | Loaded | Failed | Aborted.

#[global] Instance readyState_eq_dec : EqDecision readyState.
Proof. solve_decision. Defined.

Record xhr := Xhr {
  x_url : string;
  x_responseType : string;
  (** the request header [X-WebScrapBook-Referer], when set *)
  x_referer : option string;
  x_state : readyState
}.

(** What the transport reports at [readyState === 2]: the response
    URL, the status, and the parsed [Content-Disposition] (type and
    [filename] parameter) and [Content-Type] (type and [charset]
    parameter) headers when present. *)
Record response := Response {
  responseURL : string;
  status : nat;
  contentDisposition : option (string * option string);
  contentType : option (string * option string)
}.

(** [var headers = {}] *)
Record headers := Headers {
  h_isAttachment : option bool;
  h_filename : option string;
  h_contentType : option string;
  h_charset : option string
}.

Definition no_headers : headers := Headers None None None None.

(** State of the promise [accessCurrent], that is of
    [new Promise(executor).catch(handler)]:
    - [Pending]: neither [resolve] nor [reject] was called;
    - [Packaging]: [resolve] was called with the promise of the
      rewrite-and-package chain, which has not settled;
    - [Following q]: [resolve] was called with the promise [q] of an
      earlier access, the promise settles as [q] does;
    - [Fulfilled r]: fulfilled with the result object [r]. *)
Inductive pstate := Pending | Packaging | Following (q : pid) | Fulfilled (r : result).

(** One run of the fetch pipeline: the closure of one call that found
    no previous access. *)
Record access := Access {
  a_op : operation;
  a_params : params;
  a_state : pstate;
  a_xhr : option xhr;
  (** [var filename] *)
  a_filename : option string;
  a_headers : headers
}.

(** The state the operations share: [capturer.captureInfo] and the
    promises created so far, a promise being identified by its
    position. *)
Record world := World {
  captureInfo : gmap string session;
  promises : list access
}.

Definition init : world := World ∅ [].

(** [capturer.captureInfo.get(timeId).accessMap || new Map()] *)
Definition session_accessMap (timeId : string) (ci : gmap string session)
  : gmap string pid :=
  default ∅ (accessMap (get_session timeId ci)).

Definition set_accessMap (timeId : string) (m : gmap string pid)
    (ci : gmap string session) : gmap string session :=
  let s := get_session timeId ci in
  <[timeId := Session (files s) (Some m) (zip s)]> ci.

(** [accessMap.set(accessToken, accessCurrent)] *)
Definition register (timeId token : string) (p : pid) (ci : gmap string session)
  : gmap string session :=
  set_accessMap timeId (<[token := p]> (session_accessMap timeId ci)) ci.

(** A promise resolves at most once: [resolve] and [reject] have no
    effect after the first call of either. *)
Definition settle (new : pstate) (a : access) : access :=
  match a_state a with
  | Pending => Access (a_op a) (a_params a) new (a_xhr a) (a_filename a) (a_headers a)
  | _ => a
  end.

Definition set_xhr_state (st : readyState) (a : access) : access :=
  Access (a_op a) (a_params a) (a_state a)
    ((fun x => Xhr (x_url x) (x_responseType x) (x_referer x) st) <$> a_xhr a)
    (a_filename a) (a_headers a).

Definition set_filename (f : option string) (a : access) : access :=
  Access (a_op a) (a_params a) (a_state a) (a_xhr a) f (a_headers a).

Definition set_headers (h : headers) (a : access) : access :=
  Access (a_op a) (a_params a) (a_state a) (a_xhr a) (a_filename a) h.

(** [r] is what the promise [p] is fulfilled with. *)
Inductive yields (w : world) : pid -> result -> Prop :=
| yields_fulfilled p a r :
    promises w !! p = Some a -> a_state a = Fulfilled r -> yields w p r
| yields_following p a q r :
    promises w !! p = Some a -> a_state a = Following q -> yields w q r ->
    yields w p r.

(** What the environment does next. *)
Inductive event :=
| CallDownloadFile (ps : params)
| CallCaptureUrl (ps : params)
| ReadyState2 (p : pid) (resp : response)
| OnLoad (p : pid)
| OnError (p : pid) (e : exn)
| Packaged (p : pid) (o : exn + result).

Section Access.
Context `{Scrapbook}.

Definition tab : string := String "009"%char EmptyString.

(** [capturer.getAccessToken(url, method)] *)
Definition getAccessToken (url : string) (method : option string) : string :=
  let token := (splitUrlByAnchor url).1 +:+ tab +:+ Js.or_default method "" in
  sha1 token.

(** The handler of [.catch((ex) => ...)]: the error record. *)
Definition errorRecord (sourceUrl : string) (opts : options) (ex : exn) : result :=
  Result None None None None (getErrorUrl sourceUrl opts) (Some ex).

(** [if (refUrl) { requestHeaders["X-WebScrapBook-Referer"] = refUrl; }] *)
Definition referer (refUrl : option string) : option string :=
  if Js.truthy refUrl then refUrl else None.

(** The rewrite method an access is registered under. *)
Definition method_of (op : operation) (ps : params) : option string :=
  match op with
  | OpDownloadFile => p_rewriteMethod ps
  | OpCaptureUrl => Some "captureUrl"
  end.

(** The executor of [downloadFile]'s promise: state of the promise
    when the executor returns, the transport request it started,
    [filename], and [capturer.captureInfo]. *)
Definition downloadFile_executor (ps : params) (ci : gmap string session)
    : option (pstate * option xhr * option string * gmap string session) :=
  let sourceUrl := p_url ps in
  let sourceUrlMain := (splitUrlByAnchor sourceUrl).1 in
  let opts := p_options ps in
  let tid := timeId (p_settings ps) in
  if Js.startsWith "data:" sourceUrlMain then
    if saveDataUriAsFile opts && negb (bool_decide (saveAs opts = "singleHtml")) then
      match dataUriToFile sourceUrlMain with
      | Some (name, file) =>
          let filename := validateFilename name (saveAsciiFilename opts) in
          match getUniqueFilename tid (Some filename) ci with
          | Some (filename, ci) => Some (Packaging, None, Some filename, ci)
          | None => None
          end
      | None =>
          Some (Fulfilled (errorRecord sourceUrl opts (Error "Malformed data URL.")),
                None, None, ci)
      end
    else Some (Fulfilled (Result None None None None sourceUrl None), None, None, ci)
  else
    Some (Pending,
          Some (Xhr sourceUrl "blob" (referer (p_refUrl ps)) Opened), None, ci).

(** The executor of [captureUrl]'s promise. *)
Definition captureUrl_executor (ps : params) (ci : gmap string session)
    : option (pstate * option xhr * option string * gmap string session) :=
  let sourceUrl := p_url ps in
  let url :=
    if Js.startsWith "data:" sourceUrl then (splitUrlByAnchor sourceUrl).1
    else sourceUrl in
  Some (Pending, Some (Xhr url "document" (referer (p_refUrl ps)) Opened), None, ci).

(** The body shared by [capturer.downloadFile] and
    [capturer.captureUrl]: access check, executor, registration.
    The result is the promise handed back and the new state. *)
Definition request (op : operation) (ps : params) (w : world)
    : option (pid * world) :=
  let sourceUrl := p_url ps in
  let sourceUrlMain := (splitUrlByAnchor sourceUrl).1 in
  let tid := timeId (p_settings ps) in
  (* init access check *)
  let ci := ensure_session tid (captureInfo w) in
  let accessMap := session_accessMap tid ci in
  let ci := set_accessMap tid accessMap ci in
  (* check for previous access *)
  let accessToken := getAccessToken sourceUrlMain (method_of op ps) in
  match accessMap !! accessToken with
  | Some accessPrevious => Some (accessPrevious, World ci (promises w))
  | None =>
      let accessCurrent := length (promises w) in
      let executor :=
        match op with
        | OpDownloadFile => downloadFile_executor
        | OpCaptureUrl => captureUrl_executor
        end in
      match executor ps ci with
      | Some (st, x, filename, ci) =>
          Some (accessCurrent,
                World (register tid accessToken accessCurrent ci)
                      (promises w ++ [Access op ps st x filename no_headers]))
      | None => None
      end
  end.

Definition downloadFile : params -> world -> option (pid * world) :=
  request OpDownloadFile.

Definition captureUrl : params -> world -> option (pid * world) :=
  request OpCaptureUrl.

(** The [// get headers] block. *)
Definition get_headers (resp : response) (h : headers) : headers :=
  if decide (status resp = 0%nat) then h else
  let h :=
    match contentDisposition resp with
    | Some (ty, fn) =>
        Headers (Some (bool_decide (ty = "attachment"))) fn
                (h_contentType h) (h_charset h)
    | None => h
    end in
  match contentType resp with
  | Some (ty, cs) => Headers (h_isAttachment h) (h_filename h) (Some ty) cs
  | None => h
  end.

(** The [// determine the filename] block of [downloadFile]. *)
Definition determine_filename (ps : params) (h : headers)
    (ci : gmap string session) : option (string * gmap string session) :=
  let sourceUrl := p_url ps in
  let opts := p_options ps in
  let filename := Js.or_default (h_filename h) (urlToFilename sourceUrl) in
  let filename :=
    if Js.truthy (h_contentType h) then
      let '(base, extension) := filenameParts filename in
      match extension with
      | EmptyString =>
          let extension := mimeExtension (default "" (h_contentType h)) in
          if Js.truthy extension
          then base +:+ "." +:+ default "" extension
          else filename
      | _ => filename
      end
    else filename in
  let filename := validateFilename filename (saveAsciiFilename opts) in
  if bool_decide (saveAs opts = "singleHtml") then Some (filename, ci)
  else getUniqueFilename (timeId (p_settings ps)) (Some filename) ci.

(** [onreadystatechange] at [readyState === 2], for the transport
    request of the access [p]: the state the handler leaves.  For
    [captureUrl] the handler goes on after the header block with the
    block that generates a document name.  That block changes
    nothing of this state: it assigns to [params.settings], an
    object of the caller.  But it can throw, after the registration
    and the header block have taken effect; the handler with the way
    it ends is [readyState2] below. *)
Definition onreadystatechange (p : pid) (resp : response) (w : world)
    : option world :=
  a ← promises w !! p;
  x ← a_xhr a;
  if negb (bool_decide (x_state x = Opened)) then None else
  let ps := a_params a in
  let sourceUrlMain := (splitUrlByAnchor (p_url ps)).1 in
  let tid := timeId (p_settings ps) in
  let rewriteMethod := method_of (a_op a) ps in
  let accessMap := session_accessMap tid (captureInfo w) in
  (* check for previous access if redirected *)
  let responseUrlMain := (splitUrlByAnchor (responseURL resp)).1 in
  let accessToken := getAccessToken responseUrlMain rewriteMethod in
  let redirected := negb (bool_decide (responseUrlMain = sourceUrlMain)) in
  match (if redirected then accessMap !! accessToken else None) with
  | Some accessPrevious =>
      (* resolve(accessPrevious); xhrAbort(); return; *)
      let a := set_xhr_state Aborted (settle (Following accessPrevious) a) in
      Some (World (captureInfo w) (<[p := a]> (promises w)))
  | None =>
      let ci :=
        if redirected then register tid accessToken p (captureInfo w)
        else captureInfo w in
      let h := get_headers resp (a_headers a) in
      let a := set_xhr_state HeadersReceived (set_headers h a) in
      match a_op a with
      | OpDownloadFile =>
          match determine_filename ps h ci with
          | Some (filename, ci) =>
              Some (World ci (<[p := set_filename (Some filename) a]> (promises w)))
          | None => None
          end
      | OpCaptureUrl => Some (World ci (<[p := a]> (promises w)))
      end
  end.

(** [onload]: [resolve] is called with the promise of the chain that
    rewrites and packages the response (for [captureUrl], that
    captures the document or the file). *)
Definition onload (p : pid) (w : world) : option world :=
  a ← promises w !! p;
  x ← a_xhr a;
  if negb (bool_decide (x_state x = HeadersReceived)) then None else
  Some (World (captureInfo w)
              (<[p := set_xhr_state Loaded (settle Packaging a)]> (promises w))).

(** [onerror: reject], followed by the [.catch] handler. *)
Definition onerror (p : pid) (ex : exn) (w : world) : option world :=
  a ← promises w !! p;
  x ← a_xhr a;
  if negb (bool_decide (x_state x = Opened) || bool_decide (x_state x = HeadersReceived))
  then None else
  let ps := a_params a in
  let r := errorRecord (p_url ps) (p_options ps) ex in
  Some (World (captureInfo w)
              (<[p := set_xhr_state Failed (settle (Fulfilled r) a)]> (promises w))).

(** The chain the promise was resolved with settles: with a result,
    or with a failure that the [.catch] handler turns into the error
    record. *)
Definition packaged (p : pid) (o : exn + result) (w : world) : option world :=
  a ← promises w !! p;
  match a_state a with
  | Packaging =>
      let ps := a_params a in
      let r :=
        match o with
        | inr r => r
        | inl ex => errorRecord (p_url ps) (p_options ps) ex
        end in
      Some (World (captureInfo w)
              (<[p := Access (a_op a) ps (Fulfilled r) (a_xhr a) (a_filename a)
                             (a_headers a)]> (promises w)))
  | _ => None
  end.

(** One step: the promise a call returns, and the next state;
    [None] when the event cannot happen in this state. *)
Definition step (w : world) (ev : event) : option (option pid * world) :=
  match ev with
  | CallDownloadFile ps => (fun '(p, w) => (Some p, w)) <$> downloadFile ps w
  | CallCaptureUrl ps => (fun '(p, w) => (Some p, w)) <$> captureUrl ps w
  | ReadyState2 p resp => (fun w => (None, w)) <$> onreadystatechange p resp w
  | OnLoad p => (fun w => (None, w)) <$> onload p w
  | OnError p ex => (fun w => (None, w)) <$> onerror p ex w
  | Packaged p o => (fun w => (None, w)) <$> packaged p o w
  end.

(** A run: the promises returned, event by event, and the last state. *)
Fixpoint run (w : world) (evs : list event) : option (list (option pid) * world) :=
  match evs with
  | [] => Some ([], w)
  | ev :: evs =>
      match step w ev with
      | Some (o, w) =>
          match run w evs with
          | Some (os, w) => Some (o :: os, w)
          | None => None
          end
      | None => None
      end
  end.

(** What requests are deduplicated by: session, URL without
    fragment, and rewrite method, an absent one counting as empty. *)
Definition request_key (op : operation) (ps : params) : string * string * string :=
  (timeId (p_settings ps), (splitUrlByAnchor (p_url ps)).1,
   Js.or_default (method_of op ps) "").

(** The access was created by a request with the key of [op], [ps]. *)
Definition same_key (op : operation) (ps : params) (a : access) : bool :=
  bool_decide (request_key (a_op a) (a_params a) = request_key op ps).

(** The accesses created for the key of [op], [ps], and the
    transport requests they started. *)
Definition accesses_of (op : operation) (ps : params) (w : world) : list access :=
  filter (fun a => same_key op ps a = true) (promises w).

Definition fetches_of (op : operation) (ps : params) (w : world) : list xhr :=
  omap a_xhr (accesses_of op ps w).

End Access.

(** ** Archive packager and download coordinator *)

Definition dq : string := String "034"%char EmptyString.
Definition nl : string := String "010"%char EmptyString.

(** [capturer.captureInfo.get(timeId).zip || new JSZip()] *)
Definition session_zip (timeId : string) (ci : gmap string session)
  : gmap string zip_entry :=
  default ∅ (zip (get_session timeId ci)).

Definition set_zip (timeId : string) (z : gmap string zip_entry)
    (ci : gmap string session) : gmap string session :=
  let s := get_session timeId ci in
  <[timeId := Session (files s) (accessMap s) (Some z)]> ci.

(** [zip.file(name, blob, {compression})] on the session's builder;
    entries are keyed by path, a later write replaces an earlier one. *)
Definition zip_file (timeId name : string) (b : blob) (c : compression)
    (ci : gmap string session) : gmap string session :=
  let ci := ensure_session timeId ci in
  set_zip timeId (<[name := ZipEntry b c]> (session_zip timeId ci)) ci.

(** A call of [chrome.downloads.download] with what
    [capturer.downloadInfo] keeps about it. *)
Record download := Download {
  (** the blob behind [URL.createObjectURL(blob)] *)
  d_blob : blob;
  (** [downloadParams.filename] *)
  d_filename : string;
  (** [downloadParams.saveAs] *)
  d_saveAs : bool;
  d_src : string;
  d_autoErase : bool
}.

(** What the download subsystem answers to one call: no download id
    ([chrome.runtime.lastError]), completion with the final path, or
    an error code. *)
Inductive dl_report := DlRefused (e : exn) | DlComplete (path : string) | DlFailed (code : string).

(** State threaded through the packager: [capturer.captureInfo], the
    downloads started so far, and the answers the download subsystem
    will give, in order. *)
Record pk := Pk {
  pk_info : gmap string session;
  pk_downloads : list download;
  pk_reports : list dl_report
}.

(** How a promise chain ends: fulfilled, rejected, or never settled. *)
Inductive outcome (A : Type) := Ok (a : A) | Throw (e : exn) | Stall.
Arguments Ok {A} a.
Arguments Throw {A} e.
Arguments Stall {A}.

Definition M (A : Type) : Type := pk -> outcome A * pk.

#[global] Instance M_ret : MRet M := fun A a s => (Ok a, s).

#[global] Instance M_bind : MBind M := fun A B f m s =>
  match m s with
  | (Ok a, s) => f a s
  | (Throw e, s) => (Throw e, s)
  | (Stall, s) => (Stall, s)
  end.

(** [m.catch(h)] *)
Definition catch {A} (m : M A) (h : exn -> A) : M A := fun s =>
  match m s with
  | (Throw e, s) => (Ok (h e), s)
  | r => r
  end.

Definition throw {A} (e : exn) : M A := fun s => (Throw e, s).

Definition modify_info (f : gmap string session -> gmap string session) : M unit :=
  fun s => (Ok (), Pk (f (pk_info s)) (pk_downloads s) (pk_reports s)).

Definition get_info : M (gmap string session) := fun s => (Ok (pk_info s), s).

(** The document handed to [saveDocument]: [params.data]. *)
Record doc_data := DocData {
  mime : string;
  charset : option string;
  content : string;
  title : option string
}.

Record save_params := SaveParams {
  sd_data : doc_data;
  sd_documentName : string;
  sd_sourceUrl : string;
  sd_settings : settings;
  sd_options : options
}.

Record blob_params := BlobParams {
  db_blob : blob;
  db_filename : string;
  db_sourceUrl : string;
  db_settings : settings;
  db_options : options
}.

(** The redirect stub written beside an [index.xhtml]. *)
Definition redirect_stub : string :=
  "<meta charset=" +:+ dq +:+ "UTF-8" +:+ dq +:+ "><meta http-equiv=" +:+ dq
  +:+ "refresh" +:+ dq +:+ " content=" +:+ dq +:+ "0;url=index.xhtml" +:+ dq +:+ ">".

(** The media type a blob is read with. *)
Definition media_type (b : blob) : string :=
  match blob_type b with
  | EmptyString => "application/octet-stream"
  | t => t
  end.

(** Modelled from the spec: [scrapbook.readFileAsDataURL] (core/common.js
    is not part of this file) reads the blob with
    [FileReader.readAsDataURL]: the media type, or
    [application/octet-stream] for a blob without type, and the
    content in base64. *)
Definition readFileAsDataURL (b : blob) : string :=
  "data:" +:+ media_type b +:+ ";base64," +:+ Base64.encode (blob_data b).

(** [/^text\/|\b(?:xml|json|javascript)\b/.test(type)] *)
Definition compressible (type : string) : bool :=
  Js.startsWith "text/" type
  || Js.test_bounded_words ["xml"; "json"; "javascript"] None type.

Section Packager.
Context `{Scrapbook}.

(** [capturer.saveUrl], with the listener of
    [chrome.downloads.onChanged] that settles its promise: the
    download is started, and the next answer of the download
    subsystem decides how the promise ends. *)
Definition saveUrl (b : blob) (directory filename sourceUrl : string)
    (autoErase savePrompt : bool) : M string := fun s =>
  let path :=
    (match directory with
     | EmptyString => EmptyString
     | _ => directory +:+ "/"
     end) +:+ filename in
  let d := Download b path savePrompt sourceUrl autoErase in
  let started := pk_downloads s ++ [d] in
  match pk_reports s with
  | [] => (Stall, Pk (pk_info s) started [])
  | DlRefused e :: rs => (Throw e, Pk (pk_info s) started rs)
  | DlComplete path :: rs => (Ok (filepathParts path).2, Pk (pk_info s) started rs)
  | DlFailed code :: rs => (Throw (Error code), Pk (pk_info s) started rs)
  end.

(** [capturer.saveBlob] *)
Definition saveBlob (b : blob) (directory filename sourceUrl : string)
    (autoErase savePrompt : bool) : M string :=
  saveUrl b directory filename sourceUrl autoErase savePrompt.

(** ["." + ((data.mime === "application/xhtml+xml") ? "xhtml" : "html")] *)
Definition doc_ext (d : doc_data) : string :=
  "." +:+ (if bool_decide (mime d = "application/xhtml+xml") then "xhtml" else "html").

(** Where the single file of a capture goes: directory, file name
    and whether the user is asked. [suffix] is appended
    unconditionally when [force], else only if missing. *)
Definition target (opts : options) (tid : string) (d : doc_data)
    (sourceUrl suffix : string) (force : bool) : string * string * bool :=
  if saveInScrapbook opts then
    (scrapbookFolder opts +:+ "/data", tid +:+ suffix, false)
  else
    let filename :=
      if Js.truthy (title d) then default "" (title d) else urlToFilename sourceUrl in
    let filename := validateFilename filename (saveAsciiFilename opts) in
    let filename :=
      if force || negb (Js.endsWith suffix filename) then filename +:+ suffix
      else filename in
    ("", filename, true).

(** One line of the manifest: [<MAF:name RDF:resource="value"/>]. *)
Definition rdf_field (name value : string) : string :=
  "    <MAF:" +:+ name +:+ " RDF:resource=" +:+ dq +:+ value +:+ dq +:+ "/>" +:+ nl.

Definition rdf_header : string :=
  "<?xml version=" +:+ dq +:+ "1.0" +:+ dq +:+ "?>" +:+ nl +:+
  "<RDF:RDF xmlns:MAF=" +:+ dq +:+ "http://maf.mozdev.org/metadata/rdf#" +:+ dq +:+ nl +:+
  "         xmlns:NC=" +:+ dq +:+ "http://home.netscape.com/NC-rdf#" +:+ dq +:+ nl +:+
  "         xmlns:RDF=" +:+ dq +:+ "http://www.w3.org/1999/02/22-rdf-syntax-ns#" +:+ dq
    +:+ ">" +:+ nl +:+
  "  <RDF:Description RDF:about=" +:+ dq +:+ "urn:root" +:+ dq +:+ ">" +:+ nl.

Definition rdf_footer : string :=
  "  </RDF:Description>" +:+ nl +:+ "</RDF:RDF>" +:+ nl.

(** The manifest [index.rdf] of a maff archive. *)
Definition rdfContent (tid sourceUrl filename : string) (d : doc_data) : string :=
  rdf_header +:+
  rdf_field "originalurl" (escapeHtml (Some sourceUrl)) +:+
  rdf_field "title" (escapeHtml (title d)) +:+
  rdf_field "archivetime" (escapeHtml (Some (idToUTCString tid))) +:+
  rdf_field "indexfilename" filename +:+
  rdf_field "charset" "UTF-8" +:+
  rdf_footer.

(** The last steps of the zip and maff cases for the main frame:
    generate the archive and download it. *)
Definition save_archive (tid sourceUrl sourceUrlHash suffix : string)
    (d : doc_data) (opts : options) : M result :=
  ci ← get_info;
  match generateAsync (session_zip tid ci) with
  | inl e => throw e
  | inr zipBlob =>
      let '(targetDir, filename, savePrompt) :=
        target opts tid d sourceUrl suffix true in
      filename ← saveBlob zipBlob targetDir filename sourceUrl false savePrompt;
      mret (Result (Some tid) (Some sourceUrl) (Some targetDir) (Some filename)
              (escapeFilename filename +:+ sourceUrlHash) None)
  end.

(** The [switch (options["capture.saveAs"])] of [saveDocument]. *)
Definition saveDocument_switch (ps : save_params) : M result :=
  let data := sd_data ps in
  let documentName := sd_documentName ps in
  let sourceUrl := sd_sourceUrl ps in
  let settings := sd_settings ps in
  let opts := sd_options ps in
  let sourceUrlHash := (splitUrlByAnchor sourceUrl).2 in
  let tid := timeId settings in
  let ext := doc_ext data in
  if bool_decide (saveAs opts = "singleHtml") then
    if negb (frameIsMain settings) then
      let dataUri := stringToDataUri (content data) (mime data) (charset data) in
      mret (Result (Some tid) (Some sourceUrl) None None dataUri None)
    else
      let '(targetDir, filename, savePrompt) :=
        target opts tid data sourceUrl ext false in
      filename ← saveBlob (Blob (mime data) (content data)) targetDir filename
                    sourceUrl false savePrompt;
      mret (Result (Some tid) (Some sourceUrl) (Some targetDir) (Some filename)
              (escapeFilename filename +:+ sourceUrlHash) None)
  else if bool_decide (saveAs opts = "zip") then
    let filename := validateFilename (documentName +:+ ext) (saveAsciiFilename opts) in
    modify_info (zip_file tid filename (Blob (mime data) (content data)) DEFLATE);;
    if negb (frameIsMain settings) then
      mret (Result (Some tid) (Some sourceUrl) None (Some filename)
              (escapeFilename filename +:+ sourceUrlHash) None)
    else
      (* create index.html that redirects to index.xhtml *)
      (if bool_decide (ext = ".xhtml") then
         modify_info (zip_file tid "index.html" (Blob "text/html" redirect_stub) DEFLATE)
       else mret ());;
      save_archive tid sourceUrl sourceUrlHash ".htz" data opts
  else if bool_decide (saveAs opts = "maff") then
    let filename := validateFilename (documentName +:+ ext) (saveAsciiFilename opts) in
    modify_info (zip_file tid (tid +:+ "/" +:+ filename)
                   (Blob (mime data) (content data)) DEFLATE);;
    if negb (frameIsMain settings) then
      mret (Result (Some tid) (Some sourceUrl) None (Some filename)
              (escapeFilename filename +:+ sourceUrlHash) None)
    else
      (* create index.html that redirects to index.xhtml *)
      (if bool_decide (ext = ".xhtml") then
         modify_info (zip_file tid (tid +:+ "/" +:+ "index.html")
                        (Blob "text/html" redirect_stub) DEFLATE)
       else mret ());;
      (* generate index.rdf *)
      modify_info (zip_file tid (tid +:+ "/" +:+ "index.rdf")
                     (Blob "application/rdf+xml" (rdfContent tid sourceUrl filename data))
                     DEFLATE);;
      save_archive tid sourceUrl sourceUrlHash ".maff" data opts
  else
    (* case "folder": default: *)
    let targetDir := scrapbookFolder opts +:+ "/data/" +:+ tid in
    let filename := validateFilename (documentName +:+ ext) (saveAsciiFilename opts) in
    filename ← saveBlob (Blob (mime data) (content data)) targetDir filename sourceUrl
                  (negb (frameIsMain settings) || bool_decide (ext = ".xhtml")) false;
    filename ←
      (if frameIsMain settings && bool_decide (ext = ".xhtml") then
         (* create index.html that redirects to index.xhtml *)
         saveBlob (Blob "text/html" redirect_stub) targetDir "index.html" sourceUrl
           false false
       else mret filename);
    mret (Result (Some tid) (Some sourceUrl) (Some targetDir) (Some filename)
            (escapeFilename filename +:+ sourceUrlHash) None).

(** [capturer.saveDocument] *)
Definition saveDocument (ps : save_params) : M result :=
  catch (saveDocument_switch ps)
        (fun ex => Result None None None None
                     (getErrorUrl (sd_sourceUrl ps) (sd_options ps)) (Some ex)).

(** The compression chosen for an entry added by [downloadBlob]. *)
Definition entry_compression (b : blob) : compression :=
  if compressible (blob_type b) && (128 <=? blob_size b) then DEFLATE else STORE.

(** [capturer.downloadBlob] *)
Definition downloadBlob (ps : blob_params) : M result :=
  let b := db_blob ps in
  let filename := db_filename ps in
  let sourceUrl := db_sourceUrl ps in
  let opts := db_options ps in
  let sourceUrlHash := (splitUrlByAnchor sourceUrl).2 in
  let tid := timeId (db_settings ps) in
  if bool_decide (saveAs opts = "singleHtml") then
    let dataUri := readFileAsDataURL b in
    let dataUri :=
      match filename with
      | EmptyString => dataUri
      | _ => Js.replace ";" (";filename=" +:+ Js.encodeURIComponent filename +:+ ";")
               dataUri
      end in
    mret (Result None None None None (dataUri +:+ sourceUrlHash) None)
  else if bool_decide (saveAs opts = "zip") then
    modify_info (zip_file tid filename b (entry_compression b));;
    mret (Result None None None (Some filename)
            (escapeFilename filename +:+ sourceUrlHash) None)
  else if bool_decide (saveAs opts = "maff") then
    modify_info (zip_file tid (tid +:+ "/" +:+ filename) b (entry_compression b));;
    mret (Result None None None (Some filename)
            (escapeFilename filename +:+ sourceUrlHash) None)
  else
    (* case "folder": default: download the data *)
    let targetDir := scrapbookFolder opts +:+ "/data/" +:+ tid in
    filename ← saveBlob b targetDir filename sourceUrl true false;
    mret (Result (Some tid) (Some sourceUrl) (Some targetDir) (Some filename)
            (escapeFilename filename +:+ sourceUrlHash) None).

End Packager.

(** The operations of the packager a capture is made of. *)
Inductive pk_op := PackBlob (ps : blob_params) | PackDocument (ps : save_params).

Definition op_options (op : pk_op) : options :=
  match op with
  | PackBlob ps => db_options ps
  | PackDocument ps => sd_options ps
  end.

Definition op_settings (op : pk_op) : settings :=
  match op with
  | PackBlob ps => db_settings ps
  | PackDocument ps => sd_settings ps
  end.

Section PackagerRuns.
Context `{Scrapbook}.

Definition run_op (op : pk_op) : M result :=
  match op with
  | PackBlob ps => downloadBlob ps
  | PackDocument ps => saveDocument ps
  end.

(** The operations run one after the other, each on the state the
    one before left, however it ended. *)
Fixpoint run_ops (ops : list pk_op) (s : pk) : pk :=
  match ops with
  | [] => s
  | op :: ops => run_ops ops (run_op op s).2
  end.

(** The path of the entry [saveDocument] writes the document to in
    an archive. *)
Definition doc_filename (ps : save_params) : string :=
  validateFilename (sd_documentName ps +:+ doc_ext (sd_data ps))
    (saveAsciiFilename (sd_options ps)).

(** What [saveDocument] writes into the archive in maff mode: the
    document, for the main frame the redirect stub beside an
    [index.xhtml], and the manifest. *)
Definition maff_doc_entries (ps : save_params) (ci : gmap string session)
    : gmap string session :=
  let tid := timeId (sd_settings ps) in
  let d := sd_data ps in
  let ci := zip_file tid (tid +:+ "/" +:+ doc_filename ps)
              (Blob (mime d) (content d)) DEFLATE ci in
  if frameIsMain (sd_settings ps) then
    let ci :=
      if bool_decide (doc_ext d = ".xhtml")
      then zip_file tid (tid +:+ "/" +:+ "index.html")
             (Blob "text/html" redirect_stub) DEFLATE ci
      else ci in
    zip_file tid (tid +:+ "/" +:+ "index.rdf")
      (Blob "application/rdf+xml"
         (rdfContent tid (sd_sourceUrl ps) (doc_filename ps) d)) DEFLATE ci
  else ci.

(** The file name an operation stores under in an archive. *)
Definition op_name (op : pk_op) : string :=
  match op with
  | PackBlob ps => db_filename ps
  | PackDocument ps => doc_filename ps
  end.

(** The entries an operation of the packager writes into a maff
    archive, in the order it writes them: [zip.file(timeId + "/" +
    filename, ...)] of [downloadBlob] and of [saveDocument], and for
    the main frame the redirect stub beside an [index.xhtml] and the
    manifest. *)
Definition maff_writes (op : pk_op) : list (string * zip_entry) :=
  match op with
  | PackBlob ps =>
      let tid := timeId (db_settings ps) in
      [(tid +:+ "/" +:+ db_filename ps,
        ZipEntry (db_blob ps) (entry_compression (db_blob ps)))]
  | PackDocument ps =>
      let tid := timeId (sd_settings ps) in
      let d := sd_data ps in
      (tid +:+ "/" +:+ doc_filename ps, ZipEntry (Blob (mime d) (content d)) DEFLATE)
      :: (if frameIsMain (sd_settings ps) then
            (if bool_decide (doc_ext d = ".xhtml")
             then [(tid +:+ "/" +:+ "index.html",
                    ZipEntry (Blob "text/html" redirect_stub) DEFLATE)]
             else [])
            ++ [(tid +:+ "/" +:+ "index.rdf",
                 ZipEntry (Blob "application/rdf+xml"
                             (rdfContent tid (sd_sourceUrl ps) (doc_filename ps) d))
                          DEFLATE)]
          else [])
  end.

End PackagerRuns.

(** ** Session teardown in [capturer.captureTab] *)

(** How the promise of the capture started by [captureTab] settles:
    with a response (possibly [undefined]) or with a failure. *)
Inductive settled (A : Type) := Fulfills (v : A) | Rejects (e : exn).
Arguments Fulfills {A} v.
Arguments Rejects {A} e.

(** The operation [captureTab] starts for a [mode]. *)
Inductive capture_kind := ViaCaptureBookmark | ViaCaptureUrl | ViaContentScript.

Section CaptureTab.
Context `{Scrapbook}.

(** [switch (mode)] *)
Definition captureTab_dispatch (mode : string) : capture_kind :=
  if bool_decide (mode = "bookmark") then ViaCaptureBookmark
  else if bool_decide (mode = "source") then ViaCaptureUrl
  else ViaContentScript.

(** [message.settings] *)
Definition captureTab_settings (tid : string) : settings :=
  Settings tid true (Some "index").

(** The handler of [.then((response) => ...)]. *)
Definition captureTab_then (tid : string) (response : option result)
    (ci : gmap string session) : gmap string session * settled result :=
  let ci := delete tid ci in
  match response with
  | None => (ci, Rejects (Error (lang "ErrorContentScriptNotReady" [])))
  | Some r =>
      match r_error r with
      | Some _ => (ci, Rejects (Error (lang "ErrorCaptureGeneral" [])))
      | None => (ci, Fulfills r)
      end
  end.

(** The handler of [.catch((ex) => ...)]: the [Error] it returns. *)
Definition captureTab_catch (source : string) (ex : exn) : exn :=
  Error (lang "ErrorCapture" [source; message ex]).

(** The chain [capture.then(...).catch(...)] of [captureTab], run on
    the way the capture settled: the new [capturer.captureInfo] and
    the value the chain is fulfilled with. *)
Definition captureTab_settle (tid source : string)
    (capture : settled (option result)) (ci : gmap string session)
    : gmap string session * (exn + result) :=
  match capture with
  | Fulfills response =>
      match captureTab_then tid response ci with
      | (ci, Fulfills r) => (ci, inr r)
      | (ci, Rejects ex) => (ci, inl (captureTab_catch source ex))
      end
  | Rejects ex => (ci, inl (captureTab_catch source ex))
  end.

End CaptureTab.

(** ** Notions the properties are stated with *)

(** [sub] occurs in [s]. *)
Definition contains (sub s : string) : Prop :=
  exists pre post, s = pre +:+ sub +:+ post.

(** [sub] occurs in [s] as a whole word: neither preceded nor followed
    by a word character. *)
Definition contains_word (sub s : string) : Prop :=
  exists pre post, s = pre +:+ sub +:+ post
    /\ Js.is_word (Js.last pre) = false /\ Js.is_word (Js.head post) = false.

(** How an access can change while the capture goes on: operation,
    parameters and the presence of a transport request stay, and a
    promise that is fulfilled or follows another one stays so. *)
Definition evolves (a a' : access) : Prop :=
  a_op a' = a_op a /\ a_params a' = a_params a
  /\ (is_Some (a_xhr a') <-> is_Some (a_xhr a))
  /\ (forall r, a_state a = Fulfilled r -> a_state a' = Fulfilled r)
  /\ (forall q, a_state a = Following q -> a_state a' = Following q).

(** How the shared state can change: registered tokens stay registered
    to the same promise, and every access evolves. *)
Definition grows (w w' : world) : Prop :=
  (forall t k q, session_accessMap t (captureInfo w) !! k = Some q ->
                 session_accessMap t (captureInfo w') !! k = Some q)
  /\ (forall p a, promises w !! p = Some a ->
                  exists a', promises w' !! p = Some a' /\ evolves a a').

(** The transport request of an access is in flight. *)
Definition in_flight (a : access) : Prop :=
  exists x, a_xhr a = Some x /\ (x_state x = Opened \/ x_state x = HeadersReceived).

(** The call an event stands for, if it is one. *)
Definition call_of (ev : event) : option (operation * params) :=
  match ev with
  | CallDownloadFile ps => Some (OpDownloadFile, ps)
  | CallCaptureUrl ps => Some (OpCaptureUrl, ps)
  | _ => None
  end.

Section Reachability.
Context `{Scrapbook}.

(** A state the session can be in: one a run from the initial state
    ends in. *)
Definition reachable (w : world) : Prop :=
  exists evs outs, run init evs = Some (outs, w).

(** The token an access was registered under when it was created. *)
Definition own_token (a : access) : string :=
  getAccessToken (splitUrlByAnchor (p_url (a_params a))).1
    (method_of (a_op a) (a_params a)).

(** The invariant of the deduplicator: while the transport request
    of an access is in flight its promise is pending, and every
    access is registered under its own token. *)
Definition consistent (w : world) : Prop :=
  (forall p a, promises w !! p = Some a -> in_flight a -> a_state a = Pending)
  /\ (forall p a, promises w !! p = Some a ->
        session_accessMap (timeId (p_settings (a_params a))) (captureInfo w)
          !! own_token a = Some p).

(** A fetch fails: the transport reports an error for a request in
    flight, or [downloadFile] cannot decode the data URI it is to
    save as a file.  The event, the promise concerned and the
    failure. *)
Inductive fetch_failure (w : world) : event -> pid -> exn -> Prop :=
| network_error p a ex :
    promises w !! p = Some a -> in_flight a ->
    fetch_failure w (OnError p ex) p ex
| malformed_data_uri ps :
    session_accessMap (timeId (p_settings ps)) (captureInfo w)
      !! getAccessToken (splitUrlByAnchor (p_url ps)).1 (p_rewriteMethod ps) = None ->
    Js.startsWith "data:" (splitUrlByAnchor (p_url ps)).1 = true ->
    saveDataUriAsFile (p_options ps) = true ->
    saveAs (p_options ps) <> "singleHtml" ->
    dataUriToFile (splitUrlByAnchor (p_url ps)).1 = None ->
    fetch_failure w (CallDownloadFile ps) (length (promises w))
      (Error "Malformed data URL.").

End Reachability.

(** The [default:] case of the [switch] on [options["capture.saveAs"]]:
    ["folder"], and every value that is none of the other three. *)
Definition folder_mode (o : options) : Prop :=
  saveAs o <> "singleHtml" /\ saveAs o <> "zip" /\ saveAs o <> "maff".

(** The directory a folder-mode capture is downloaded into. *)
Definition folder_of (o : options) (tid : string) : string :=
  scrapbookFolder o +:+ "/data/" +:+ tid.

(** Every entry of the archive lies in the folder [tid]. *)
Definition prefixed (tid : string) (z : gmap string zip_entry) : Prop :=
  forall path, is_Some (z !! path) -> Js.startsWith (tid +:+ "/") path = true.

(** The character before a position of the input: the last one of
    what was read, [pre], else the one before the input. *)
Definition before (prev : option ascii) (pre : string) : option ascii :=
  match Js.last pre with
  | Some c => Some c
  | None => prev
  end.

(** [s] has no occurrence of the character [c]. *)
Fixpoint free_of (c : ascii) (s : string) : bool :=
  match s with
  | EmptyString => true
  | String c' s' => negb (bool_decide (c = c')) && free_of c s'
  end.

(** The part of [s] before the first [c] and the part after it, when
    [c] occurs. *)
Fixpoint split_at (c : ascii) (s : string) : option (string * string) :=
  match s with
  | EmptyString => None
  | String c' s' =>
      if decide (c = c') then Some (EmptyString, s')
      else (fun '(a, b) => (String c' a, b)) <$> split_at c s'
  end.

(** Decoding of a base64 data URI: the fragment is dropped, the
    scheme and the parameters up to the first comma are skipped, the
    last parameter must be [base64], and the rest is decoded. *)
Definition dataUriDecode (uri : string) : option string :=
  rest ← Js.strip_prefix "data:" (splitUrlByAnchor uri).1;
  '(header, body) ← split_at "," rest;
  if Js.endsWith ";base64" header then Base64.decode body else None.

(** The names [-N] appended before the extension gives, N = 1, 2, ... *)
Definition numbered_form (base ext name : string) : Prop :=
  name = base +:+ ext \/ exists n : nat, (1 <= n)%nat /\ name = numbered base ext n.

(** ** Runs of the allocator, and a concrete helper library *)

Section AllocatorRuns.
Context `{Scrapbook}.

(** The base name the allocator numbers: lines 48-50 of the script. *)
Definition alloc_base (filename : option string) : string :=
  crop (crop (filenameParts (Js.or_default filename "untitled")).1 240 true) 128 false.

(** The extension, with its dot, the allocator keeps: lines 49-51. *)
Definition alloc_ext (filename : option string) : string :=
  match (filenameParts (Js.or_default filename "untitled")).2 with
  | EmptyString => ""
  | ext => "." +:+ ext
  end.

(** Successive calls [getUniqueFilename(timeId, name)] for one
    session: the names returned, in order, and the last state. *)
Fixpoint allocate_all (timeId : string) (names : list (option string))
    (ci : gmap string session) : option (list string * gmap string session) :=
  match names with
  | [] => Some ([], ci)
  | name :: names =>
      match getUniqueFilename timeId name ci with
      | Some (r, ci) =>
          match allocate_all timeId names ci with
          | Some (rs, ci) => Some (r :: rs, ci)
          | None => None
          end
      | None => None
      end
  end.

End AllocatorRuns.

(** Modelled from the spec: [scrapbook.filenameParts] (core/common.js is
    not part of this file) splits a file name into base and extension
    at its last dot; a name without dot has an empty extension. *)
Fixpoint filenameParts_model (s : string) : string * string :=
  match s with
  | EmptyString => (EmptyString, EmptyString)
  | String c s' =>
      let '(base, ext) := filenameParts_model s' in
      if bool_decide (c = "."%char) && free_of "." s' then (EmptyString, s')
      else if free_of "." s then (s, EmptyString)
      else (String c base, ext)
  end.

(** Modelled from the spec: [scrapbook.crop] (core/common.js is not
    part of this file) clamps a string to a length bound; on byte
    strings the bound in bytes and the bound in characters coincide. *)
Definition crop_model (s : string) (maxLength : nat) (byUtf8 : bool) : string :=
  if decide (String.length s <= maxLength)%nat then s
  else String.substring 0 maxLength s.

(** Modelled from the spec: [scrapbook.filepathParts] (core/common.js is
    not part of this file) splits a path at its last separator. *)
Fixpoint filepathParts_model (s : string) : string * string :=
  match s with
  | EmptyString => (EmptyString, EmptyString)
  | String c s' =>
      if free_of "/" s then (EmptyString, s)
      else if bool_decide (c = "/"%char) && free_of "/" s' then (EmptyString, s')
      else let '(dir, name) := filepathParts_model s' in (String c dir, name)
  end.

#[local] Arguments String.append !_ _ / : simpl nomatch.

(** The capital letters of the Latin-1 supplement follow the byte
    195 in UTF-8: 128 to 158 without the multiplication sign 151;
    their small letters are 32 further on. *)
Definition latin1_capital (c : ascii) : bool :=
  Js.between "128" "158" c && negb (bool_decide (c = "151"%char)).

(** A lower-casing to run the model on examples: it folds the ASCII
    letters and the letters of the Latin-1 supplement and leaves
    every other letter as it is.  It is not the built-in, but one
    function the three facts of the interface hold for.  [lead] says
    that the byte before was 195. *)
Fixpoint lower_latin1 (lead : bool) (s : string) : string :=
  match s with
  | EmptyString => EmptyString
  | String c s' =>
      String (if lead && latin1_capital c then ascii_of_N (N_of_ascii c + 32)
              else Js.lower_char c)
             (lower_latin1 (bool_decide (c = "195"%char)) s')
  end.

(** A helper library to run the model on examples: the helpers above,
    the lower-casing above, and the identity or a constant for every
    helper whose result no property depends on. *)
Definition sample_helpers : Scrapbook.
Proof.
  refine {|
    sha1 := fun s => s;
    filenameParts := filenameParts_model;
    filepathParts := filepathParts_model;
    crop := crop_model;
    validateFilename := fun s _ => s;
    urlToFilename := fun s => (filepathParts_model (splitUrlByAnchor s).1).2;
    escapeFilename := fun s => s;
    escapeHtml := fun s => default "" s;
    idToUTCString := fun s => s;
    dataUriToFile := fun s =>
      match dataUriDecode s with
      | Some d => Some ("untitled", Blob "application/octet-stream" d)
      | None => None
      end;
    stringToDataUri := fun s mime _ => readFileAsDataURL (Blob mime s);
    lang := fun key args => String.concat " " (key :: args);
    getErrorUrl := fun url _ => "urn:scrapbook:download:error:" +:+ url;
    mimeExtension := fun _ => None;
    generateAsync := fun z => inr (Blob "application/zip" "");
    toLowerCase := lower_latin1 false
  |}.
  - (* an ASCII byte is not the lead byte 195 *)
    intros s. induction s as [|c s IH]; simpl; [done|].
    intros [Hc Hs]%andb_true_iff.
    rewrite bool_decide_eq_false_2 by (by intros ->). by rewrite IH.
  - (* folding an ASCII letter changes neither a lead byte nor the
       byte after one *)
    assert (forall c b,
      (if b && latin1_capital (Js.lower_char c)
       then ascii_of_N (N_of_ascii (Js.lower_char c) + 32)
       else Js.lower_char (Js.lower_char c))
      = (if b && latin1_capital c then ascii_of_N (N_of_ascii c + 32)
         else Js.lower_char c)
      /\ bool_decide (Js.lower_char c = "195"%char) = bool_decide (c = "195"%char))
      as Hchar.
    { intros [[] [] [] [] [] [] [] []] []; split; reflexivity. }
    cut (forall s b, lower_latin1 b (Js.toLowerCase s) = lower_latin1 b s); [auto|].
    induction s as [|c s IH]; intros b; simpl; [done|].
    destruct (Hchar c b) as [-> ->]. by rewrite IH.
  - (* the digits of a number are kept, and what follows them is
       lower-cased as at the start of a string *)
    intros pre post n m.
    set (kept := fun d : string =>
      forall b s, lower_latin1 b (d +:+ s) = d +:+ lower_latin1 false s).
    assert (forall k d, d = "" \/ kept d -> kept (String (pretty_N_char k) d)) as Hdigit.
    { intros k d Hd b s. simpl.
      assert ((if b && latin1_capital (pretty_N_char k)
               then ascii_of_N (N_of_ascii (pretty_N_char k) + 32)
               else Js.lower_char (pretty_N_char k)) = pretty_N_char k
              /\ bool_decide (pretty_N_char k = "195"%char) = false) as [-> ->].
      { unfold pretty_N_char. destruct b; repeat case_match; split;
          first [reflexivity | exfalso; vm_compute in *; congruence]. }
      destruct Hd as [->|Hd]; [done|]. by rewrite Hd. }
    assert (forall x d, kept d -> kept (pretty_N_go x d)) as Hgo.
    { intros x. induction (N.lt_wf_0 x) as [x _ IH]; intros d Hd.
      destruct (decide (x = 0)) as [->|Hx]; [by rewrite pretty_N_go_0|].
      rewrite pretty_N_go_step by lia. apply IH; [apply N.div_lt; lia|].
      apply Hdigit. by right. }
    assert (forall k : nat, kept (Js.numberToString k)) as Hnumber.
    { intros k. unfold Js.numberToString, pretty, pretty_nat, pretty, pretty_N.
      case_decide; [apply (Hdigit 0); by left|].
      rewrite pretty_N_go_step by lia. apply Hgo, Hdigit. by left. }
    assert (forall a b, exists b', forall s,
              lower_latin1 b (a +:+ s) = lower_latin1 b a +:+ lower_latin1 b' s) as Happ.
    { induction a as [|c a IH]; intros b; simpl; [by exists b|].
      destruct (IH (bool_decide (c = "195"%char))) as [b' Hb'].
      exists b'. intros s. by rewrite Hb'. }
    destruct (Happ pre false) as [b Hpre].
    rewrite !Hpre, !Hnumber. intros E.
    apply (inj (String.app _)) in E.
    assert (forall a c t : string, a +:+ t = c +:+ t -> a = c) as Htail.
    { assert (forall a t : string,
                String.length (a +:+ t) = (String.length a + String.length t)%nat)
        as Hlen by (intros a t; induction a; simpl; congruence).
      induction a as [|x a IH]; intros [|y c] t Ht; simpl in Ht.
      - reflexivity.
      - apply (f_equal String.length) in Ht. simpl in Ht. rewrite Hlen in Ht. lia.
      - apply (f_equal String.length) in Ht. simpl in Ht. rewrite Hlen in Ht. lia.
      - injection Ht as -> Ht. f_equal. eauto. }
    apply Htail in E. by apply (inj pretty) in E.
Defined.

(** ** Document names: [capturer.registerDocument] *)

(** How a synchronous block ends: with a value, or with the
    [TypeError] of a property read on [undefined]. *)
Inductive completion (A : Type) := Returns (v : A) | ThrowsTypeError.
Arguments Returns {A} v.
Arguments ThrowsTypeError {A}.

(** The candidate built in the loop body of [registerDocument] for a
    given [count]. *)
Definition suffixed (documentName : string) (count : nat) : string :=
  documentName +:+ "_" +:+ Js.numberToString count.

Section Documents.
Context `{Scrapbook}.

(** The [while (files.has(newDocumentNameCI + ".html") ||
    files.has(newDocumentNameCI + ".xhtml"))] loop.  [fuel] bounds the
    number of times the body runs; [None] means the bound was hit. *)
Fixpoint uniquify_document (fuel : nat) (files : gset string)
    (documentName : string) (count : nat) (newDocumentName : string)
    : option string :=
  let newDocumentNameCI := toLowerCase newDocumentName in
  if bool_decide (newDocumentNameCI +:+ ".html" ∈ files)
     || bool_decide (newDocumentNameCI +:+ ".xhtml" ∈ files) then
    match fuel with
    | O => None
    | S fuel' =>
        uniquify_document fuel' files documentName (S count)
          (suffixed documentName (S count))
    end
  else Some newDocumentName.

(** [capturer.registerDocument(params)], on [params.settings]: the
    value of [documentName] in the object returned, and the updated
    [capturer.captureInfo].  Without [settings.documentName] the call
    of [toLowerCase] throws, after the name set was created. *)
Definition registerDocument (s : settings) (ci : gmap string session)
    : option (completion string * gmap string session) :=
  let tid := timeId s in
  let ci := ensure_session tid ci in
  let files := session_files tid ci in
  let ci := set_files tid files ci in
  match documentName s with
  | None => Some (ThrowsTypeError, ci)
  | Some documentName =>
      match uniquify_document (S (size files)) files documentName 0 documentName with
      | Some newDocumentName =>
          let newDocumentNameCI := toLowerCase newDocumentName in
          Some (Returns newDocumentName,
                set_files tid
                  ({[ newDocumentNameCI +:+ ".xhtml" ]}
                     ∪ ({[ newDocumentNameCI +:+ ".html" ]} ∪ files)) ci)
      | None => None
      end
  end.

End Documents.

(** The [count]-th name [registerDocument] tries: the name asked for,
    then the name with [_1], [_2], ... *)
Definition document_candidate (documentName : string) (count : nat) : string :=
  match count with
  | O => documentName
  | S _ => suffixed documentName count
  end.

(** The [count]-th name [getUniqueFilename] tries. *)
Definition file_candidate (base ext : string) (count : nat) : string :=
  match count with
  | O => base +:+ ext
  | S _ => numbered base ext count
  end.

(** A request for a name in a session: of a file, by
    [getUniqueFilename(timeId, filename)], or of a document, by
    [registerDocument({settings})]. *)
Inductive name_request :=
| FileName (timeId : string) (filename : option string)
| DocumentName (s : settings).

(** The document name of a request, if it asks for one, is made of
    ASCII characters. *)
Definition ascii_document (req : name_request) : Prop :=
  match req with
  | FileName _ _ => True
  | DocumentName s => forall n, documentName s = Some n -> Js.is_ascii n = true
  end.

Section NameRequests.
Context `{Scrapbook}.

(** The file names a request takes in its session: the name returned,
    or the document name returned with either extension. *)
Definition serve (req : name_request) (ci : gmap string session)
    : option (list (string * string) * gmap string session) :=
  match req with
  | FileName tid filename =>
      '(r, ci) ← getUniqueFilename tid filename ci;
      Some ([(tid, r)], ci)
  | DocumentName s =>
      '(c, ci) ← registerDocument s ci;
      match c with
      | Returns r => Some ([(timeId s, r +:+ ".html"); (timeId s, r +:+ ".xhtml")], ci)
      | ThrowsTypeError => Some ([], ci)
      end
  end.

(** Requests served one after the other: the names taken, each with
    its session, and the last state. *)
Fixpoint serve_all (reqs : list name_request) (ci : gmap string session)
    : option (list (string * string) * gmap string session) :=
  match reqs with
  | [] => Some ([], ci)
  | req :: reqs =>
      '(ns, ci) ← serve req ci;
      '(ms, ci) ← serve_all reqs ci;
      Some (ns ++ ms, ci)
  end.

End NameRequests.

(** ** Download coordinator: [capturer.downloadInfo] and the listener
    of [chrome.downloads.onChanged] *)

(** A value of [capturer.downloadInfo].  Its callbacks [onComplete]
    and [onError] are [resolve] and [reject] of the promise of the
    [saveUrl] call that started the download. *)
Record download_info := DownloadInfo {
  di_timeId : option string;
  di_src : string;
  di_autoErase : bool
}.

(** A [StringDelta] of the downloads API. *)
Record string_delta := StringDelta {
  previous : option string;
  current : option string
}.

(** The [downloadDelta] handed to the listener. *)
Record download_delta := DownloadDelta {
  dd_id : nat;
  dd_state : option string_delta;
  dd_error : option string_delta
}.

(** What the coordinator has done and waits for: the registry, the
    calls of [chrome.downloads.search] and [chrome.downloads.erase]
    whose callback has not run yet, the callbacks [onError(e)] and
    [onComplete(filename)] invoked so far, the promises rejected with
    [chrome.runtime.lastError], and the erasures asked for so far. *)
Record coordinator := Coordinator {
  downloadInfo : gmap nat download_info;
  searches : list nat;
  erasures : list nat;
  callbacks : list (nat * (exn + string));
  refusals : list exn;
  erased : list nat
}.

Definition idle : coordinator := Coordinator ∅ [] [] [] [] [].

(** What happens next in the download subsystem: the callback of
    [chrome.downloads.download] runs with a download id or without,
    [chrome.runtime.lastError] being set then; a download changes;
    the callback of a search or of an erasure runs. *)
Inductive download_event :=
| DownloadStarted (downloadId : option nat) (lastError : exn) (info : download_info)
| DownloadChanged (downloadDelta : download_delta)
| SearchAnswered (downloadId : nat) (results : list string)
| EraseAnswered (downloadId : nat).

(** [l] without the first occurrence of [x]. *)
Fixpoint remove_first (x : nat) (l : list nat) : list nat :=
  match l with
  | [] => []
  | y :: l => if decide (x = y) then l else y :: remove_first x l
  end.

(** [new Error(message)], [message] possibly [undefined]. *)
Definition new_Error (message : option string) : exn := Error (default "" message).

Section Coordinator.
Context `{Scrapbook}.

(** The callback of [chrome.downloads.download] in [saveUrl]:
    [if (downloadId) { downloadInfo.set(...) } else { reject(lastError) }];
    no id and the id 0 are falsy. *)
Definition download_started (downloadId : option nat) (lastError : exn)
    (info : download_info) (c : coordinator) : coordinator :=
  match downloadId with
  | Some (S n) =>
      Coordinator (<[S n := info]> (downloadInfo c)) (searches c) (erasures c)
        (callbacks c) (refusals c) (erased c)
  | _ =>
      Coordinator (downloadInfo c) (searches c) (erasures c)
        (callbacks c) (refusals c ++ [lastError]) (erased c)
  end.

(** A callback of the registry entry is invoked. *)
Definition invoke (downloadId : nat) (v : exn + string) (c : coordinator)
    : coordinator :=
  Coordinator (downloadInfo c) (searches c) (erasures c)
    (callbacks c ++ [(downloadId, v)]) (refusals c) (erased c).

(** The end of the chain, after [p.catch(...)]: the erasure is asked
    for if the entry says [autoErase], else the entry is deleted at
    once.  Reading [autoErase] of a missing entry throws; the last
    [catch] logs this, and nothing is deleted. *)
Definition finish (downloadId : nat) (c : coordinator) : coordinator :=
  match downloadInfo c !! downloadId with
  | None => c
  | Some info =>
      if di_autoErase info then
        Coordinator (downloadInfo c) (searches c) (erasures c ++ [downloadId])
          (callbacks c) (refusals c) (erased c ++ [downloadId])
      else
        Coordinator (delete downloadId (downloadInfo c)) (searches c) (erasures c)
          (callbacks c) (refusals c) (erased c)
  end.

(** The listener of [chrome.downloads.onChanged], up to the point
    where it waits for the download subsystem. *)
Definition onChanged (downloadDelta : download_delta) (c : coordinator)
    : coordinator :=
  let downloadId := dd_id downloadDelta in
  match downloadInfo c !! downloadId with
  | None => c
  | Some _ =>
      if bool_decide (current <$> dd_state downloadDelta = Some (Some "complete")) then
        Coordinator (downloadInfo c) (searches c ++ [downloadId]) (erasures c)
          (callbacks c) (refusals c) (erased c)
      else
        match dd_error downloadDelta with
        | Some error =>
            finish downloadId
              (invoke downloadId (inl (new_Error (current error))) c)
        | None => c
        end
  end.

(** The callback of [chrome.downloads.search] and the rest of the
    chain up to the erasure.  Reading [results[0].filename] of an
    empty result, or [onComplete] of a missing entry, throws; the
    first [catch] logs this and the chain goes on. *)
Definition search_answered (downloadId : nat) (results : list string)
    (c : coordinator) : coordinator :=
  if decide (downloadId ∈ searches c) then
    let c :=
      Coordinator (downloadInfo c) (remove_first downloadId (searches c))
        (erasures c) (callbacks c) (refusals c) (erased c) in
    let c :=
      match results with
      | [] => c
      | item :: _ =>
          let filename := (filepathParts item).2 in
          match downloadInfo c !! downloadId with
          | Some _ => invoke downloadId (inr filename) c
          | None => c
          end
      end in
    finish downloadId c
  else c.

(** The callback of [chrome.downloads.erase]:
    [downloadInfo.delete(downloadId)]. *)
Definition erase_answered (downloadId : nat) (c : coordinator) : coordinator :=
  if decide (downloadId ∈ erasures c) then
    Coordinator (delete downloadId (downloadInfo c)) (searches c)
      (remove_first downloadId (erasures c)) (callbacks c) (refusals c) (erased c)
  else c.

(** One step of the coordinator; the answer to a call that was not
    made does not happen, and changes nothing. *)
Definition coordinate (c : coordinator) (ev : download_event) : coordinator :=
  match ev with
  | DownloadStarted downloadId lastError info =>
      download_started downloadId lastError info c
  | DownloadChanged downloadDelta => onChanged downloadDelta c
  | SearchAnswered downloadId results => search_answered downloadId results c
  | EraseAnswered downloadId => erase_answered downloadId c
  end.

Definition coordinate_all (c : coordinator) (evs : list download_event)
    : coordinator :=
  foldl coordinate c evs.

End Coordinator.

(** The event concerns the download [downloadId]. *)
Definition about (downloadId : nat) (ev : download_event) : bool :=
  match ev with
  | DownloadStarted i _ _ => bool_decide (i = Some downloadId)
  | DownloadChanged d => bool_decide (dd_id d = downloadId)
  | SearchAnswered i _ => bool_decide (i = downloadId)
  | EraseAnswered i => bool_decide (i = downloadId)
  end.

(** The callbacks invoked for the download [downloadId], in order. *)
Definition callbacks_of (downloadId : nat) (c : coordinator) : list (exn + string) :=
  snd <$> filter (fun cb => cb.1 = downloadId) (callbacks c).

(** How often the erasure of the download [downloadId] was asked for. *)
Definition erasures_of (downloadId : nat) (c : coordinator) : nat :=
  length (filter (fun i => i = downloadId) (erased c)).

(** Everything the coordinator holds about the download [i] is in
    [c'] as it is in [c], and what waits for an answer still does. *)
Definition kept (i : nat) (c c' : coordinator) : Prop :=
  downloadInfo c' !! i = downloadInfo c !! i
  /\ callbacks_of i c' = callbacks_of i c
  /\ erasures_of i c' = erasures_of i c
  /\ (i ∈ searches c -> i ∈ searches c')
  /\ (i ∈ erasures c -> i ∈ erasures c').

(** What holds of every state the coordinator reaches after the
    events [evs]: an entry of the registry was registered as it is,
    an erasure was asked for a download registered with [autoErase],
    and callbacks were invoked for registered downloads. *)
Definition accounted (evs : list download_event) (c : coordinator) : Prop :=
  (forall i info, downloadInfo c !! i = Some info ->
     exists e, DownloadStarted (Some i) e info ∈ evs)
  /\ (forall i, i ∈ erased c ->
        exists e info, DownloadStarted (Some i) e info ∈ evs
                       /\ di_autoErase info = true)
  /\ (forall i v, (i, v) ∈ callbacks c ->
        exists e info, DownloadStarted (Some i) e info ∈ evs).

(** ** Names and sessions of accesses *)

(** The session an access belongs to. *)
Definition session_of (a : access) : string := timeId (p_settings (a_params a)).

(** The name an access stores its resource under in the folder or
    the archive of its session: [filename], unless the capture is an
    inline one ([singleHtml]), which stores no file. *)
Definition stored_name (a : access) : option string :=
  if bool_decide (saveAs (p_options (a_params a)) = "singleHtml") then None
  else a_filename a.

(** The session an event belongs to: the one of the call, or the one
    of the access whose transport request or chain the event is
    about. *)
Definition event_session (w : world) (ev : event) : option string :=
  match ev with
  | CallDownloadFile ps | CallCaptureUrl ps => Some (timeId (p_settings ps))
  | ReadyState2 p _ | OnLoad p | OnError p _ | Packaged p _ =>
      session_of <$> promises w !! p
  end.

(** The options an event is handled under. *)
Definition event_options (w : world) (ev : event) : option options :=
  match ev with
  | CallDownloadFile ps | CallCaptureUrl ps => Some (p_options ps)
  | ReadyState2 p _ | OnLoad p | OnError p _ | Packaged p _ =>
      (fun a => p_options (a_params a)) <$> promises w !! p
  end.

Section Names.
Context `{Scrapbook}.

(** The invariant of the names: the name an access stores its
    resource under is taken in its session, two accesses of one
    session store under names that differ case-insensitively, and an
    access whose transport request has not answered yet has no name. *)
Definition named (w : world) : Prop :=
  (forall p a f, promises w !! p = Some a -> stored_name a = Some f ->
     toLowerCase f ∈ session_files (session_of a) (captureInfo w))
  /\ (forall p q a b f g,
        p <> q -> promises w !! p = Some a -> promises w !! q = Some b ->
        session_of a = session_of b ->
        stored_name a = Some f -> stored_name b = Some g ->
        toLowerCase f <> toLowerCase g)
  /\ (forall p a x, promises w !! p = Some a -> a_xhr a = Some x ->
        x_state x = Opened -> a_filename a = None).

(** How the names change from one state to a later one: name sets
    only grow, and the name an access stores under is the one it had,
    or one that was free and is now taken. *)
Definition extends (w w' : world) : Prop :=
  (forall t, session_files t (captureInfo w) ⊆ session_files t (captureInfo w'))
  /\ (forall p a' f, promises w' !! p = Some a' -> stored_name a' = Some f ->
        (exists a, promises w !! p = Some a /\ session_of a' = session_of a
                   /\ stored_name a = Some f)
        \/ ((toLowerCase f ∉ session_files (session_of a') (captureInfo w))
            /\ toLowerCase f ∈ session_files (session_of a') (captureInfo w'))).

End Names.

(** ** Fetches and document registrations of a capture *)

(** What happens during a capture: an event of the fetch pipeline,
    or a call of [registerDocument]. *)
Inductive capture_event :=
| Fetch (ev : event)
| RegisterDocument (s : settings).

(** The state of a capture, with the document names
    [registerDocument] has returned so far, each with its session. *)
Record capture := Capture {
  c_world : world;
  c_documents : list (string * string)
}.

Section Capture.
Context `{Scrapbook}.

Definition capture_step (c : capture) (ev : capture_event) : option capture :=
  match ev with
  | Fetch ev =>
      '(_, w) ← step (c_world c) ev;
      Some (Capture w (c_documents c))
  | RegisterDocument s =>
      '(r, ci) ← registerDocument s (captureInfo (c_world c));
      Some (Capture (World ci (promises (c_world c)))
              (match r with
               | Returns newDocumentName =>
                   c_documents c ++ [(timeId s, newDocumentName)]
               | ThrowsTypeError => c_documents c
               end))
  end.

Fixpoint capture_run (c : capture) (evs : list capture_event) : option capture :=
  match evs with
  | [] => Some c
  | ev :: evs => c ← capture_step c ev; capture_run c evs
  end.

End Capture.

Section CaptureInvariant.
Context `{Scrapbook}.

(** The invariant of the names of a capture: the fetched resources
    are named apart, every registered document name is taken with
    both extensions as the script reserves them (the lower-case name
    followed by the extension), two registered names of a session
    differ case-insensitively, and what is reserved for a registered
    name differs from the lower-case name of every fetched resource
    of the session. *)
Definition all_named (c : capture) : Prop :=
  named (c_world c)
  /\ (forall i t n, c_documents c !! i = Some (t, n) ->
        toLowerCase n +:+ ".html" ∈ session_files t (captureInfo (c_world c))
        /\ toLowerCase n +:+ ".xhtml" ∈ session_files t (captureInfo (c_world c)))
  /\ (forall i j t n m, i <> j ->
        c_documents c !! i = Some (t, n) -> c_documents c !! j = Some (t, m) ->
        toLowerCase n <> toLowerCase m)
  /\ (forall p a f i n,
        promises (c_world c) !! p = Some a -> stored_name a = Some f ->
        c_documents c !! i = Some (session_of a, n) ->
        toLowerCase f <> toLowerCase n +:+ ".html"
        /\ toLowerCase f <> toLowerCase n +:+ ".xhtml").

End CaptureInvariant.

(** ** Files written by the packager *)

(** The suffix of the single file a capture of the main frame ends
    in, for the modes that produce one file. *)
Definition single_suffix (opts : options) (d : doc_data) : string :=
  if bool_decide (saveAs opts = "singleHtml") then
    "." +:+ (if bool_decide (mime d = "application/xhtml+xml") then "xhtml" else "html")
  else if bool_decide (saveAs opts = "zip") then ".htz"
  else ".maff".

Section ZipEntries.
Context `{Scrapbook}.

(** The entries an operation of the packager writes into a flat
    archive ([zip] mode), in the order it writes them. *)
Definition zip_writes (op : pk_op) : list (string * zip_entry) :=
  match op with
  | PackBlob ps =>
      [(db_filename ps, ZipEntry (db_blob ps) (entry_compression (db_blob ps)))]
  | PackDocument ps =>
      let d := sd_data ps in
      (validateFilename (sd_documentName ps +:+ doc_ext d)
         (saveAsciiFilename (sd_options ps)),
       ZipEntry (Blob (mime d) (content d)) DEFLATE)
      :: (if frameIsMain (sd_settings ps) && bool_decide (doc_ext d = ".xhtml")
          then [("index.html", ZipEntry (Blob "text/html" redirect_stub) DEFLATE)]
          else [])
  end.

End ZipEntries.

(** Entries written one after the other into an archive; a later one
    replaces an earlier one with the same path. *)
Definition write_all (es : list (string * zip_entry)) (z : gmap string zip_entry)
    : gmap string zip_entry :=
  foldl (fun z e => <[e.1 := e.2]> z) z es.

(** The modes that end in one file: the archive modes and the inline
    mode. *)
Definition single_file_mode (o : options) : Prop :=
  saveAs o = "singleHtml" \/ saveAs o = "zip" \/ saveAs o = "maff".

(** The operation saves the document of the main frame. *)
Definition saves_main_document (op : pk_op) : bool :=
  match op with
  | PackBlob _ => false
  | PackDocument ps => frameIsMain (sd_settings ps)
  end.

(** How a chain ends, as the promise resolved with it observes it:
    with a result, with a failure, or not yet. *)
Definition chain_end (o : outcome result) : option (exn + result) :=
  match o with
  | Ok r => Some (inr r)
  | Throw e => Some (inl e)
  | Stall => None
  end.

(** ** Request headers: the listener of
    [chrome.webRequest.onBeforeSendHeaders] *)

(** An entry of [details.requestHeaders]. *)
Record header := Header { hd_name : string; hd_value : string }.

(** [str.slice(n)] *)
Fixpoint slice_from (n : nat) (s : string) : string :=
  match n, s with
  | O, _ => s
  | S n, String _ s => slice_from n s
  | S _, EmptyString => EmptyString
  end.

(** The listener: a header whose name starts with [X-WebScrapBook-]
    loses these fifteen characters; the list is handed back. *)
Definition onBeforeSendHeaders (requestHeaders : list header) : list header :=
  (fun header =>
     if bool_decide (String.substring 0 15 (hd_name header) = "X-WebScrapBook-")
     then Header (slice_from 15 (hd_name header)) (hd_value header)
     else header) <$> requestHeaders.

(** The [requestHeaders] object the script hands to [scrapbook.xhr]
    with a transport request:
    [if (refUrl) { requestHeaders["X-WebScrapBook-Referer"] = refUrl; }]. *)
Definition xhr_requestHeaders (x : xhr) : list header :=
  match x_referer x with
  | Some refUrl => [Header "X-WebScrapBook-Referer" refUrl]
  | None => []
  end.

(** ** Pages generated by [captureFile] and [captureBookmark] *)

(** The helper [scrapbook.escapeHtml] called with a second argument,
    [scrapbook.escapeHtml(str, flag)]. *)
Class ScrapbookHtml := {
  escapeHtmlWith : option string -> bool -> string
}.

(** The parameter object of [captureFile]; [fp_title] is
    [params.data.title]. *)
Record file_params := FileParams {
  fp_url : string;
  fp_refUrl : option string;
  fp_title : option string;
  fp_settings : settings;
  fp_options : options
}.

Section Pages.
Context `{Scrapbook} `{ScrapbookHtml}.

(** [params.options["capture.recordDocumentMeta"] ?
     ' data-sb-source-' + timeId + '="' + scrapbook.escapeHtml(sourceUrl) + '"' : ""] *)
Definition source_meta (opts : options) (tid sourceUrl : string) : string :=
  if recordDocumentMeta opts then
    " data-sb-source-" +:+ tid +:+ "=" +:+ dq +:+ escapeHtml (Some sourceUrl) +:+ dq
  else "".

(** The [meta] element that sends the browser on to [target]. *)
Definition meta_refresh (target : string) : string :=
  "<meta http-equiv=" +:+ dq +:+ "refresh" +:+ dq +:+ " content=" +:+ dq
  +:+ "0;url=" +:+ target +:+ dq +:+ ">".

(** The template of the page of [captureFile] and of
    [captureBookmark]; they differ in the words before the link, in
    [label], and in where the page leads, [target]. *)
Definition link_page (meta target : string) (title : option string)
    (label sourceUrl : string) : string :=
  "<!DOCTYPE html>" +:+ nl +:+
  "<html" +:+ meta +:+ ">" +:+ nl +:+
  "<head>" +:+ nl +:+
  "<meta charset=" +:+ dq +:+ "UTF-8" +:+ dq +:+ ">" +:+ nl +:+
  meta_refresh target +:+ nl +:+
  (if Js.truthy title
   then "<title>" +:+ escapeHtmlWith title false +:+ "</title>" +:+ nl
   else "") +:+ "</head>" +:+ nl +:+
  "<body>" +:+ nl +:+
  label +:+ " <a href=" +:+ dq +:+ target +:+ dq +:+ ">"
    +:+ escapeHtmlWith (Some sourceUrl) false +:+ "</a>" +:+ nl +:+
  "</body>" +:+ nl +:+
  "</html>".

(** The parameters [captureFile] calls [downloadFile] with: no
    rewrite method. *)
Definition captureFile_download (ps : file_params) : params :=
  Params (fp_url ps) (fp_refUrl ps) None (fp_settings ps) (fp_options ps).

(** The page [captureFile] saves for the main frame. *)
Definition captureFile_page (ps : file_params) (response : result) : string :=
  link_page
    (source_meta (fp_options ps) (timeId (fp_settings ps)) (fp_url ps))
    (escapeHtml (Some (r_url response))) (fp_title ps)
    "Redirecting to file" (fp_url ps).

(** The handler of [.then((response) => ...)] in [captureFile], run
    on what the promise of [downloadFile] was fulfilled with.  A
    missing [settings.documentName] reads as [undefined] in
    [documentName + ext]. *)
Definition captureFile_then (ps : file_params) (response : result) : M result :=
  let sourceUrl := fp_url ps in
  let settings := fp_settings ps in
  let opts := fp_options ps in
  let tid := timeId settings in
  if frameIsMain settings then
    saveDocument
      (SaveParams
         (DocData "text/html" None (captureFile_page ps response) (fp_title ps))
         (default "undefined" (documentName settings)) sourceUrl settings opts)
  else
    mret (Result (Some tid) (Some sourceUrl) (r_targetDir response)
            (r_filename response) (r_url response) None).

(** The page [captureBookmark] saves; [title] is [doc.title], absent
    when the response is no document. *)
Definition captureBookmark_page (ps : params) (title : option string) : string :=
  link_page
    (source_meta (p_options ps) (timeId (p_settings ps)) (p_url ps))
    (escapeHtml (Some (p_url ps))) title
    "Bookmark for" (p_url ps).

(** The transport request of [captureBookmark]. *)
Definition captureBookmark_xhr (ps : params) : xhr :=
  let sourceUrl := p_url ps in
  Xhr (if Js.startsWith "data:" sourceUrl then (splitUrlByAnchor sourceUrl).1
       else sourceUrl)
      "document" (referer (p_refUrl ps)) Opened.

(** [capturer.captureBookmark], run on how the transport request
    ended: with an error, or loaded, with the title of the document
    if the response is one. *)
Definition captureBookmark (ps : params) (loaded : exn + option string) : M result :=
  let sourceUrl := p_url ps in
  let opts := p_options ps in
  let sourceUrlHash := (splitUrlByAnchor sourceUrl).2 in
  let tid := timeId (p_settings ps) in
  catch
    (match loaded with
     | inl ex => throw ex
     | inr title =>
         let html := captureBookmark_page ps title in
         let ext := ".htm" in
         let '(targetDir, filename, savePrompt) :=
           if saveInScrapbook opts then
             (scrapbookFolder opts +:+ "/data", tid +:+ ext, false)
           else
             let filename :=
               if Js.truthy title then default "" title else urlToFilename sourceUrl in
             let filename := validateFilename filename (saveAsciiFilename opts) in
             let filename :=
               if negb (Js.endsWith ext filename) then filename +:+ ext else filename in
             ("", filename, true) in
         filename ← saveBlob (Blob "text/html" html) targetDir filename sourceUrl
                       false savePrompt;
         mret (Result (Some tid) (Some sourceUrl) (Some targetDir) (Some filename)
                 (escapeFilename filename +:+ sourceUrlHash) None)
     end)
    (fun ex => Result None None None None (getErrorUrl sourceUrl opts) (Some ex)).

End Pages.

(** ** The document name [captureUrl] generates *)

(** The [Mime] table: [Mime.prototype.lookup(filename)] and
    [Mime.prototype.allExtensions(mime)]. *)
Class MimeTable := {
  mimeLookup : string -> option string;
  mimeAllExtensions : string -> list string
}.

(** [str.slice(0, -n)] *)
Definition slice_off (n : nat) (s : string) : string :=
  match n with
  | O => EmptyString
  | _ => String.substring 0 (String.length s - n) s
  end.

(** The [for] loop over the extensions of the type: the first one
    the lower-case name [fn] ends with is cut off [filename]. *)
Fixpoint strip_extension (fn filename : string) (exts : list string) : string :=
  match exts with
  | [] => filename
  | e :: exts =>
      let ext := Js.toLowerCase ("." +:+ e) in
      if Js.endsWith ext fn then slice_off (String.length ext) filename
      else strip_extension fn filename exts
  end.

Section DocumentName.
Context `{Scrapbook} `{MimeTable}.

(** The block [// generate a documentName if not specified] of
    [captureUrl], run when [params.settings.documentName] is not
    set: the name assigned.  The condition of the conditional
    expression is [headers.filename || sourceUrl.startsWith("data:")];
    reading [name] of a data URI that cannot be decoded throws. *)
Definition generate_documentName (ps : params) (h : headers) : completion string :=
  let sourceUrl := p_url ps in
  let filename :=
    if Js.truthy (h_filename h) || Js.startsWith "data:" sourceUrl
    then fst <$> dataUriToFile (splitUrlByAnchor sourceUrl).1
    else Some (urlToFilename sourceUrl) in
  match filename with
  | None => ThrowsTypeError
  | Some filename =>
      let mime :=
        if Js.truthy (h_contentType h) then default "" (h_contentType h)
        else if Js.truthy (mimeLookup filename) then default "" (mimeLookup filename)
        else "text/html" in
      let fn := Js.toLowerCase filename in
      Returns
        (if bool_decide (mime = "text/html")
            || bool_decide (mime = "application/xhtml+xml")
         then strip_extension fn filename (mimeAllExtensions mime)
         else filename)
  end.

End DocumentName.

(** [accessPrevious] in the handler of [readyState === 2]: the access
    the response URL is registered to already, when the response was
    redirected. *)
Section PreviousAccess.
Context `{Scrapbook}.

Definition previous_access (a : access) (resp : response) (w : world) : option pid :=
  let ps := a_params a in
  let responseUrlMain := (splitUrlByAnchor (responseURL resp)).1 in
  if negb (bool_decide (responseUrlMain = (splitUrlByAnchor (p_url ps)).1))
  then session_accessMap (timeId (p_settings ps)) (captureInfo w)
         !! getAccessToken responseUrlMain (method_of (a_op a) ps)
  else None.

End PreviousAccess.

Section ReadyState2.
Context `{Scrapbook} `{MimeTable}.

(** [if (!params.settings.documentName) { ... }] of [captureUrl]: the
    name assigned to [params.settings.documentName], [None] when the
    name given is kept, or the [TypeError] of the block. *)
Definition documentName_block (ps : params) (h : headers) : completion (option string) :=
  if Js.truthy (documentName (p_settings ps)) then Returns None
  else
    match generate_documentName ps h with
    | Returns filename => Returns (Some filename)
    | ThrowsTypeError => ThrowsTypeError
    end.

(** The handler [onreadystatechange] at [readyState === 2] as a
    whole: how it ends and the state it leaves.  It returns early
    when the response was redirected to a resource accessed before;
    for [downloadFile] it returns after the filename was determined;
    for [captureUrl] it ends as the block that generates the
    document name does, with the name assigned to
    [params.settings.documentName] if any.  What [scrapbook.xhr]
    does with an exception of the handler is not part of this
    file. *)
Definition readyState2 (p : pid) (resp : response) (w : world)
    : option (completion (option string) * world) :=
  w' ← onreadystatechange p resp w;
  a ← promises w !! p;
  let ended :=
    match previous_access a resp w, a_op a with
    | Some _, _ => Returns None
    | None, OpDownloadFile => Returns None
    | None, OpCaptureUrl =>
        documentName_block (a_params a) (get_headers resp (a_headers a))
    end in
  Some (ended, w').

End ReadyState2.

(** Helper libraries to run the pages and the document name on
    examples: no escaping, and a [Mime] table of the two document
    types. *)
Definition sample_html : ScrapbookHtml := {|
  escapeHtmlWith := fun s _ => default "" s
|}.

Definition sample_mime : MimeTable := {|
  mimeLookup := fun filename =>
    if Js.endsWith ".xhtml" (Js.toLowerCase filename) then Some "application/xhtml+xml"
    else if Js.endsWith ".html" (Js.toLowerCase filename) then Some "text/html"
    else None;
  mimeAllExtensions := fun mime =>
    if bool_decide (mime = "text/html") then ["html"; "htm"]
    else if bool_decide (mime = "application/xhtml+xml") then ["xhtml"; "xht"]
    else []
|}.

(** * Properties *)

(** ** Strings *)

Lemma sapp_nil_r (s : string) : s +:+ "" = s.
Proof. induction s; simpl; congruence. Qed.

Lemma sapp_assoc (a b c : string) : (a +:+ b) +:+ c = a +:+ b +:+ c.
Proof. induction a; simpl; congruence. Qed.

Lemma slength_app (a b : string) :
  String.length (a +:+ b) = (String.length a + String.length b)%nat.
Proof. induction a; simpl; congruence. Qed.

Lemma sapp_inv_tail (a b c : string) : a +:+ c = b +:+ c -> a = b.
Proof.
  revert b. induction a as [|x a IH]; intros [|y b] E; simpl in E.
  - reflexivity.
  - apply (f_equal String.length) in E. simpl in E. rewrite slength_app in E. lia.
  - apply (f_equal String.length) in E. simpl in E. rewrite slength_app in E. lia.
  - injection E as -> E. f_equal. auto.
Qed.

Lemma toLowerCase_app (a b : string) :
  Js.toLowerCase (a +:+ b) = Js.toLowerCase a +:+ Js.toLowerCase b.
Proof. induction a; simpl; congruence. Qed.

Lemma lower_char_digit (n : N) : Js.lower_char (pretty_N_char n) = pretty_N_char n.
Proof. unfold pretty_N_char. repeat case_match; reflexivity. Qed.

Lemma toLowerCase_pretty_go (x : N) (s : string) :
  Js.toLowerCase (pretty_N_go x s) = pretty_N_go x (Js.toLowerCase s).
Proof.
  revert s. induction (N.lt_wf_0 x) as [x _ IH]; intros s.
  destruct (decide (x = 0)) as [->|Hx].
  - by rewrite !pretty_N_go_0.
  - rewrite (pretty_N_go_step x s), (pretty_N_go_step x (Js.toLowerCase s)) by lia.
    rewrite IH by (apply N.div_lt; lia).
    simpl. by rewrite lower_char_digit.
Qed.

Lemma toLowerCase_number (n : nat) :
  Js.toLowerCase (Js.numberToString n) = Js.numberToString n.
Proof.
  unfold Js.numberToString, pretty, pretty_nat, pretty, pretty_N.
  case_decide; [reflexivity|]. by rewrite toLowerCase_pretty_go.
Qed.

Lemma numberToString_inj (n m : nat) :
  Js.numberToString n = Js.numberToString m -> n = m.
Proof. apply (inj pretty). Qed.

Lemma is_ascii_app (a b : string) :
  Js.is_ascii (a +:+ b) = Js.is_ascii a && Js.is_ascii b.
Proof. induction a as [|c a IH]; simpl; [done|]. by rewrite IH, andb_assoc. Qed.

Lemma is_ascii_pretty_go (x : N) (s : string) :
  Js.is_ascii s = true -> Js.is_ascii (pretty_N_go x s) = true.
Proof.
  revert s. induction (N.lt_wf_0 x) as [x _ IH]; intros s Hs.
  destruct (decide (x = 0)) as [->|Hx]; [by rewrite pretty_N_go_0|].
  rewrite pretty_N_go_step by lia. apply IH; [apply N.div_lt; lia|].
  simpl. rewrite Hs, andb_true_r. unfold pretty_N_char. by repeat case_match.
Qed.

Lemma is_ascii_number (n : nat) : Js.is_ascii (Js.numberToString n) = true.
Proof.
  unfold Js.numberToString, pretty, pretty_nat, pretty, pretty_N.
  case_decide; [reflexivity|]. by apply is_ascii_pretty_go.
Qed.

(** ** The built-in [toLowerCase] *)

Section LowerCase.
Context `{Scrapbook}.

(** Names that are equal up to the case of their ASCII letters have
    the same lower-case form. *)
Lemma toLowerCase_same_fold (a b : string) :
  Js.toLowerCase a = Js.toLowerCase b -> toLowerCase a = toLowerCase b.
Proof.
  intros E. by rewrite <- (toLowerCase_fold a), <- (toLowerCase_fold b), E.
Qed.

(** Lower-casing goes through an ASCII extension appended to an ASCII
    name. *)
Lemma toLowerCase_ascii_app (r ext : string) :
  Js.is_ascii r = true -> Js.is_ascii ext = true ->
  toLowerCase (r +:+ ext) = toLowerCase r +:+ Js.toLowerCase ext.
Proof.
  intros Hr He. rewrite !toLowerCase_ascii, ?toLowerCase_app; try done.
  by rewrite is_ascii_app, Hr, He.
Qed.

(** Two numbered candidates with the same lower-case form carry the
    same number. *)
Lemma numbered_lower_inj (base ext : string) (n m : nat) :
  toLowerCase (numbered base ext n) = toLowerCase (numbered base ext m) -> n = m.
Proof.
  unfold numbered.
  rewrite <- !(sapp_assoc base "-"). apply toLowerCase_numbered.
Qed.

End LowerCase.

(** ** Filename allocator *)

Section AllocatorFacts.
Context `{Scrapbook}.

Lemma uniquify_Some fuel files base ext count cur r :
  uniquify fuel files base ext count cur = Some r ->
  (toLowerCase r ∉ files)
  /\ (r = cur \/ exists n, (count < n)%nat /\ r = numbered base ext n).
Proof.
  revert count cur. induction fuel as [|fuel IH]; intros count cur; simpl.
  - case_decide; [discriminate|]. intros [= <-]. auto.
  - case_decide.
    + intros E. apply IH in E as [? [->|(n & ? & ->)]]; split; auto.
      * right. exists (S count). split; [lia|done].
      * right. exists n. split; [lia|done].
    + intros [= <-]. auto.
Qed.

Lemma uniquify_None fuel files base ext count cur :
  uniquify fuel files base ext count cur = None ->
  forall n, (count < n <= count + fuel)%nat ->
    toLowerCase (numbered base ext n) ∈ files.
Proof.
  revert count cur. induction fuel as [|fuel IH]; intros count cur; simpl.
  - intros _ n ?. lia.
  - case_decide; [|discriminate]. intros E n Hn.
    destruct (decide (n = S count)) as [->|].
    + destruct fuel; simpl in E; case_decide; done.
    + apply (IH _ _ E). lia.
Qed.

(** The loop ends before it has run [size files + 1] times. *)
Lemma uniquify_terminates files base ext cur :
  is_Some (uniquify (S (size files)) files base ext 0 cur).
Proof.
  destruct (uniquify _ _ _ _ _ _) eqn:E; [eauto|exfalso].
  pose proof (uniquify_None _ _ _ _ _ _ E) as Hin.
  set (cands := (fun n => toLowerCase (numbered base ext n)) <$> seq 1 (S (size files))).
  assert (NoDup cands) as Hnd.
  { apply NoDup_fmap_2_strong; [|apply NoDup_seq].
    intros n m _ _. apply numbered_lower_inj. }
  assert (list_to_set cands ⊆ files) as Hsub.
  { intros x [y [-> Hy]]%elem_of_list_to_set%list_elem_of_fmap.
    apply elem_of_seq in Hy. apply Hin. lia. }
  apply subseteq_size in Hsub.
  rewrite size_list_to_set in Hsub by done.
  unfold cands in Hsub. rewrite length_fmap, length_seq in Hsub. lia.
Qed.

Lemma session_files_ensure t ci :
  session_files t (ensure_session t ci) = session_files t ci.
Proof.
  unfold session_files, get_session, ensure_session.
  destruct (ci !! t) eqn:E; [by rewrite E|]. by rewrite lookup_insert_eq.
Qed.

Lemma session_files_set t f ci : session_files t (set_files t f ci) = f.
Proof. unfold session_files, get_session, set_files. by rewrite lookup_insert_eq. Qed.

(** One allocation: it returns, the name has the numbered form, its
    lower-case form was free and is now taken. *)
Lemma getUniqueFilename_allocates t name ci :
  exists r ci',
    getUniqueFilename t name ci = Some (r, ci')
    /\ numbered_form (alloc_base name) (alloc_ext name) r
    /\ (toLowerCase r ∉ session_files t ci)
    /\ session_files t ci' = {[ toLowerCase r ]} ∪ session_files t ci.
Proof.
  unfold getUniqueFilename, alloc_base, alloc_ext.
  destruct (filenameParts (Js.or_default name "untitled")) as [base ext].
  cbv beta match zeta delta [fst snd].
  set (ext' := match ext with EmptyString => "" | _ => "." +:+ ext end).
  set (base' := crop (crop base 240 true) 128 false).
  set (fs := session_files t (ensure_session t ci)).
  destruct (uniquify_terminates fs base' ext' (base' +:+ ext')) as [r Hr].
  rewrite Hr. eexists _, _. split; [reflexivity|].
  apply uniquify_Some in Hr as [Hfree Hform].
  unfold fs in *. rewrite session_files_ensure in Hfree.
  rewrite session_files_set, session_files_ensure.
  repeat split; try done.
  replace (match ext with EmptyString => "" | String a e => "." +:+ String a e end)
    with ext' by (by destruct ext).
  destruct Hform as [->|(n & ? & ->)]; [by left|right].
  exists n. split; [lia|done].
Qed.

End AllocatorFacts.

(** ** C4: names allocated in one session *)

Section AllocatorTheorems.
Context `{Scrapbook}.

(** C4. In one session, whatever names are asked for, every call of
    [getUniqueFilename] returns; the names returned are pairwise
    different when compared case-insensitively, that is their
    lower-case forms ([toLowerCase]) differ, so that in particular no
    two of them are equal up to the case of ASCII letters; none
    equals, compared in either way, a reserved default name
    ([index.rdf], [index.dat]), and none has the lower-case form of a
    name the session held before; each is the asked name or that
    name with [-N] (N = 1, 2, ...) before the extension, and the
    lower-case form of each is in the session's name set afterwards.
    The session starts in any state whose name set, if it has one,
    holds the reserved names, as every name set the script creates
    does. *)
Theorem getUniqueFilename_unique_in_session
    (t : string) (names : list (option string)) (ci : gmap string session) :
  defaultFilesSet ⊆ session_files t ci ->
  exists rs ci',
    allocate_all t names ci = Some (rs, ci')
    /\ length rs = length names
    /\ NoDup (toLowerCase <$> rs)
    /\ NoDup (Js.toLowerCase <$> rs)
    /\ Forall (fun r => (toLowerCase r ∉ defaultFilesSet)
                        /\ (Js.toLowerCase r ∉ defaultFilesSet)
                        /\ (toLowerCase r ∉ session_files t ci)
                        /\ (toLowerCase r ∈ session_files t ci')) rs
    /\ Forall2 (fun name r => numbered_form (alloc_base name) (alloc_ext name) r)
         names rs
    /\ session_files t ci ⊆ session_files t ci'.
Proof.
  intros Hdef.
  cut (exists rs ci',
    allocate_all t names ci = Some (rs, ci')
    /\ length rs = length names
    /\ NoDup (toLowerCase <$> rs)
    /\ Forall (fun r => (toLowerCase r ∉ defaultFilesSet)
                        /\ (toLowerCase r ∉ session_files t ci)
                        /\ (toLowerCase r ∈ session_files t ci')) rs
    /\ Forall2 (fun name r => numbered_form (alloc_base name) (alloc_ext name) r)
         names rs
    /\ session_files t ci ⊆ session_files t ci').
  { intros (rs & ci' & E & Hlen & Hnd & Hall & Hforms & Hsub).
    exists rs, ci'. repeat (split; [done|]).
    split.
    { (* what is equal up to ASCII case has one lower-case form *)
      clear -Hnd. induction rs as [|r rs IH]; simpl; [constructor|].
      simpl in Hnd. apply NoDup_cons in Hnd as [Hr Hnd].
      constructor; [|by apply IH].
      intros (r' & E & Hr')%list_elem_of_fmap. apply Hr.
      apply list_elem_of_fmap. exists r'. split; [|done].
      by apply toLowerCase_same_fold. }
    split; [|done].
    eapply Forall_impl; [exact Hall|]. intros r (Hres & Hnew & Hin).
    repeat (split; [done|]). split; [|done].
    (* a reserved name is its own lower-case form *)
    intros Hr. apply Hres.
    replace (toLowerCase r) with (Js.toLowerCase r); [done|].
    rewrite <- (toLowerCase_fold r). apply elem_of_union in Hr as [Hr|Hr];
      apply elem_of_singleton in Hr; rewrite Hr; by rewrite toLowerCase_ascii. }
  revert ci Hdef. induction names as [|name names IH]; intros ci Hdef; simpl.
  - exists [], ci. repeat split; try constructor. done.
  - destruct (getUniqueFilename_allocates t name ci)
      as (r & ci1 & -> & Hform & Hfree & Hfiles).
    destruct (IH ci1) as (rs & ci' & -> & Hlen & Hnd & Hall & Hforms & Hsub).
    { rewrite Hfiles. etrans; [exact Hdef|]. apply union_subseteq_r. }
    exists (r :: rs), ci'. rewrite Hfiles in Hall, Hsub.
    apply union_subseteq in Hsub as [Hr%singleton_subseteq_l Hsub].
    split; [done|]. split; [simpl; congruence|].
    split.
    { simpl. constructor; [|done].
      intros (r' & E & Hr')%list_elem_of_fmap.
      rewrite Forall_forall in Hall. apply Hall in Hr' as (_ & Hnew & _).
      rewrite <- E in Hnew. apply Hnew, elem_of_union. left. by apply elem_of_singleton. }
    split.
    { constructor.
      - split; [|split; [exact Hfree|exact Hr]].
        intros Hin. apply Hfree. by apply Hdef.
      - eapply Forall_impl; [exact Hall|]. intros r' (? & Hnew & ?).
        split; [done|]. split; [|done].
        intros Hin. apply Hnew, elem_of_union. by right. }
    split; [by constructor|exact Hsub].
Qed.

(** C10. With an empty, null or missing desired name the call
    returns: the name is [untitled] or [untitled-N] with N >= 1, its
    lower-case form was not in the session's name set before the
    call, so it differs case-insensitively from every name
    allocated before and from the reserved names, and it is in the
    set afterwards.  The helpers are assumed to split [untitled]
    into that base and no extension and to leave it uncropped. *)
Theorem getUniqueFilename_untitled
    (t : string) (filename : option string) (ci : gmap string session) :
  Js.truthy filename = false ->
  filenameParts "untitled" = ("untitled", "") ->
  crop (crop "untitled" 240 true) 128 false = "untitled" ->
  exists r ci',
    getUniqueFilename t filename ci = Some (r, ci')
    /\ (r = "untitled"
        \/ exists n : nat, (1 <= n)%nat /\ r = "untitled-" +:+ Js.numberToString n)
    /\ (Js.toLowerCase r ∉ session_files t ci)
    /\ session_files t ci' = {[ Js.toLowerCase r ]} ∪ session_files t ci.
Proof.
  intros Hfalsy Hparts Hcrop.
  destruct (getUniqueFilename_allocates t filename ci)
    as (r & ci' & E & Hform & Hfree & Hfiles).
  assert (Js.or_default filename "untitled" = "untitled") as Hd.
  { destruct filename as [[|]|]; done. }
  unfold alloc_base, alloc_ext in Hform. rewrite Hd, Hparts in Hform.
  simpl in Hform. rewrite Hcrop in Hform.
  assert (r = "untitled"
          \/ exists n : nat, (1 <= n)%nat /\ r = "untitled-" +:+ Js.numberToString n)
    as Hr.
  { destruct Hform as [->|(n & ? & ->)]; [by left|right].
    exists n. split; [done|]. unfold numbered. simpl. by rewrite sapp_nil_r. }
  (* the names are ASCII: the built-in folds them as ASCII letters go *)
  assert (toLowerCase r = Js.toLowerCase r) as Hlower.
  { apply toLowerCase_ascii. destruct Hr as [->|(n & _ & ->)]; [done|].
    by rewrite is_ascii_app, is_ascii_number. }
  rewrite Hlower in Hfree, Hfiles.
  exists r, ci'. repeat split; done.
Qed.

End AllocatorTheorems.

(** ** C8: the inline strategy round-trips *)

Section Base64Facts.
#[local] Arguments Base64.enc6 : simpl never.
#[local] Arguments Base64.dec6 : simpl never.







End Base64Facts.

Section DataUriFacts.







Lemma startsWith_app p s : Js.startsWith p (p +:+ s) = true.
Proof. induction p; simpl; [by destruct s|]. by rewrite decide_True. Qed.

Lemma rev_app_app a b t : String.rev_app (a +:+ b) t = String.rev_app b (String.rev_app a t).
Proof. revert t. induction a; simpl; auto. Qed.

Lemma rev_app_tail a t : String.rev_app a t = String.rev_app a "" +:+ t.
Proof.
  revert t. induction a as [|x a IH]; intros t; simpl; [done|].
  rewrite (IH (String x t)), (IH (String x "")), sapp_assoc. done.
Qed.

Lemma endsWith_app p s : Js.endsWith p (s +:+ p) = true.
Proof.
  unfold Js.endsWith, String.rev.
  rewrite rev_app_app, (rev_app_tail p (String.rev_app s "")).
  apply startsWith_app.
Qed.







End DataUriFacts.

Section InlineRoundTrip.
Context `{Scrapbook}.




End InlineRoundTrip.


(** ** C6: compression of the entries of a flat archive *)

Section RegexFacts.

Lemma strip_prefix_Some p s rest : Js.strip_prefix p s = Some rest <-> s = p +:+ rest.
Proof.
  revert s. induction p as [|a p IH]; intros s; simpl.
  - destruct s; split; congruence.
  - destruct s as [|b s]; [split; discriminate|].
    case_decide as E.
    + subst. rewrite IH. split; congruence.
    + split; [discriminate|]. intros [= ? _]. done.
Qed.

Lemma startsWith_iff p s : Js.startsWith p s = true <-> exists rest, s = p +:+ rest.
Proof.
  revert s. induction p as [|a p IH]; intros s; simpl.
  - split; [|done]. intros _. by exists s.
  - destruct s as [|b s]; [split; [discriminate|by intros [? ?]]|].
    case_decide as E.
    + subst. rewrite IH. split; intros [rest Hr]; exists rest; congruence.
    + split; [discriminate|]. intros [rest [= ? _]]. done.
Qed.

Lemma last_cons c s :
  Js.last (String c s) = Some (default c (Js.last s)).
Proof.
  revert c. induction s as [|d s IH]; intros c; [done|].
  change (Js.last (String c (String d s))) with (Js.last (String d s)).
  by rewrite (IH d).
Qed.

Lemma before_cons prev c pre : before prev (String c pre) = before (Some c) pre.
Proof. unfold before. rewrite last_cons. by destruct (Js.last pre). Qed.

Lemma head_app w post :
  Js.is_word (Js.head w) = true -> Js.head (w +:+ post) = Js.head w.
Proof. by destruct w. Qed.

(** A word that begins and ends with word characters is matched
    between two boundaries exactly when it stands there with no
    word character on either side. *)
Lemma bounded_word_here_iff prev s w :
  Js.is_word (Js.head w) = true -> Js.is_word (Js.last w) = true ->
  Js.bounded_word_here prev s w = true <->
  Js.is_word prev = false
  /\ exists post, s = w +:+ post /\ Js.is_word (Js.head post) = false.
Proof.
  intros Hh Hl. unfold Js.bounded_word_here, Js.word_boundary.
  rewrite andb_true_iff. split.
  - intros [Hb Hs]. destruct (Js.strip_prefix w s) as [rest|] eqn:E; [|done].
    apply strip_prefix_Some in E as ->.
    rewrite head_app, Hh in Hb by done. rewrite Hl in Hs.
    split; [by destruct (Js.is_word prev)|].
    exists rest. split; [done|]. by destruct (Js.is_word (Js.head rest)).
  - intros [Hp (post & -> & Hpost)].
    rewrite head_app, Hh, Hp by done. split; [done|].
    rewrite (proj2 (strip_prefix_Some w (w +:+ post) post) eq_refl).
    by rewrite Hl, Hpost.
Qed.

Lemma test_bounded_words_iff ws prev s :
  (forall w, w ∈ ws -> Js.is_word (Js.head w) = true /\ Js.is_word (Js.last w) = true) ->
  Js.test_bounded_words ws prev s = true <->
  exists w pre post,
    w ∈ ws /\ s = pre +:+ w +:+ post
    /\ Js.is_word (before prev pre) = false /\ Js.is_word (Js.head post) = false.
Proof.
  intros Hws. revert prev. induction s as [|c s IH]; intros prev.
  - simpl. rewrite orb_false_r, existsb_exists. split.
    + intros (w & Hw%list_elem_of_In & Hm).
      destruct (Hws w Hw) as [Hh Hl].
      apply bounded_word_here_iff in Hm as [Hp (post & E & Hpost)]; [|done..].
      exists w, "", post. by repeat split.
    + intros (w & pre & post & Hw & E & Hp & Hpost).
      destruct (Hws w Hw) as [Hh Hl].
      destruct pre; [|done]. exists w. split; [by apply list_elem_of_In|].
      apply bounded_word_here_iff; [done..|]. split; [done|]. by exists post.
  - simpl. rewrite orb_true_iff, existsb_exists, IH. split.
    + intros [(w & Hw%list_elem_of_In & Hm)|(w & pre & post & Hw & -> & Hp & Hpost)].
      * destruct (Hws w Hw) as [Hh Hl].
        apply bounded_word_here_iff in Hm as [Hp (post & E & Hpost)]; [|done..].
        exists w, "", post. by repeat split.
      * exists w, (String c pre), post. rewrite before_cons. by repeat split.
    + intros (w & pre & post & Hw & E & Hp & Hpost).
      destruct (Hws w Hw) as [Hh Hl]. destruct pre as [|c' pre].
      * left. exists w. split; [by apply list_elem_of_In|].
        apply bounded_word_here_iff; [done..|]. split; [done|]. by exists post.
      * right. simpl in E. injection E as -> ->.
        rewrite before_cons in Hp. by exists w, pre, post.
Qed.

(** The test of [downloadBlob] on the type of a blob, in words. *)
Lemma compressible_iff (type : string) :
  compressible type = true <->
  (exists rest, type = "text/" +:+ rest)
  \/ contains_word "xml" type \/ contains_word "json" type
  \/ contains_word "javascript" type.
Proof.
  unfold compressible. rewrite orb_true_iff, startsWith_iff.
  rewrite test_bounded_words_iff.
  2:{ intros w Hw. repeat (apply elem_of_cons in Hw as [->|Hw]; [done|]).
      by apply elem_of_nil in Hw. }
  unfold contains_word, before. split.
  - intros [?|(w & pre & post & Hw & -> & Hp & Hpost)]; [by left|right].
    assert (Js.is_word (Js.last pre) = false) by (by destruct (Js.last pre)).
    repeat (apply elem_of_cons in Hw as [->|Hw]; [eauto 10|]).
    by apply elem_of_nil in Hw.
  - intros [?|Hw]; [by left|right].
    destruct Hw as [(pre & post & -> & Hp & Hpost)|[(pre & post & -> & Hp & Hpost)
                   |(pre & post & -> & Hp & Hpost)]].
    + exists "xml", pre, post. repeat split; [set_solver| |done].
      by destruct (Js.last pre).
    + exists "json", pre, post. repeat split; [set_solver| |done].
      by destruct (Js.last pre).
    + exists "javascript", pre, post. repeat split; [set_solver| |done].
      by destruct (Js.last pre).
Qed.

End RegexFacts.

Section ZipFacts.

Lemma get_session_ensure t ci : get_session t (ensure_session t ci) = get_session t ci.
Proof.
  unfold get_session, ensure_session.
  destruct (ci !! t) eqn:E; [by rewrite E|]. by rewrite lookup_insert_eq.
Qed.

(** [zip.file] adds or replaces the entry of its path and keeps every
    other entry. *)
Lemma session_zip_zip_file t name b c ci :
  session_zip t (zip_file t name b c ci)
  = <[name := ZipEntry b c]> (session_zip t ci).
Proof.
  unfold zip_file, set_zip, session_zip at 1, get_session at 1.
  rewrite lookup_insert_eq. simpl.
  by unfold session_zip; rewrite get_session_ensure.
Qed.

End ZipFacts.

Section ZipCompression.
Context `{Scrapbook}.

Lemma entry_compression_DEFLATE (b : blob) :
  entry_compression b = DEFLATE <->
  ((exists rest, blob_type b = "text/" +:+ rest)
   \/ contains_word "xml" (blob_type b) \/ contains_word "json" (blob_type b)
   \/ contains_word "javascript" (blob_type b))
  /\ 128 <= blob_size b.
Proof.
  unfold entry_compression. rewrite <- compressible_iff, <- N.leb_le.
  destruct (compressible (blob_type b)), (128 <=? blob_size b); simpl;
    split; try done; intros [? ?]; done.
Qed.

(** C6, as the script implements it. In zip mode [downloadBlob] adds
    the blob under its file name, compressed with DEFLATE exactly
    when the blob has at least 128 bytes and its type starts with
    [text/] or holds [xml], [json] or [javascript] as a whole word,
    that is with no letter, digit or underscore next to it; every
    other blob is added with STORE. *)
Theorem downloadBlob_zip_compression (ps : blob_params) (s : pk) :
  saveAs (db_options ps) = "zip" ->
  exists r s' c,
    downloadBlob ps s = (Ok r, s')
    /\ session_zip (timeId (db_settings ps)) (pk_info s') !! db_filename ps
       = Some (ZipEntry (db_blob ps) c)
    /\ (c = DEFLATE <->
        ((exists rest, blob_type (db_blob ps) = "text/" +:+ rest)
         \/ contains_word "xml" (blob_type (db_blob ps))
         \/ contains_word "json" (blob_type (db_blob ps))
         \/ contains_word "javascript" (blob_type (db_blob ps)))
        /\ 128 <= blob_size (db_blob ps))
    /\ (c <> DEFLATE -> c = STORE).
Proof.
  intros Hmode. unfold downloadBlob. rewrite Hmode.
  rewrite bool_decide_eq_false_2 by discriminate.
  rewrite bool_decide_eq_true_2 by done.
  eexists _, _, (entry_compression (db_blob ps)).
  split; [reflexivity|]. simpl.
  rewrite session_zip_zip_file, lookup_insert_eq.
  split; [done|]. split; [apply entry_compression_DEFLATE|].
  unfold entry_compression. by destruct (_ && _).
Qed.

End ZipCompression.

(** C6 as the specification words it, with "contains" read as
    "has as a substring", fails: the type of a word-processing
    document contains [xml] (inside [openxmlformats]) and the blob has
    128 bytes, yet the entry is stored uncompressed. *)
Lemma downloadBlob_zip_substring_counterexample :
  let type := "application/vnd.openxmlformats-officedocument.wordprocessingml.document" in
  let b := Blob type (String.concat "" (replicate 128 "x")) in
  let ps := BlobParams b "report.docx" "http://example.com/report.docx"
              (Settings "20230101000000000" false None)
              (Options "zip" false "" false false false) in
  contains "xml" (blob_type b)
  /\ 128 <= blob_size b
  /\ session_zip "20230101000000000"
       (pk_info (@downloadBlob sample_helpers ps (Pk ∅ [] [])).2) !! "report.docx"
     = Some (ZipEntry b STORE).
Proof.
  split; [|split].
  - by exists "application/vnd.open", "formats-officedocument.wordprocessingml.document".
  - by vm_compute.
  - vm_compute. reflexivity.
Qed.

(** ** Entries written into an archive *)

Lemma session_zip_writes tid es ci :
  session_zip tid
    (foldl (fun ci e => zip_file tid e.1 (ze_blob e.2) (ze_compression e.2) ci) ci es)
  = write_all es (session_zip tid ci).
Proof.
  revert ci. induction es as [|[name [b c]] es IH]; intros ci; [done|].
  cbn [foldl write_all]. rewrite IH, session_zip_zip_file. done.
Qed.

Lemma write_all_app es1 es2 z : write_all (es1 ++ es2) z = write_all es2 (write_all es1 z).
Proof. apply foldl_app. Qed.

Lemma write_all_lookup es z path :
  is_Some (write_all es z !! path) <-> is_Some (z !! path) \/ path ∈ es.*1.
Proof.
  revert z. induction es as [|[name e] es IH]; intros z.
  - split; [by left|]. intros [?|Hin]; [done|]. by apply elem_of_nil in Hin.
  - change (write_all ((name, e) :: es) z) with (write_all es (<[name := e]> z)).
    rewrite IH. cbn [fmap list_fmap fst snd].
    rewrite lookup_insert. split.
    + intros [Hz|Hin].
      * case_decide; [subst; right; apply list_elem_of_here|by left].
      * right. by apply list_elem_of_further.
    + intros [Hz|[->|Hin]%elem_of_cons].
      * left. case_decide; [eauto|done].
      * left. rewrite decide_True by done. eauto.
      * by right.
Qed.

Lemma write_all_lookup_ne es z path :
  path ∉ es.*1 -> write_all es z !! path = z !! path.
Proof.
  revert z. induction es as [|[name e] es IH]; intros z Hnot; [done|].
  change (write_all ((name, e) :: es) z) with (write_all es (<[name := e]> z)).
  cbn [fmap list_fmap fst] in Hnot. apply not_elem_of_cons in Hnot as [Hne Hnot].
  rewrite IH by done. by rewrite lookup_insert_ne.
Qed.

Lemma write_all_kept es z path e :
  NoDup es.*1 -> (path, e) ∈ es -> write_all es z !! path = Some e.
Proof.
  revert z. induction es as [|[name e'] es IH]; intros z Hnd Hin.
  { by apply elem_of_nil in Hin. }
  change (write_all ((name, e') :: es) z) with (write_all es (<[name := e']> z)).
  cbn [fmap list_fmap fst] in Hnd. apply NoDup_cons in Hnd as [Hnot Hnd].
  apply elem_of_cons in Hin as [[= -> ->]|Hin].
  - rewrite write_all_lookup_ne by done. apply lookup_insert_eq.
  - by apply IH.
Qed.

(** ** C7: layout of a maff archive *)

Ltac run_monad :=
  unfold mbind, M_bind, mret, M_ret, modify_info, get_info, throw, catch; simpl.

Lemma lookup_insert_mono (z : gmap string zip_entry) name e path :
  is_Some (z !! path) -> is_Some (<[name := e]> z !! path).
Proof. rewrite lookup_insert. by case_decide. Qed.

Ltac find_entry :=
  solve [ rewrite lookup_insert_eq; eauto | apply lookup_insert_mono; find_entry ].

Section MaffLayout.
Context `{Scrapbook}.

Lemma saveBlob_info b dir name src ae sp s :
  pk_info (saveBlob b dir name src ae sp s).2 = pk_info s.
Proof. unfold saveBlob, saveUrl. by destruct (pk_reports s) as [|[]]. Qed.

Lemma save_archive_info tid src hash suffix d opts s :
  pk_info (save_archive tid src hash suffix d opts s).2 = pk_info s.
Proof.
  unfold save_archive. run_monad.
  destruct (generateAsync _); [done|].
  destruct (target _ _ _ _ _ _) as [[dir name] sp].
  pose proof (saveBlob_info b dir name src false sp s) as Hs.
  run_monad. by destruct (saveBlob _ _ _ _ _ _ _) as [[]].
Qed.

Lemma maff_blob_info ps s :
  saveAs (db_options ps) = "maff" ->
  pk_info (downloadBlob ps s).2
  = zip_file (timeId (db_settings ps))
      (timeId (db_settings ps) +:+ "/" +:+ db_filename ps)
      (db_blob ps) (entry_compression (db_blob ps)) (pk_info s).
Proof.
  intros Hmode. unfold downloadBlob. rewrite Hmode.
  rewrite !bool_decide_eq_false_2 by discriminate.
  by rewrite bool_decide_eq_true_2.
Qed.

Lemma maff_doc_info ps s :
  saveAs (sd_options ps) = "maff" ->
  pk_info (saveDocument ps s).2 = maff_doc_entries ps (pk_info s).
Proof.
  intros Hmode. unfold saveDocument, saveDocument_switch, maff_doc_entries.
  rewrite Hmode. rewrite !bool_decide_eq_false_2 by discriminate.
  rewrite bool_decide_eq_true_2 by done.
  fold (doc_filename ps). run_monad.
  destruct (frameIsMain (sd_settings ps)); simpl; [|done].
  destruct (bool_decide (doc_ext (sd_data ps) = ".xhtml")); simpl.
  - match goal with
    | |- context [save_archive ?a ?b ?c ?d ?e ?f ?s] =>
        pose proof (save_archive_info a b c d e f s) as Hs;
        destruct (save_archive a b c d e f s) as [[]]
    end; exact Hs.
  - match goal with
    | |- context [save_archive ?a ?b ?c ?d ?e ?f ?s] =>
        pose proof (save_archive_info a b c d e f s) as Hs;
        destruct (save_archive a b c d e f s) as [[]]
    end; exact Hs.
Qed.


Lemma prefixed_insert tid z name e :
  prefixed tid z -> prefixed tid (<[tid +:+ "/" +:+ name := e]> z).
Proof.
  intros Hz path. rewrite lookup_insert. case_decide as E; [|apply Hz].
  intros _. subst. rewrite <- sapp_assoc. apply startsWith_app.
Qed.

(** One operation of a maff capture keeps the archive inside the
    folder of the session and removes no entry. *)
Lemma run_op_maff tid op s :
  saveAs (op_options op) = "maff" -> timeId (op_settings op) = tid ->
  let z := session_zip tid (pk_info s) in
  let z' := session_zip tid (pk_info (run_op op s).2) in
  (prefixed tid z -> prefixed tid z')
  /\ (forall path, is_Some (z !! path) -> is_Some (z' !! path)).
Proof.
  intros Hmode Htid. destruct op as [ps|ps]; simpl in *.
  - rewrite maff_blob_info by done. rewrite Htid, session_zip_zip_file.
    split; [apply prefixed_insert|intros ?; apply lookup_insert_mono].
  - rewrite maff_doc_info by done. unfold maff_doc_entries. rewrite Htid.
    destruct (frameIsMain _); [destruct (bool_decide _)|];
      rewrite !session_zip_zip_file;
      (split; [intros ?; by repeat apply prefixed_insert
              |intros ??; by repeat apply lookup_insert_mono]).
Qed.

Lemma run_ops_maff tid ops s :
  Forall (fun op => saveAs (op_options op) = "maff"
                    /\ timeId (op_settings op) = tid) ops ->
  let z := session_zip tid (pk_info s) in
  let z' := session_zip tid (pk_info (run_ops ops s)) in
  (prefixed tid z -> prefixed tid z')
  /\ (forall path, is_Some (z !! path) -> is_Some (z' !! path)).
Proof.
  revert s. induction ops as [|op ops IH]; intros s Hall; simpl; [done|].
  apply Forall_cons in Hall as [[Hmode Htid] Hall].
  destruct (run_op_maff tid op s Hmode Htid) as [Hp Hm].
  destruct (IH (run_op op s).2 Hall) as [Hp' Hm']. split; auto.
Qed.

Lemma run_ops_app ops1 ops2 s :
  run_ops (ops1 ++ ops2) s = run_ops ops2 (run_ops ops1 s).
Proof. revert s. induction ops1; intros s; simpl; auto. Qed.

Lemma rdfContent_fields tid src name d :
  let m := rdfContent tid src name d in
  contains (rdf_field "originalurl" (escapeHtml (Some src))) m
  /\ contains (rdf_field "title" (escapeHtml (title d))) m
  /\ contains (rdf_field "archivetime" (escapeHtml (Some (idToUTCString tid)))) m
  /\ contains (rdf_field "indexfilename" name) m
  /\ contains (rdf_field "charset" "UTF-8") m.
Proof.
  unfold rdfContent, contains. repeat split.
  - eexists rdf_header, _. reflexivity.
  - eexists (rdf_header +:+ rdf_field _ _), _. by rewrite !sapp_assoc.
  - eexists (rdf_header +:+ rdf_field _ _ +:+ rdf_field _ _), _.
    by rewrite !sapp_assoc.
  - eexists (rdf_header +:+ rdf_field _ _ +:+ rdf_field _ _ +:+ rdf_field _ _), _.
    by rewrite !sapp_assoc.
  - eexists (rdf_header +:+ rdf_field _ _ +:+ rdf_field _ _ +:+ rdf_field _ _
             +:+ rdf_field _ _), _.
    by rewrite !sapp_assoc.
Qed.


(** What an operation leaves of the packager's state in maff mode. *)
Lemma maff_op_info op s :
  saveAs (op_options op) = "maff" ->
  pk_info (run_op op s).2
  = foldl (fun ci e => zip_file (timeId (op_settings op)) e.1 (ze_blob e.2)
                         (ze_compression e.2) ci)
      (pk_info s) (maff_writes op).
Proof.
  intros Hmode. destruct op as [ps|ps]; cbn [run_op op_options op_settings] in *.
  - by rewrite maff_blob_info.
  - rewrite maff_doc_info by done. unfold maff_doc_entries, maff_writes.
    destruct (frameIsMain (sd_settings ps)); [|done].
    by destruct (bool_decide (doc_ext (sd_data ps) = ".xhtml")).
Qed.

Lemma run_ops_maff_writes tid ops s :
  Forall (fun op => saveAs (op_options op) = "maff"
                    /\ timeId (op_settings op) = tid) ops ->
  session_zip tid (pk_info (run_ops ops s))
  = write_all (ops ≫= maff_writes) (session_zip tid (pk_info s)).
Proof.
  revert s. induction ops as [|op ops IH]; intros s Hall; [done|].
  apply Forall_cons in Hall as [[Hmode Htid] Hall].
  cbn [run_ops mbind list_bind]. rewrite write_all_app, (IH _ Hall).
  f_equal. rewrite maff_op_info by done. rewrite Htid. apply session_zip_writes.
Qed.

(** The paths an operation of the session [tid] writes: its file
    name, and for a main frame the manifest and the redirect stub. *)
Lemma maff_writes_paths tid op path :
  timeId (op_settings op) = tid ->
  path ∈ (maff_writes op).*1 ->
  path = tid +:+ "/" +:+ op_name op
  \/ path = tid +:+ "/" +:+ "index.rdf"
  \/ path = tid +:+ "/" +:+ "index.html".
Proof.
  intros <-. destruct op as [ps|ps]; cbn [maff_writes op_name op_settings].
  - intros ->%list_elem_of_singleton. by left.
  - cbn [fmap list_fmap fst]. intros [->|Hin]%elem_of_cons; [by left|].
    destruct (frameIsMain (sd_settings ps)); [|by apply elem_of_nil in Hin].
    rewrite fmap_app in Hin. apply elem_of_app in Hin as [Hin|Hin].
    + destruct (bool_decide _); [|by apply elem_of_nil in Hin].
      apply list_elem_of_singleton in Hin as ->. right. by right.
    + apply list_elem_of_singleton in Hin as ->. right. by left.
Qed.

(** A file name that differs from the names of the operations and
    from the two fixed names is not written by them. *)
Lemma maff_writes_later tid ops name :
  Forall (fun op => timeId (op_settings op) = tid) ops ->
  Forall (fun op => op_name op <> name) ops ->
  name <> "index.rdf" -> name <> "index.html" ->
  tid +:+ "/" +:+ name ∉ (ops ≫= maff_writes).*1.
Proof.
  intros Htid Hnames Hrdf Hstub Hin.
  apply list_elem_of_fmap in Hin as ([path e] & Hpath & Hin). simpl in Hpath.
  apply list_elem_of_bind in Hin as (op & Hin & Hop).
  rewrite Forall_forall in Htid, Hnames.
  destruct (maff_writes_paths tid op (tid +:+ "/" +:+ name) (Htid _ Hop)) as [E|[E|E]].
  { apply list_elem_of_fmap. exists (path, e). by split. }
  all: apply (inj (String.app _)) in E; apply (inj (String.app _)) in E.
  - by apply (Hnames _ Hop).
  - done.
  - done.
Qed.

(** C7. A maff capture of the session [tid] runs packager operations
    in maff mode and ends with [saveDocument] for the main frame.
    Starting from an archive whose entries all lie in the folder
    [tid] (an empty one, for instance), afterwards every entry path
    starts with [tid/], and every entry is an old one, the entry of
    an operation under its file name, the manifest or the redirect
    stub.  The entry of every sub-resource and of every framed
    document is there: it holds the blob handed in, compressed when
    its type is compressible and it has 128 bytes or more and stored
    otherwise, respectively the content and type of the document,
    compressed, unless a later operation has the same file name or
    the name is one of [index.rdf] and [index.html].  The index
    document is there, with the content handed in unless its name is
    the one of the manifest or of the redirect stub.  The entry
    [tid/index.rdf] is the manifest: its text is the template of the
    script, with one line each for the original URL, the title, the
    archive time derived from [tid], the index file name and the
    charset. *)
Theorem maff_archive_layout
    (tid : string) (subs : list pk_op) (main : save_params) (s : pk) :
  Forall (fun op => saveAs (op_options op) = "maff"
                    /\ timeId (op_settings op) = tid)
         (subs ++ [PackDocument main]) ->
  frameIsMain (sd_settings main) = true ->
  prefixed tid (session_zip tid (pk_info s)) ->
  let z := session_zip tid (pk_info (run_ops (subs ++ [PackDocument main]) s)) in
  let index := doc_filename main in
  let line := fun name value : string =>
    "    <MAF:" +:+ name +:+ " RDF:resource=" +:+ dq +:+ value +:+ dq +:+ "/>" +:+ nl in
  prefixed tid z
  /\ (forall path, is_Some (z !! path) ->
        is_Some (session_zip tid (pk_info s) !! path)
        \/ (exists op, op ∈ subs ++ [PackDocument main]
                       /\ path = tid +:+ "/" +:+ op_name op)
        \/ path = tid +:+ "/" +:+ "index.rdf"
        \/ path = tid +:+ "/" +:+ "index.html")
  /\ (forall ps, PackBlob ps ∈ subs ->
        is_Some (z !! (tid +:+ "/" +:+ db_filename ps)))
  /\ (forall ps, PackDocument ps ∈ subs ->
        is_Some (z !! (tid +:+ "/" +:+ doc_filename ps)))
  /\ (forall before ps after,
        subs = before ++ PackBlob ps :: after ->
        Forall (fun op => op_name op <> db_filename ps)
               (after ++ [PackDocument main]) ->
        db_filename ps <> "index.rdf" -> db_filename ps <> "index.html" ->
        z !! (tid +:+ "/" +:+ db_filename ps)
        = Some (ZipEntry (db_blob ps)
                  (if compressible (blob_type (db_blob ps))
                      && (128 <=? blob_size (db_blob ps))
                   then DEFLATE else STORE)))
  /\ (forall before ps after,
        subs = before ++ PackDocument ps :: after ->
        Forall (fun op => op_name op <> doc_filename ps)
               (after ++ [PackDocument main]) ->
        doc_filename ps <> "index.rdf" -> doc_filename ps <> "index.html" ->
        z !! (tid +:+ "/" +:+ doc_filename ps)
        = Some (ZipEntry (Blob (mime (sd_data ps)) (content (sd_data ps))) DEFLATE))
  /\ is_Some (z !! (tid +:+ "/" +:+ index))
  /\ (index <> "index.rdf" ->
      (doc_ext (sd_data main) = ".xhtml" -> index <> "index.html") ->
      z !! (tid +:+ "/" +:+ index)
      = Some (ZipEntry (Blob (mime (sd_data main)) (content (sd_data main))) DEFLATE))
  /\ exists m,
      z !! (tid +:+ "/" +:+ "index.rdf")
      = Some (ZipEntry (Blob "application/rdf+xml" m) DEFLATE)
      /\ m = ("<?xml version=" +:+ dq +:+ "1.0" +:+ dq +:+ "?>" +:+ nl +:+
              "<RDF:RDF xmlns:MAF=" +:+ dq +:+ "http://maf.mozdev.org/metadata/rdf#"
                +:+ dq +:+ nl +:+
              "         xmlns:NC=" +:+ dq +:+ "http://home.netscape.com/NC-rdf#"
                +:+ dq +:+ nl +:+
              "         xmlns:RDF=" +:+ dq
                +:+ "http://www.w3.org/1999/02/22-rdf-syntax-ns#" +:+ dq +:+ ">" +:+ nl +:+
              "  <RDF:Description RDF:about=" +:+ dq +:+ "urn:root" +:+ dq +:+ ">" +:+ nl)
             +:+ line "originalurl" (escapeHtml (Some (sd_sourceUrl main)))
             +:+ line "title" (escapeHtml (title (sd_data main)))
             +:+ line "archivetime" (escapeHtml (Some (idToUTCString tid)))
             +:+ line "indexfilename" index
             +:+ line "charset" "UTF-8"
             +:+ ("  </RDF:Description>" +:+ nl +:+ "</RDF:RDF>" +:+ nl)
      /\ contains (line "originalurl" (escapeHtml (Some (sd_sourceUrl main)))) m
      /\ contains (line "title" (escapeHtml (title (sd_data main)))) m
      /\ contains (line "archivetime" (escapeHtml (Some (idToUTCString tid)))) m
      /\ contains (line "indexfilename" index) m
      /\ contains (line "charset" "UTF-8") m.
Proof.
  intros Hall Hmain Hpre z index line.
  pose proof (run_ops_maff tid _ s Hall) as [Hp Hmono]. fold z in Hp, Hmono.
  pose proof (run_ops_maff_writes tid _ s Hall) as Hw. fold z in Hw.
  assert (Forall (fun op => timeId (op_settings op) = tid) (subs ++ [PackDocument main]))
    as Htids.
  { eapply Forall_impl; [exact Hall|]. by intros op [_ ?]. }
  split; [by apply Hp|].
  split.
  { intros path Hpath. rewrite Hw in Hpath.
    apply write_all_lookup in Hpath as [?|Hin]; [by left|right].
    apply list_elem_of_fmap in Hin as ([path' e] & -> & Hin).
    apply list_elem_of_bind in Hin as (op & Hin & Hop).
    rewrite Forall_forall in Htids.
    destruct (maff_writes_paths tid op path' (Htids _ Hop)) as [E|E].
    - apply list_elem_of_fmap. by exists (path', e).
    - left. by exists op.
    - by right. }
  apply Forall_app in Hall as [Hsubs Hlast].
  apply Forall_singleton in Hlast as [Hmode Htid].
  (* an entry written by one of the operations is still there at the end *)
  assert (forall op path,
            op ∈ subs ->
            (forall s0, is_Some (session_zip tid (pk_info (run_op op s0).2) !! path)) ->
            is_Some (z !! path)) as Hkept.
  { intros op path Hop Hown.
    apply list_elem_of_split in Hop as (l1 & l2 & ->).
    unfold z. rewrite <- List.app_assoc, run_ops_app. simpl.
    refine (proj2 (run_ops_maff tid (l2 ++ [PackDocument main]) _ _) path (Hown _)).
    apply Forall_app. split; [|by apply Forall_singleton].
    apply Forall_app in Hsubs as [_ Hsubs]. by apply Forall_cons in Hsubs as [_ ?]. }
  split.
  { intros ps Hps. apply (Hkept _ _ Hps). intros s0. simpl.
    rewrite Forall_forall in Hsubs. destruct (Hsubs _ Hps) as [Hm Ht]. simpl in Hm, Ht.
    rewrite maff_blob_info, Ht, session_zip_zip_file, lookup_insert_eq by done. eauto. }
  split.
  { intros ps Hps. apply (Hkept _ _ Hps). intros s0. simpl.
    rewrite Forall_forall in Hsubs. destruct (Hsubs _ Hps) as [Hm Ht]. simpl in Hm, Ht.
    rewrite maff_doc_info by done. unfold maff_doc_entries. rewrite Ht.
    destruct (frameIsMain (sd_settings ps));
      [destruct (bool_decide (doc_ext (sd_data ps) = ".xhtml"))|];
      rewrite !session_zip_zip_file;
      find_entry. }
  (* an entry no later operation writes over is as it was written *)
  assert (forall before op after name e rest,
            subs = before ++ op :: after ->
            timeId (op_settings op) = tid ->
            maff_writes op = (tid +:+ "/" +:+ name, e) :: rest ->
            tid +:+ "/" +:+ name ∉ rest.*1 ->
            Forall (fun op' => op_name op' <> name) (after ++ [PackDocument main]) ->
            name <> "index.rdf" -> name <> "index.html" ->
            z !! (tid +:+ "/" +:+ name) = Some e) as Hlast.
  { intros before op after name e rest -> Hop Hwrites Hrest Hnames Hrdf Hstub.
    rewrite Hw. rewrite <- List.app_assoc. cbn [app].
    rewrite bind_app, bind_cons, Hwrites. cbn [app].
    rewrite write_all_app.
    change (write_all ((?p, ?e0) :: ?es) ?z0) with (write_all es (<[p := e0]> z0)).
    rewrite write_all_lookup_ne; [apply lookup_insert_eq|].
    rewrite fmap_app. intros [?|Hin]%elem_of_app; [done|].
    revert Hin. apply maff_writes_later; try done.
    rewrite <- List.app_assoc in Htids. apply Forall_app in Htids as [_ Htids].
    by apply Forall_cons in Htids as [_ ?]. }
  split.
  { intros before ps after Hsplit Hnames Hrdf Hstub.
    apply (Hlast before (PackBlob ps) after _ _ [] Hsplit); try done.
    - rewrite Forall_forall in Hsubs. rewrite Hsplit in Hsubs.
      apply (Hsubs (PackBlob ps)). apply elem_of_app. right. apply list_elem_of_here.
    - cbn [maff_writes].
      replace (timeId (db_settings ps)) with tid; [done|].
      rewrite Forall_forall in Hsubs. rewrite Hsplit in Hsubs. symmetry.
      apply (Hsubs (PackBlob ps)). apply elem_of_app. right. apply list_elem_of_here.
    - apply not_elem_of_nil. }
  split.
  { intros before ps after Hsplit Hnames Hrdf Hstub.
    assert (timeId (sd_settings ps) = tid) as Hps.
    { rewrite Forall_forall in Hsubs. rewrite Hsplit in Hsubs.
      apply (Hsubs (PackDocument ps)). apply elem_of_app. right. apply list_elem_of_here. }
    eapply (Hlast before (PackDocument ps) after); try done.
    - cbn [maff_writes]. rewrite Hps. reflexivity.
    - destruct (frameIsMain (sd_settings ps)); [|apply not_elem_of_nil].
      rewrite fmap_app. intros [Hin|Hin]%elem_of_app.
      + destruct (bool_decide _); [|by apply elem_of_nil in Hin].
        apply list_elem_of_singleton in Hin.
        apply (inj (String.app _)) in Hin. apply (inj (String.app _)) in Hin. done.
      + apply list_elem_of_singleton in Hin.
        apply (inj (String.app _)) in Hin. apply (inj (String.app _)) in Hin. done. }
  (* the last operation: the main document *)
  simpl in Hmode, Htid.
  assert (z = session_zip tid (maff_doc_entries main (pk_info (run_ops subs s)))) as Hz.
  { unfold z. rewrite run_ops_app. simpl. by rewrite maff_doc_info. }
  unfold maff_doc_entries in Hz. rewrite Htid, Hmain in Hz. fold index in Hz.
  split.
  { rewrite Hz. destruct (bool_decide _); rewrite !session_zip_zip_file;
      find_entry. }
  split.
  { intros Hrdf Hstub. rewrite Hz.
    assert (tid +:+ "/" +:+ "index.rdf" <> tid +:+ "/" +:+ index) as Hne1.
    { intros E. apply (inj (String.app _)) in E. apply (inj (String.app _)) in E.
      congruence. }
    destruct (bool_decide (doc_ext (sd_data main) = ".xhtml")) eqn:Hx;
      rewrite !session_zip_zip_file.
    - apply bool_decide_eq_true in Hx.
      rewrite lookup_insert_ne by done. rewrite lookup_insert_ne.
      + by rewrite lookup_insert_eq.
      + intros E. apply (inj (String.app _)) in E. apply (inj (String.app _)) in E.
        by apply Hstub.
    - rewrite lookup_insert_ne by done. by rewrite lookup_insert_eq. }
  eexists. split.
  { rewrite Hz. rewrite session_zip_zip_file. apply lookup_insert_eq. }
  split; [reflexivity|].
  apply rdfContent_fields.
Qed.

End MaffLayout.

(** ** C5: downloads of a folder-mode capture *)

Section FolderMode.
Context `{Scrapbook}.

Lemma folder_of_nonempty o tid : folder_of o tid <> "".
Proof. unfold folder_of. by destruct (scrapbookFolder o). Qed.

Lemma saveBlob_downloads b dir name src ae s :
  dir <> "" ->
  pk_downloads (saveBlob b dir name src ae false s).2
  = pk_downloads s ++ [Download b (dir +:+ "/" +:+ name) false src ae].
Proof.
  intros Hdir. unfold saveBlob, saveUrl.
  assert (match dir with EmptyString => EmptyString | _ => dir +:+ "/" end +:+ name
          = dir +:+ "/" +:+ name) as ->.
  { destruct dir; [done|]. by rewrite sapp_assoc. }
  by destruct (pk_reports s) as [|[]].
Qed.

Lemma saveBlob_reports b dir name src ae sp s :
  pk_reports (saveBlob b dir name src ae sp s).2 = tail (pk_reports s).
Proof. unfold saveBlob, saveUrl. by destruct (pk_reports s) as [|[]]. Qed.

Lemma saveBlob_completes b dir name src ae sp s :
  (exists f, (saveBlob b dir name src ae sp s).1 = Ok f)
  <-> exists path, head (pk_reports s) = Some (DlComplete path).
Proof.
  unfold saveBlob, saveUrl. destruct (pk_reports s) as [|[]]; simpl;
    split; intros [? ?]; try done; eauto.
Qed.

(** C5, as the script implements it. In folder mode:
    - every blob persisted by [downloadBlob] is one download with
      auto-erase set;
    - a framed document saved by [saveDocument] is one download with
      auto-erase set;
    - a main document that is not XHTML is one download with
      auto-erase not set;
    - a main document of type [application/xhtml+xml] is downloaded
      as its [.xhtml] file with auto-erase set and, once that
      download has completed, the redirect stub [index.html] is
      downloaded with auto-erase not set; if the first download does
      not complete, the stub is not downloaded. *)
Theorem folder_mode_auto_erase (bs : blob_params) (ps : save_params) (s : pk) :
  folder_mode (db_options bs) ->
  folder_mode (sd_options ps) ->
  let dir := folder_of (sd_options ps) (timeId (sd_settings ps)) in
  let d := sd_data ps in
  let document ae :=
    Download (Blob (mime d) (content d)) (dir +:+ "/" +:+ doc_filename ps)
             false (sd_sourceUrl ps) ae in
  let stub :=
    Download (Blob "text/html" redirect_stub) (dir +:+ "/" +:+ "index.html")
             false (sd_sourceUrl ps) false in
  pk_downloads (downloadBlob bs s).2
    = pk_downloads s
      ++ [Download (db_blob bs)
            (folder_of (db_options bs) (timeId (db_settings bs)) +:+ "/"
             +:+ db_filename bs)
            false (db_sourceUrl bs) true]
  /\ (frameIsMain (sd_settings ps) = false ->
      pk_downloads (saveDocument ps s).2 = pk_downloads s ++ [document true])
  /\ (frameIsMain (sd_settings ps) = true -> mime d <> "application/xhtml+xml" ->
      pk_downloads (saveDocument ps s).2 = pk_downloads s ++ [document false])
  /\ (frameIsMain (sd_settings ps) = true -> mime d = "application/xhtml+xml" ->
      pk_downloads (saveDocument ps s).2
      = match pk_reports s with
        | DlComplete _ :: _ => pk_downloads s ++ [document true; stub]
        | _ => pk_downloads s ++ [document true]
        end).
Proof.
  intros (Hb1 & Hb2 & Hb3) (Hs1 & Hs2 & Hs3) dir d document stub.
  pose proof (folder_of_nonempty (db_options bs) (timeId (db_settings bs))) as Hbdir.
  pose proof (folder_of_nonempty (sd_options ps) (timeId (sd_settings ps))) as Hsdir.
  fold dir in Hsdir.
  split.
  { unfold downloadBlob. rewrite !bool_decide_eq_false_2 by done.
    fold (folder_of (db_options bs) (timeId (db_settings bs))).
    unfold mbind, M_bind, mret, M_ret.
    rewrite <- (saveBlob_downloads _ _ _ _ _ s Hbdir).
    by destruct (saveBlob _ _ _ _ _ _ s) as [[]]. }
  unfold saveDocument, saveDocument_switch.
  rewrite !bool_decide_eq_false_2 by done.
  fold (folder_of (sd_options ps) (timeId (sd_settings ps))). fold dir.
  fold (doc_filename ps). fold d.
  assert (bool_decide (doc_ext d = ".xhtml")
          = bool_decide (mime d = "application/xhtml+xml")) as ->.
  { unfold doc_ext. by destruct (bool_decide (mime d = "application/xhtml+xml")). }
  unfold mbind, M_bind, mret, M_ret, catch, document.
  repeat split.
  - intros ->. cbn [negb orb andb].
    rewrite <- (saveBlob_downloads _ _ _ _ _ s Hsdir).
    by destruct (saveBlob _ _ _ _ _ _ s) as [[]].
  - intros -> Hmime. rewrite (bool_decide_eq_false_2 (mime d = _)) by done.
    cbn [negb orb andb].
    rewrite <- (saveBlob_downloads _ _ _ _ _ s Hsdir).
    by destruct (saveBlob _ _ _ _ _ _ s) as [[]].
  - intros -> Hmime. rewrite (bool_decide_eq_true_2 (mime d = _)) by done.
    cbn [negb orb andb].
    pose proof (saveBlob_downloads (Blob (mime d) (content d)) dir (doc_filename ps)
                  (sd_sourceUrl ps) true s Hsdir) as Hd.
    pose proof (saveBlob_completes (Blob (mime d) (content d)) dir (doc_filename ps)
                  (sd_sourceUrl ps) true false s) as Hc.
    destruct (saveBlob (Blob (mime d) (content d)) dir (doc_filename ps)
                (sd_sourceUrl ps) true false s) as [[f|e|] s1] eqn:E1;
      cbn [fst snd] in *.
    + destruct (proj1 Hc (ex_intro _ f eq_refl)) as [path Hpath].
      destruct (pk_reports s) as [|[] rs]; simplify_eq/=.
      pose proof (saveBlob_downloads (Blob "text/html" redirect_stub) dir "index.html"
                    (sd_sourceUrl ps) false s1 Hsdir) as Hd2.
      destruct (saveBlob (Blob "text/html" redirect_stub) dir "index.html"
                  (sd_sourceUrl ps) false false s1) as [[] s2];
        cbv beta iota; cbn [fst snd] in *;
        rewrite Hd2, Hd, <- List.app_assoc; reflexivity.
    + destruct (pk_reports s) as [|[] rs]; try done.
      exfalso. destruct (proj2 Hc (ex_intro _ path eq_refl)). done.
    + destruct (pk_reports s) as [|[] rs]; try done.
      exfalso. destruct (proj2 Hc (ex_intro _ path eq_refl)). done.
Qed.

End FolderMode.

(** C5 as the specification words it fails: for a main document of
    type [application/xhtml+xml] in folder mode the two downloads carry
    the flags the other way round, [index.xhtml] with auto-erase set
    and the stub [index.html] with auto-erase not set. *)
Lemma folder_xhtml_auto_erase_counterexample :
  let ps := SaveParams
              (DocData "application/xhtml+xml" (Some "UTF-8") "<html/>" (Some "Page"))
              "index" "http://example.com/page"
              (Settings "20230101000000000" true (Some "index"))
              (Options "folder" true "WebScrapBook" false false false) in
  let dir := "WebScrapBook/data/20230101000000000" in
  let s := Pk ∅ [] [DlComplete (dir +:+ "/index.xhtml");
                    DlComplete (dir +:+ "/index.html")] in
  pk_downloads (@saveDocument sample_helpers ps s).2
  = [ Download (Blob "application/xhtml+xml" "<html/>") (dir +:+ "/index.xhtml")
        false "http://example.com/page" true;
      Download (Blob "text/html" redirect_stub) (dir +:+ "/index.html")
        false "http://example.com/page" false ].
Proof. vm_compute. reflexivity. Qed.

(** ** Access deduplicator: how the shared state evolves *)

Section SessionFacts.

Lemma get_session_insert t t' s ci :
  get_session t (<[t' := s]> ci) = if decide (t' = t) then s else get_session t ci.
Proof. unfold get_session. rewrite lookup_insert. by case_decide. Qed.

Lemma accessMap_ensure t t' ci :
  session_accessMap t (ensure_session t' ci) = session_accessMap t ci.
Proof.
  unfold session_accessMap, ensure_session.
  destruct (ci !! t') eqn:E; [done|]. rewrite get_session_insert.
  case_decide; [subst|done]. unfold get_session. by rewrite E.
Qed.

Lemma accessMap_set_files t t' f ci :
  session_accessMap t (set_files t' f ci) = session_accessMap t ci.
Proof.
  unfold session_accessMap, set_files. rewrite get_session_insert.
  case_decide; by subst.
Qed.

Lemma accessMap_set_accessMap t t' m ci :
  session_accessMap t (set_accessMap t' m ci)
  = if decide (t' = t) then m else session_accessMap t ci.
Proof.
  unfold session_accessMap, set_accessMap. rewrite get_session_insert.
  by case_decide.
Qed.

Lemma accessMap_set_same t ci :
  session_accessMap t (set_accessMap t (session_accessMap t ci) ci)
  = session_accessMap t ci.
Proof. rewrite accessMap_set_accessMap. by rewrite decide_True. Qed.

Lemma accessMap_register t t' k p ci :
  session_accessMap t (register t' k p ci)
  = if decide (t' = t) then <[k := p]> (session_accessMap t ci)
    else session_accessMap t ci.
Proof.
  unfold register. rewrite accessMap_set_accessMap. case_decide; by subst.
Qed.

(** Registering a token that was free keeps every registration. *)
Lemma register_mono t' k p ci t k' q :
  session_accessMap t' ci !! k = None ->
  session_accessMap t ci !! k' = Some q ->
  session_accessMap t (register t' k p ci) !! k' = Some q.
Proof.
  intros Hfree Hq. rewrite accessMap_register. case_decide; [subst|done].
  rewrite lookup_insert_ne; [done|]. intros ->. congruence.
Qed.

End SessionFacts.

Section AccessFacts.
Context `{Scrapbook}.

Lemma getUniqueFilename_accessMap t' name ci r ci' t :
  getUniqueFilename t' name ci = Some (r, ci') ->
  session_accessMap t ci' = session_accessMap t ci.
Proof.
  unfold getUniqueFilename.
  destruct (filenameParts _) as [base ext].
  destruct (uniquify _ _ _ _ _ _); [|done].
  intros [= _ <-]. by rewrite accessMap_set_files, accessMap_ensure.
Qed.

Lemma evolves_refl a : evolves a a.
Proof. by repeat split. Qed.

Lemma evolves_trans a b c : evolves a b -> evolves b c -> evolves a c.
Proof.
  intros (? & ? & ? & Hf & Hq) (? & ? & ? & Hf' & Hq').
  repeat split; try congruence; try tauto; eauto.
Qed.

Lemma grows_refl w : grows w w.
Proof. split; [done|]. intros p a ?. exists a. split; [done|apply evolves_refl]. Qed.

Lemma grows_trans w1 w2 w3 : grows w1 w2 -> grows w2 w3 -> grows w1 w3.
Proof.
  intros [Hm Hp] [Hm' Hp']. split; [eauto|].
  intros p a Ha. destruct (Hp p a Ha) as (a' & Ha' & He).
  destruct (Hp' p a' Ha') as (a'' & Ha'' & He').
  exists a''. split; [done|]. by eapply evolves_trans.
Qed.

Lemma evolves_settle st a : evolves a (settle st a).
Proof. unfold settle. destruct (a_state a) eqn:E; repeat split; simpl; try done; congruence. Qed.

Lemma evolves_set_xhr_state st a : evolves a (set_xhr_state st a).
Proof.
  repeat split; simpl; try done; destruct (a_xhr a); simpl; try done;
    intros [? ?]; done.
Qed.

Lemma evolves_set_filename f a : evolves a (set_filename f a).
Proof. by repeat split. Qed.

Lemma evolves_set_headers h a : evolves a (set_headers h a).
Proof. by repeat split. Qed.

(** Replacing an access by one it evolves into. *)
Lemma grows_update w ci' p a a' :
  promises w !! p = Some a -> evolves a a' ->
  (forall t k q, session_accessMap t (captureInfo w) !! k = Some q ->
                 session_accessMap t ci' !! k = Some q) ->
  grows w (World ci' (<[p := a']> (promises w))).
Proof.
  intros Ha He Hm. split; [done|]. intros p' b Hb. simpl.
  destruct (decide (p = p')) as [->|Hne].
  - exists a'. rewrite list_lookup_insert_eq by (by eapply lookup_lt_Some).
    split; [done|]. congruence.
  - exists b. rewrite list_lookup_insert_ne by done. split; [done|apply evolves_refl].
Qed.

End AccessFacts.

#[local] Arguments Js.startsWith : simpl never.

Section RequestFacts.
Context `{Scrapbook}.

(** The executors always return; they keep the access map, start a
    transport request in state [Opened] with a pending promise,
    except [downloadFile] on a data URI, which starts none. *)
Lemma executor_returns op ps ci :
  exists st x f ci',
    match op with
    | OpDownloadFile => downloadFile_executor
    | OpCaptureUrl => captureUrl_executor
    end ps ci = Some (st, x, f, ci')
    /\ (forall t, session_accessMap t ci' = session_accessMap t ci)
    /\ (x = None <->
        op = OpDownloadFile
        /\ Js.startsWith "data:" (splitUrlByAnchor (p_url ps)).1 = true)
    /\ (forall x', x = Some x' -> st = Pending /\ x_state x' = Opened)
    /\ (op = OpDownloadFile ->
        Js.startsWith "data:" (splitUrlByAnchor (p_url ps)).1 = true ->
        saveDataUriAsFile (p_options ps) = true ->
        saveAs (p_options ps) <> "singleHtml" ->
        dataUriToFile (splitUrlByAnchor (p_url ps)).1 = None ->
        st = Fulfilled (errorRecord (p_url ps) (p_options ps)
                          (Error "Malformed data URL."))).
Proof.
  destruct op.
  - unfold downloadFile_executor.
    destruct (Js.startsWith "data:" _) eqn:Hdata.
    + destruct (saveDataUriAsFile (p_options ps)) eqn:Hsave; cbn [andb].
      * case_bool_decide as Hmode; cbn [negb].
        { eexists _, _, _, _. split; [reflexivity|].
          split; [done|]. split; [done|]. split; [done|]. intros; congruence. }
        destruct (dataUriToFile _) as [[name file]|] eqn:Hfile.
        { destruct (getUniqueFilename_allocates (timeId (p_settings ps))
                      (Some (validateFilename name (saveAsciiFilename (p_options ps))))
                      ci) as (r & ci' & E & _).
          rewrite E. eexists _, _, _, _. split; [reflexivity|].
          split; [intros t; by eapply getUniqueFilename_accessMap|].
          split; [done|]. split; [done|]. intros; congruence. }
        { eexists _, _, _, _. split; [reflexivity|].
          split; [done|]. split; [done|]. split; [done|]. done. }
      * eexists _, _, _, _. split; [reflexivity|].
        split; [done|]. split; [done|]. split; [done|]. intros; congruence.
    + eexists _, _, _, _. split; [reflexivity|].
      split; [done|]. split; [split; [done|by intros [_ ?]]|].
      split; [by intros ? [= <-]|]. intros; congruence.
  - eexists _, _, _, _. split; [reflexivity|].
    split; [done|]. split; [split; [done|by intros [? _]]|].
    split; [by intros ? [= <-]|]. intros; congruence.
Qed.

(** A request whose token is registered returns the registered
    promise and starts nothing. *)
Lemma request_hit op ps w q :
  session_accessMap (timeId (p_settings ps)) (captureInfo w)
    !! getAccessToken (splitUrlByAnchor (p_url ps)).1 (method_of op ps) = Some q ->
  exists ci',
    request op ps w = Some (q, World ci' (promises w))
    /\ forall t, session_accessMap t ci' = session_accessMap t (captureInfo w).
Proof.
  intros Hq. unfold request. rewrite accessMap_ensure, Hq.
  eexists. split; [reflexivity|]. intros t.
  rewrite accessMap_set_accessMap, accessMap_ensure. case_decide; by subst.
Qed.

(** A request whose token is free creates a promise, registers it
    under the token and returns it. *)
Lemma request_miss op ps w :
  let tid := timeId (p_settings ps) in
  let tok := getAccessToken (splitUrlByAnchor (p_url ps)).1 (method_of op ps) in
  session_accessMap tid (captureInfo w) !! tok = None ->
  exists st x f ci',
    request op ps w
    = Some (length (promises w),
            World ci' (promises w ++ [Access op ps st x f no_headers]))
    /\ (forall t, session_accessMap t ci'
                 = if decide (tid = t)
                   then <[tok := length (promises w)]>
                          (session_accessMap t (captureInfo w))
                   else session_accessMap t (captureInfo w))
    /\ (x = None <->
        op = OpDownloadFile
        /\ Js.startsWith "data:" (splitUrlByAnchor (p_url ps)).1 = true)
    /\ (forall x', x = Some x' -> st = Pending /\ x_state x' = Opened)
    /\ (op = OpDownloadFile ->
        Js.startsWith "data:" (splitUrlByAnchor (p_url ps)).1 = true ->
        saveDataUriAsFile (p_options ps) = true ->
        saveAs (p_options ps) <> "singleHtml" ->
        dataUriToFile (splitUrlByAnchor (p_url ps)).1 = None ->
        st = Fulfilled (errorRecord (p_url ps) (p_options ps)
                          (Error "Malformed data URL."))).
Proof.
  intros tid tok Hfree. unfold request. fold tid. fold tok.
  rewrite accessMap_ensure, Hfree.
  set (ci0 := set_accessMap tid _ _).
  destruct (executor_returns op ps ci0) as (st & x & f & ci' & E & Hm & Hx & Hst & Hbad).
  rewrite E. eexists st, x, f, _. split; [reflexivity|].
  split; [|done].
  intros t. rewrite accessMap_register, Hm. unfold ci0.
  rewrite accessMap_set_accessMap, accessMap_ensure.
  case_decide; [subst|done]. done.
Qed.

End RequestFacts.

Section StepFacts.
Context `{Scrapbook}.

Lemma determine_filename_returns ps h ci :
  exists f ci',
    determine_filename ps h ci = Some (f, ci')
    /\ forall t, session_accessMap t ci' = session_accessMap t ci.
Proof.
  unfold determine_filename.
  set (name := validateFilename _ _).
  case_bool_decide; [by eexists _, _|].
  destruct (getUniqueFilename_allocates (timeId (p_settings ps)) (Some name) ci)
    as (r & ci' & E & _).
  exists r, ci'. split; [done|]. intros t. by eapply getUniqueFilename_accessMap.
Qed.

Lemma request_grows op ps w q w' :
  request op ps w = Some (q, w') -> grows w w'.
Proof.
  intros E.
  destruct (session_accessMap (timeId (p_settings ps)) (captureInfo w)
              !! getAccessToken (splitUrlByAnchor (p_url ps)).1 (method_of op ps))
    as [q'|] eqn:Hq.
  - destruct (request_hit op ps w q' Hq) as (ci' & E' & Hm).
    rewrite E' in E. injection E as <- <-. split; cbn [captureInfo promises].
    + intros t k p. by rewrite Hm.
    + intros p a Ha. exists a. split; [done|apply evolves_refl].
  - destruct (request_miss op ps w Hq) as (st & x & f & ci' & E' & Hm & _).
    rewrite E' in E. injection E as <- <-. split; cbn [captureInfo promises].
    + intros t k p Hp. rewrite Hm. case_decide; [subst|done].
      rewrite lookup_insert_ne; [done|]. intros <-. congruence.
    + intros p a Ha. exists a. split; [|apply evolves_refl].
      by apply lookup_app_l_Some.
Qed.

Lemma onreadystatechange_grows p resp w w' :
  onreadystatechange p resp w = Some w' -> grows w w'.
Proof.
  unfold onreadystatechange.
  destruct (promises w !! p) as [a|] eqn:Ha; [|done]. simpl.
  destruct (a_xhr a) as [x|] eqn:Hx; [|done]. simpl.
  case_bool_decide as Hopen; [|done]. simpl.
  set (ps := a_params a). set (tid := timeId (p_settings ps)).
  set (tok := getAccessToken _ _).
  destruct (negb (bool_decide _)) eqn:Hred.
  - destruct (session_accessMap tid (captureInfo w) !! tok) as [q|] eqn:Hq.
    + intros [= <-]. eapply grows_update; [exact Ha| |done].
      eapply evolves_trans; [apply evolves_settle|apply evolves_set_xhr_state].
    + set (a' := set_xhr_state _ _).
      assert (evolves a a') as He.
      { eapply evolves_trans; [apply evolves_set_headers|apply evolves_set_xhr_state]. }
      assert (forall t k q, session_accessMap t (captureInfo w) !! k = Some q ->
                session_accessMap t (register tid tok p (captureInfo w)) !! k = Some q)
        as Hm by (intros; by apply register_mono).
      destruct (a_op a) eqn:Hop.
      * destruct (determine_filename_returns ps (get_headers resp (a_headers a))
                    (register tid tok p (captureInfo w))) as (f & ci' & -> & Hm').
        cbv beta iota. intros [= <-]. eapply grows_update; [exact Ha| |].
        -- eapply evolves_trans; [exact He|apply evolves_set_filename].
        -- intros. rewrite Hm'. by apply Hm.
      * intros [= <-]. by eapply grows_update.
  - set (a' := set_xhr_state _ _).
    assert (evolves a a') as He.
    { eapply evolves_trans; [apply evolves_set_headers|apply evolves_set_xhr_state]. }
    destruct (a_op a) eqn:Hop.
    * destruct (determine_filename_returns ps (get_headers resp (a_headers a))
                  (captureInfo w)) as (f & ci' & -> & Hm').
      cbv beta iota. intros [= <-]. eapply grows_update; [exact Ha| |].
      -- eapply evolves_trans; [exact He|apply evolves_set_filename].
      -- intros. by rewrite Hm'.
    * intros [= <-]. by eapply grows_update.
Qed.

Lemma onload_grows p w w' : onload p w = Some w' -> grows w w'.
Proof.
  unfold onload.
  destruct (promises w !! p) as [a|] eqn:Ha; [|done]. simpl.
  destruct (a_xhr a) as [x|] eqn:Hx; [|done]. simpl.
  case_bool_decide; [|done]. simpl. intros [= <-].
  eapply grows_update; [exact Ha| |done].
  eapply evolves_trans; [apply evolves_settle|apply evolves_set_xhr_state].
Qed.

Lemma onerror_grows p ex w w' : onerror p ex w = Some w' -> grows w w'.
Proof.
  unfold onerror.
  destruct (promises w !! p) as [a|] eqn:Ha; [|done]. simpl.
  destruct (a_xhr a) as [x|] eqn:Hx; [|done]. simpl.
  destruct (negb _); [done|]. intros [= <-].
  eapply grows_update; [exact Ha| |done].
  eapply evolves_trans; [apply evolves_settle|apply evolves_set_xhr_state].
Qed.

Lemma packaged_grows p o w w' : packaged p o w = Some w' -> grows w w'.
Proof.
  unfold packaged.
  destruct (promises w !! p) as [a|] eqn:Ha; [|done]. simpl.
  destruct (a_state a) eqn:Hst; try done. intros [= <-].
  eapply grows_update; [exact Ha| |done].
  repeat split; simpl; try done; congruence.
Qed.

Lemma step_grows w ev o w' : step w ev = Some (o, w') -> grows w w'.
Proof.
  destruct ev; simpl; intros E; apply fmap_Some in E as (r & E & Hr).
  - destruct r. injection Hr as -> ->. by eapply request_grows.
  - destruct r. injection Hr as -> ->. by eapply request_grows.
  - injection Hr as -> ->. by eapply onreadystatechange_grows.
  - injection Hr as -> ->. by eapply onload_grows.
  - injection Hr as -> ->. by eapply onerror_grows.
  - injection Hr as -> ->. by eapply packaged_grows.
Qed.

Lemma run_grows evs w outs w' : run w evs = Some (outs, w') -> grows w w'.
Proof.
  revert w outs. induction evs as [|ev evs IH]; intros w outs; simpl.
  - intros [= _ <-]. apply grows_refl.
  - destruct (step w ev) as [[o w1]|] eqn:E; [|done].
    destruct (run w1 evs) as [[os w2]|] eqn:E'; [|done].
    intros [= _ <-]. eapply grows_trans; [by eapply step_grows|by eapply IH].
Qed.

End StepFacts.

(** ** C1: one access per request key *)

Section Deduplication.
Context `{Scrapbook}.

Lemma key_token op ps op' ps' :
  request_key op' ps' = request_key op ps ->
  timeId (p_settings ps') = timeId (p_settings ps)
  /\ getAccessToken (splitUrlByAnchor (p_url ps')).1 (method_of op' ps')
     = getAccessToken (splitUrlByAnchor (p_url ps)).1 (method_of op ps).
Proof.
  unfold request_key, getAccessToken. intros [= -> -> ->]. done.
Qed.

(** Counting is blind to the way accesses evolve. *)
Lemma counts_evolves op ps l l' :
  Forall2 evolves l l' ->
  length (filter (fun a => same_key op ps a = true) l')
  = length (filter (fun a => same_key op ps a = true) l)
  /\ length (omap a_xhr (filter (fun a => same_key op ps a = true) l'))
     = length (omap a_xhr (filter (fun a => same_key op ps a = true) l)).
Proof.
  induction 1 as [|a a' l l' (Hop & Hps & Hx & _) _ [IH1 IH2]]; [done|].
  assert (same_key op ps a' = same_key op ps a) as Hk.
  { unfold same_key. by rewrite Hop, Hps. }
  destruct (same_key op ps a) eqn:Hs.
  - rewrite !filter_cons_True by done. simpl. rewrite IH1. split; [done|].
    destruct (a_xhr a) as [x|] eqn:Ea, (a_xhr a') as [x'|] eqn:Ea'.
    + change (S (length (omap a_xhr (filter (fun a => same_key op ps a = true) l')))
              = S (length (omap a_xhr (filter (fun a => same_key op ps a = true) l)))).
      by rewrite IH2.
    + exfalso. apply (is_Some_None (A:=xhr)). apply Hx. eauto.
    + exfalso. apply (is_Some_None (A:=xhr)). apply Hx. eauto.
    + exact IH2.
  - rewrite !filter_cons_False by congruence. done.
Qed.

Lemma grows_Forall2 w w' :
  grows w w' -> length (promises w') = length (promises w) ->
  Forall2 evolves (promises w) (promises w').
Proof.
  intros [_ Hp] Hlen. apply Forall2_same_length_lookup_2; [done|].
  intros i a a' Ha Ha'. destruct (Hp i a Ha) as (b & Hb & He). congruence.
Qed.

Lemma counts_grows op ps w w' :
  grows w w' -> length (promises w') = length (promises w) ->
  length (accesses_of op ps w') = length (accesses_of op ps w)
  /\ length (fetches_of op ps w') = length (fetches_of op ps w).
Proof. intros Hg Hlen. apply counts_evolves. by apply grows_Forall2. Qed.

(** An event that is no call creates no promise and returns none. *)
Lemma step_no_call w ev o w' :
  step w ev = Some (o, w') -> call_of ev = None ->
  o = None /\ length (promises w') = length (promises w).
Proof.
  destruct ev as [| |p resp|p|p ex|p r]; simpl; try done;
    intros E _; apply fmap_Some in E as (w1 & E & [= -> ->]); split; try done.
  - unfold onreadystatechange in E.
    destruct (promises w !! p) as [a|]; [|done]. simpl in E.
    destruct (a_xhr a); [|done]. simpl in E.
    destruct (negb _); [done|].
    destruct (if negb _ then _ else _).
    + injection E as <-. simpl. apply length_insert.
    + destruct (a_op a).
      * destruct (determine_filename _ _ _) as [[]|]; [|done].
        injection E as <-. simpl. apply length_insert.
      * injection E as <-. simpl. apply length_insert.
  - unfold onload in E.
    destruct (promises w !! p) as [a|]; [|done]. simpl in E.
    destruct (a_xhr a); [|done]. simpl in E.
    destruct (negb _); [done|]. injection E as <-. simpl. apply length_insert.
  - unfold onerror in E.
    destruct (promises w !! p) as [a|]; [|done]. simpl in E.
    destruct (a_xhr a); [|done]. simpl in E.
    destruct (negb _); [done|]. injection E as <-. simpl. apply length_insert.
  - unfold packaged in E.
    destruct (promises w !! p) as [a|]; [|done]. simpl in E.
    destruct (a_state a); try done. injection E as <-. simpl. apply length_insert.
Qed.

Lemma step_call w ev op ps :
  call_of ev = Some (op, ps) ->
  step w ev = (fun '(p, w) => (Some p, w)) <$> request op ps w.
Proof. destruct ev; simpl; try done; by intros [= <- <-]. Qed.

(** Once the token of a key is registered, a step creates no access
    for the key, and a call for the key returns the registered
    promise. *)
Lemma step_registered op ps q w ev o w' :
  session_accessMap (timeId (p_settings ps)) (captureInfo w)
    !! getAccessToken (splitUrlByAnchor (p_url ps)).1 (method_of op ps) = Some q ->
  step w ev = Some (o, w') ->
  (forall op' ps', call_of ev = Some (op', ps') ->
     request_key op' ps' = request_key op ps -> o = Some q)
  /\ length (accesses_of op ps w') = length (accesses_of op ps w)
  /\ length (fetches_of op ps w') = length (fetches_of op ps w).
Proof.
  intros Hq E. pose proof (step_grows _ _ _ _ E) as Hg.
  destruct (call_of ev) as [[op' ps']|] eqn:Hcall.
  2:{ destruct (step_no_call _ _ _ _ E Hcall) as [-> Hlen].
      split; [done|]. by apply counts_grows. }
  rewrite (step_call _ _ _ _ Hcall) in E.
  apply fmap_Some in E as ([p w1] & E & [= -> ->]).
  destruct (session_accessMap (timeId (p_settings ps')) (captureInfo w)
              !! getAccessToken (splitUrlByAnchor (p_url ps')).1 (method_of op' ps'))
    as [q'|] eqn:Hq'.
  - destruct (request_hit op' ps' w q' Hq') as (ci' & E' & _).
    rewrite E' in E. injection E as <- <-. split.
    + intros ? ? [= <- <-] Hkey. apply key_token in Hkey as [Ht Hk].
      rewrite Ht, Hk in Hq'. congruence.
    + by apply counts_grows.
  - destruct (request_miss op' ps' w Hq') as (st & x & f & ci' & E' & _).
    rewrite E' in E. injection E as <- <-.
    assert (request_key op' ps' <> request_key op ps) as Hne.
    { intros Hkey. apply key_token in Hkey as [Ht Hk].
      rewrite Ht, Hk in Hq'. congruence. }
    split; [by intros ? ? [= <- <-] ?|].
    unfold fetches_of, accesses_of. simpl. rewrite filter_app, filter_cons_False.
    + by rewrite filter_nil, app_nil_r.
    + unfold same_key. simpl. by rewrite bool_decide_eq_false_2.
Qed.

Lemma run_registered op ps q w evs outs w' :
  session_accessMap (timeId (p_settings ps)) (captureInfo w)
    !! getAccessToken (splitUrlByAnchor (p_url ps)).1 (method_of op ps) = Some q ->
  run w evs = Some (outs, w') ->
  (forall i ev op' ps',
     evs !! i = Some ev -> call_of ev = Some (op', ps') ->
     request_key op' ps' = request_key op ps -> outs !! i = Some (Some q))
  /\ length (accesses_of op ps w') = length (accesses_of op ps w)
  /\ length (fetches_of op ps w') = length (fetches_of op ps w).
Proof.
  revert w outs. induction evs as [|ev evs IH]; intros w outs Hq; simpl.
  - intros [= <- <-]. split; [|done]. intros i ? ? ? Hi. by rewrite lookup_nil in Hi.
  - destruct (step w ev) as [[o w1]|] eqn:E; [|done].
    destruct (run w1 evs) as [[os w2]|] eqn:E'; [|done].
    intros [= <- <-].
    destruct (step_registered op ps q w ev o w1 Hq E) as (Hcall & Hn1 & Hn2).
    destruct (step_grows _ _ _ _ E) as [Hm _].
    destruct (IH w1 os (Hm _ _ _ Hq) E') as (Hcalls & Hn1' & Hn2').
    split; [|split; congruence].
    intros [|i] ev' op' ps' Hi Hc Hk; simpl in *.
    + injection Hi as ->. f_equal. by eapply Hcall.
    + by eapply Hcalls.
Qed.

Lemma yields_functional w p r r' : yields w p r -> yields w p r' -> r = r'.
Proof.
  intros Hy. revert r'.
  induction Hy as [p a r Ha Hst|p a q r Ha Hst _ IH]; intros r' Hy';
    inversion Hy'; simplify_eq; try congruence.
  apply IH. congruence.
Qed.

Lemma yields_grows w w' p r : grows w w' -> yields w p r -> yields w' p r.
Proof.
  intros [_ Hp]. induction 1 as [p a r Ha Hst|p a q r Ha Hst _ IH].
  - destruct (Hp p a Ha) as (a' & Ha' & (_ & _ & _ & Hf & _)).
    eapply yields_fulfilled; eauto.
  - destruct (Hp p a Ha) as (a' & Ha' & (_ & _ & _ & _ & Hq)).
    eapply yields_following; eauto.
Qed.


(** C1, as the script implements it. A request ([downloadFile] or
    [captureUrl]) that finds its token free creates one promise and
    registers it.  From then on, whatever happens in the session, a
    request with the same session, the same URL up to the fragment
    and the same rewrite method returns that very promise and
    creates none, so all these requests observe one result; no
    further access and no further transport request is started for
    the key.  The one access starts exactly one transport request,
    except that [downloadFile] starts none for a data URI. *)
Theorem request_deduplicated (op : operation) (ps : params) (w : world) :
  session_accessMap (timeId (p_settings ps)) (captureInfo w)
    !! getAccessToken (splitUrlByAnchor (p_url ps)).1 (method_of op ps) = None ->
  let p := length (promises w) in
  exists w1,
    request op ps w = Some (p, w1)
    /\ length (accesses_of op ps w1) = S (length (accesses_of op ps w))
    /\ length (fetches_of op ps w1)
       = (length (fetches_of op ps w)
          + match op with
            | OpDownloadFile =>
                if Js.startsWith "data:" (splitUrlByAnchor (p_url ps)).1
                then 0 else 1
            | OpCaptureUrl => 1
            end)%nat
    /\ forall evs outs w2,
        run w1 evs = Some (outs, w2) ->
        (forall i ev op' ps',
           evs !! i = Some ev -> call_of ev = Some (op', ps') ->
           request_key op' ps' = request_key op ps ->
           outs !! i = Some (Some p))
        /\ length (accesses_of op ps w2) = length (accesses_of op ps w1)
        /\ length (fetches_of op ps w2) = length (fetches_of op ps w1)
        /\ (forall r r', yields w2 p r -> yields w2 p r' -> r = r')
        /\ (forall r evs' outs' w3,
              run w2 evs' = Some (outs', w3) -> yields w2 p r -> yields w3 p r).
Proof.
  intros Hfree p.
  destruct (request_miss op ps w Hfree) as (st & x & f & ci' & E & Hm & Hx & _).
  eexists. split; [exact E|].
  assert (same_key op ps (Access op ps st x f no_headers) = true) as Hkey.
  { unfold same_key. by apply bool_decide_eq_true_2. }
  split.
  { unfold accesses_of. cbn [promises].
    rewrite filter_app, filter_cons_True, filter_nil by done.
    rewrite length_app. simpl. lia. }
  split.
  { unfold fetches_of, accesses_of. cbn [promises].
    rewrite filter_app, filter_cons_True, filter_nil by done.
    rewrite omap_app, length_app. f_equal. cbn [omap list_omap a_xhr].
    destruct x as [x|].
    - destruct op; [|done].
      destruct (Js.startsWith _ _) eqn:Hd; [|done].
      assert (Some x = None) by (by apply Hx). done.
    - destruct (proj1 Hx eq_refl) as [-> ->]. done. }
  intros evs outs w2 Hrun.
  assert (session_accessMap (timeId (p_settings ps)) ci'
            !! getAccessToken (splitUrlByAnchor (p_url ps)).1 (method_of op ps)
          = Some p) as Hreg.
  { rewrite Hm, decide_True by done. apply lookup_insert_eq. }
  destruct (run_registered op ps p (World ci' _) evs outs w2 Hreg Hrun)
    as (Hcalls & Hn1 & Hn2).
  split; [exact Hcalls|]. split; [exact Hn1|]. split; [exact Hn2|].
  split; [apply yields_functional|].
  intros r evs' outs' w3 Hrun'. apply yields_grows. by eapply run_grows.
Qed.

End Deduplication.

(** C1 as the specification words it fails where it promises exactly
    one network fetch: two [downloadFile] requests for one data URI
    (differing in the fragment only) return the same promise, and no
    transport request is started at all. *)
Lemma downloadFile_data_uri_counterexample :
  let opts := Options "singleHtml" false "" false false false in
  let sets := Settings "20230101000000000" false None in
  let ps1 := Params "data:text/plain,hi#x" None None sets opts in
  let ps2 := Params "data:text/plain,hi#y" None None sets opts in
  match @run sample_helpers init [CallDownloadFile ps1; CallDownloadFile ps2] with
  | Some (outs, w) =>
      outs = [Some 0%nat; Some 0%nat]
      /\ omap a_xhr (promises w) = []
      /\ length (fetches_of OpDownloadFile ps1 w) <> 1%nat
  | None => False
  end.
Proof. vm_compute. repeat split; done. Qed.

(** ** The invariant of the deduplicator *)

Section Invariant.
Context `{Scrapbook}.

Lemma in_flight_set_xhr_state st a :
  in_flight (set_xhr_state st a) ->
  is_Some (a_xhr a) /\ (st = Opened \/ st = HeadersReceived).
Proof.
  intros (x & Hx & Hst). simpl in Hx. destruct (a_xhr a) as [x0|]; [|done].
  simpl in Hx. injection Hx as <-. split; [eauto|]. exact Hst.
Qed.

(** The three ways a step changes the list of promises. *)
Lemma step_shape w ev o w' :
  step w ev = Some (o, w') ->
  promises w' = promises w
  \/ (exists a,
        promises w' = promises w ++ [a]
        /\ (in_flight a -> a_state a = Pending)
        /\ session_accessMap (timeId (p_settings (a_params a))) (captureInfo w')
             !! own_token a = Some (length (promises w)))
  \/ (exists p a a',
        promises w !! p = Some a /\ promises w' = <[p := a']> (promises w)
        /\ (in_flight a' -> in_flight a /\ (a_state a = Pending -> a_state a' = Pending))).
Proof.
  intros E.
  destruct (call_of ev) as [[op ps]|] eqn:Hcall.
  - rewrite (step_call _ _ _ _ Hcall) in E.
    apply fmap_Some in E as ([q w1] & E & [= -> ->]).
    destruct (session_accessMap (timeId (p_settings ps)) (captureInfo w)
                !! getAccessToken (splitUrlByAnchor (p_url ps)).1 (method_of op ps))
      as [q'|] eqn:Hq.
    + destruct (request_hit op ps w q' Hq) as (ci' & E' & _).
      rewrite E' in E. injection E as <- <-. by left.
    + destruct (request_miss op ps w Hq) as (st & x & f & ci' & E' & Hm & _ & Hst & _).
      rewrite E' in E. injection E as <- <-. right; left.
      eexists. split; [reflexivity|]. split.
      * intros (x' & Hx' & _). simpl in Hx'. by destruct (Hst _ Hx').
      * unfold own_token. cbn [a_params a_op captureInfo].
        rewrite Hm, decide_True by done. apply lookup_insert_eq.
  - right; right. destruct ev as [| |p resp|p|p ex|p r]; try done; simpl in E;
      apply fmap_Some in E as (w1 & E & [= -> ->]).
    + unfold onreadystatechange in E.
      destruct (promises w !! p) as [a|] eqn:Ha; [|done]. simpl in E.
      destruct (a_xhr a) as [x|] eqn:Hx; [|done]. simpl in E.
      case_bool_decide as Hopen; [|done]. simpl in E.
      assert (in_flight a) as Hfl by (exists x; auto).
      destruct (if negb _ then _ else _).
      * injection E as <-. eexists p, a, _. split; [done|]. split; [reflexivity|].
        intros [_ [?|?]]%in_flight_set_xhr_state; done.
      * destruct (a_op a).
        -- destruct (determine_filename _ _ _) as [[]|]; [|done].
           injection E as <-. eexists p, a, _. split; [done|]. split; [reflexivity|].
           intros _. split; done.
        -- injection E as <-. eexists p, a, _. split; [done|]. split; [reflexivity|].
           intros _. split; done.
    + unfold onload in E.
      destruct (promises w !! p) as [a|] eqn:Ha; [|done]. simpl in E.
      destruct (a_xhr a) as [x|] eqn:Hx; [|done]. simpl in E.
      destruct (negb _); [done|]. injection E as <-.
      eexists p, a, _. split; [done|]. split; [reflexivity|].
      intros [_ [?|?]]%in_flight_set_xhr_state; done.
    + unfold onerror in E.
      destruct (promises w !! p) as [a|] eqn:Ha; [|done]. simpl in E.
      destruct (a_xhr a) as [x|] eqn:Hx; [|done]. simpl in E.
      destruct (negb _); [done|]. injection E as <-.
      eexists p, a, _. split; [done|]. split; [reflexivity|].
      intros [_ [?|?]]%in_flight_set_xhr_state; done.
    + unfold packaged in E.
      destruct (promises w !! p) as [a|] eqn:Ha; [|done]. simpl in E.
      destruct (a_state a) eqn:Hst; try done. injection E as <-.
      eexists p, a, _. split; [done|]. split; [reflexivity|].
      intros Hfl. split; [exact Hfl|]. intros; congruence.
Qed.

Lemma evolves_own a a' :
  evolves a a' ->
  timeId (p_settings (a_params a')) = timeId (p_settings (a_params a))
  /\ own_token a' = own_token a.
Proof. intros (Hop & Hps & _). unfold own_token. by rewrite Hop, Hps. Qed.

Lemma step_consistent w ev o w' :
  consistent w -> step w ev = Some (o, w') -> consistent w'.
Proof.
  intros [Hpend Hreg] E.
  pose proof (step_grows _ _ _ _ E) as [Hmono Hev].
  assert (forall p a, promises w !! p = Some a ->
            forall b, promises w' !! p = Some b ->
            session_accessMap (timeId (p_settings (a_params b))) (captureInfo w')
              !! own_token b = Some p) as Hold.
  { intros p a Ha b Hb. destruct (Hev p a Ha) as (a' & Ha' & He).
    assert (b = a') as -> by congruence.
    destruct (evolves_own _ _ He) as [-> ->]. by apply Hmono, Hreg. }
  destruct (step_shape _ _ _ _ E) as [Hsame|[(a & Happ & Hap & Har)|(p & a & a' & Ha & Hupd & Hfl)]].
  - split.
    + intros p a. rewrite Hsame. apply Hpend.
    + intros p a Ha. pose proof Ha as Ha'. rewrite Hsame in Ha'.
      exact (Hold p a Ha' a Ha).
  - split.
    + intros p b. rewrite Happ. intros [Hb|[_ Hb]]%lookup_app_Some.
      * by eapply Hpend.
      * apply list_lookup_singleton_Some in Hb as [_ <-]. done.
    + intros p b Hb. pose proof Hb as Hb'. rewrite Happ in Hb'.
      apply lookup_app_Some in Hb' as [Hb'|[Hge Hb']].
      * exact (Hold p b Hb' b Hb).
      * apply list_lookup_singleton_Some in Hb' as [Hp <-].
        assert (p = length (promises w)) as -> by lia. done.
  - split.
    + intros p' b. rewrite Hupd. destruct (decide (p = p')) as [<-|Hne].
      * rewrite list_lookup_insert_eq by (by eapply lookup_lt_Some).
        intros [= <-] Hb. destruct (Hfl Hb) as [Hfa Hst]. apply Hst. by eapply Hpend.
      * rewrite list_lookup_insert_ne by done. apply Hpend.
    + intros p' b Hb.
      assert (is_Some (promises w !! p')) as [c Hc].
      { apply lookup_lt_is_Some. apply lookup_lt_Some in Hb.
        by rewrite Hupd, length_insert in Hb. }
      exact (Hold p' c Hc b Hb).
Qed.

Lemma consistent_init : consistent init.
Proof. split; intros p a Ha; simpl in Ha; by rewrite lookup_nil in Ha. Qed.

Lemma run_consistent w evs outs w' :
  consistent w -> run w evs = Some (outs, w') -> consistent w'.
Proof.
  revert w outs. induction evs as [|ev evs IH]; intros w outs Hc; simpl.
  - by intros [= _ <-].
  - destruct (step w ev) as [[o w1]|] eqn:E; [|done].
    destruct (run w1 evs) as [[os w2]|] eqn:E'; [|done].
    intros [= _ <-]. eapply IH; [|exact E']. by eapply step_consistent.
Qed.

Lemma reachable_consistent w : reachable w -> consistent w.
Proof. intros (evs & outs & E). eapply run_consistent; [apply consistent_init|exact E]. Qed.

End Invariant.

(** ** C2: a redirect onto a registered resource *)

Section Redirect.
Context `{Scrapbook}.

(** C2. The transport request of a fetch is opened and the response
    headers arrive with a response URL that differs from the request
    URL once the fragments are stripped.  If the access map of the
    session holds a promise [q] for the token of the response URL,
    the promise of the fetch follows [q] and the transport request
    is aborted: at any later time the fetch yields exactly the
    results [q] yields; in particular a result [q] had already
    yielded is the result of the fetch.  Otherwise the token of the
    response URL is registered to the promise of the fetch, which
    stays pending. *)
Theorem redirect_merged (w : world) (p : pid) (a : access) (x : xhr)
    (resp : response) :
  reachable w ->
  promises w !! p = Some a -> a_xhr a = Some x -> x_state x = Opened ->
  (splitUrlByAnchor (responseURL resp)).1 <> (splitUrlByAnchor (p_url (a_params a))).1 ->
  let tid := timeId (p_settings (a_params a)) in
  let tok := getAccessToken (splitUrlByAnchor (responseURL resp)).1
               (method_of (a_op a) (a_params a)) in
  exists w',
    onreadystatechange p resp w = Some w'
    /\ match session_accessMap tid (captureInfo w) !! tok with
       | Some q =>
           (exists a' x',
              promises w' !! p = Some a' /\ a_state a' = Following q
              /\ a_xhr a' = Some x' /\ x_state x' = Aborted)
           /\ (forall evs outs w'',
                 run w' evs = Some (outs, w'') ->
                 forall r, yields w'' p r <-> yields w'' q r)
           /\ (forall r, yields w q r -> yields w' p r)
       | None =>
           session_accessMap tid (captureInfo w') !! tok = Some p
           /\ exists a', promises w' !! p = Some a' /\ a_state a' = Pending
       end.
Proof.
  intros Hreach Ha Hx Hopen Hred tid tok.
  destruct (reachable_consistent w Hreach) as [Hpend _].
  assert (a_state a = Pending) as Hst by (eapply Hpend; [exact Ha|exists x; auto]).
  pose proof (lookup_lt_Some _ _ _ Ha) as Hlt.
  unfold onreadystatechange. rewrite Ha. cbn [mbind option_bind].
  rewrite Hx. cbn [mbind option_bind].
  rewrite (bool_decide_eq_true_2 _ Hopen). cbn [negb].
  rewrite (bool_decide_eq_false_2 _ Hred). cbn [negb].
  fold tid. fold tok.
  destruct (session_accessMap tid (captureInfo w) !! tok) as [q|] eqn:Hq.
  - eexists. split; [reflexivity|].
    set (a' := set_xhr_state Aborted (settle (Following q) a)).
    set (w' := World _ _).
    assert (promises w' !! p = Some a') as Ha'
      by (by apply list_lookup_insert_eq).
    assert (a_state a' = Following q) as Hst'.
    { unfold a', settle. rewrite Hst. done. }
    assert (forall evs outs w'', run w' evs = Some (outs, w'') ->
              forall r, yields w'' p r <-> yields w'' q r) as Hlater.
    { intros evs outs w'' Hrun r.
      destruct (run_grows _ _ _ _ Hrun) as [_ Hev].
      destruct (Hev p a' Ha') as (a'' & Ha'' & (_ & _ & _ & _ & Hfol)).
      specialize (Hfol q Hst'). split.
      - intros Hy.
        inversion Hy; simplify_eq; [congruence|].
        match goal with
        | Hs : a_state _ = Following _ |- _ =>
            rewrite Hfol in Hs; injection Hs as <-
        end. done.
      - intros Hy. eapply yields_following; eauto. }
    split; [|split; [exact Hlater|]].
    + exists a', (Xhr (x_url x) (x_responseType x) (x_referer x) Aborted).
      split; [done|]. split; [done|]. split; [|done].
      unfold a', settle. rewrite Hst. simpl. by rewrite Hx.
    + intros r Hy. apply (Hlater [] [] w' eq_refl).
      eapply yields_grows; [|exact Hy].
      eapply onreadystatechange_grows. unfold onreadystatechange.
      rewrite Ha. cbn [mbind option_bind]. rewrite Hx. cbn [mbind option_bind].
      rewrite (bool_decide_eq_true_2 _ Hopen). cbn [negb].
      rewrite (bool_decide_eq_false_2 _ Hred). cbn [negb].
      fold tid. fold tok. rewrite Hq. reflexivity.
  - set (a' := set_xhr_state HeadersReceived _).
    assert (session_accessMap tid (register tid tok p (captureInfo w)) !! tok = Some p)
      as Hreg.
    { rewrite accessMap_register, decide_True by done. apply lookup_insert_eq. }
    change (a_op a') with (a_op a).
    destruct (a_op a).
    + destruct (determine_filename_returns (a_params a) (get_headers resp (a_headers a))
                  (register tid tok p (captureInfo w))) as (f & ci' & -> & Hm).
      eexists. split; [reflexivity|]. cbn [captureInfo promises].
      split; [by rewrite Hm|].
      eexists. split; [by apply list_lookup_insert_eq|]. exact Hst.
    + eexists. split; [reflexivity|]. cbn [captureInfo promises].
      split; [done|].
      eexists. split; [by apply list_lookup_insert_eq|]. exact Hst.
Qed.

End Redirect.

(** ** C3: a failed fetch is memoized as an error record *)

Section Failure.
Context `{Scrapbook}.

(** C3. When a fetch of [downloadFile] or [captureUrl] fails, by an
    error of the transport or by a data URI that cannot be decoded,
    the step is taken and the promise of the fetch is fulfilled with
    the error record of the failure, the placeholder URL and the
    error.  Whatever happens afterwards in the session, the promise
    stays fulfilled with that record, it stays registered under the
    token of the request, and every request with the same key
    returns it. *)
Theorem fetch_failure_memoized (w : world) (ev : event) (p : pid) (ex : exn) :
  reachable w -> fetch_failure w ev p ex ->
  exists o w' a,
    step w ev = Some (o, w')
    /\ promises w' !! p = Some a
    /\ let r := errorRecord (p_url (a_params a)) (p_options (a_params a)) ex in
       a_state a = Fulfilled r
       /\ r_url r = getErrorUrl (p_url (a_params a)) (p_options (a_params a))
       /\ r_error r = Some ex
       /\ forall evs outs w'',
            run w' evs = Some (outs, w'') ->
            yields w'' p r
            /\ session_accessMap (timeId (p_settings (a_params a))) (captureInfo w'')
                 !! own_token a = Some p
            /\ forall op' ps',
                 request_key op' ps' = request_key (a_op a) (a_params a) ->
                 exists w3, request op' ps' w'' = Some (p, w3).
Proof.
  intros Hreach Hfail.
  pose proof (reachable_consistent w Hreach) as Hcons.
  (* the step is taken and fulfils the promise with the error record *)
  assert (exists o w' a,
            step w ev = Some (o, w') /\ promises w' !! p = Some a
            /\ a_state a = Fulfilled (errorRecord (p_url (a_params a))
                                        (p_options (a_params a)) ex))
    as (o & w' & a & E & Ha & Hst).
  { destruct Hfail as [p a ex Ha Hfl|ps Hfree Hdata Hsave Hmode Hfile].
    - destruct Hcons as [Hpend _]. pose proof (Hpend p a Ha Hfl) as Hst.
      destruct Hfl as (x & Hx & Hxs).
      eexists None, _, _. split; [|split].
      + simpl. unfold onerror. rewrite Ha. cbn [mbind option_bind].
        rewrite Hx. cbn [mbind option_bind].
        assert (bool_decide (x_state x = Opened)
                || bool_decide (x_state x = HeadersReceived) = true) as ->.
        { destruct Hxs as [->| ->]; reflexivity. }
        reflexivity.
      + cbn [promises]. apply list_lookup_insert_eq. by eapply lookup_lt_Some.
      + unfold settle. rewrite Hst. reflexivity.
    - destruct (request_miss OpDownloadFile ps w Hfree)
        as (st & x & f & ci' & E & _ & _ & _ & Hbad).
      specialize (Hbad eq_refl Hdata Hsave Hmode Hfile). subst st.
      eexists _, _, _. split; [|split].
      + simpl. unfold downloadFile. rewrite E. reflexivity.
      + cbn [promises]. rewrite lookup_app_r by done.
        by rewrite Nat.sub_diag.
      + reflexivity. }
  exists o, w', a. split; [exact E|]. split; [exact Ha|].
  split; [exact Hst|]. split; [reflexivity|]. split; [reflexivity|].
  intros evs outs w'' Hrun.
  pose proof (step_consistent _ _ _ _ Hcons E) as [_ Hreg].
  destruct (run_grows _ _ _ _ Hrun) as [Hmono Hev].
  destruct (Hev p a Ha) as (a'' & Ha'' & (_ & _ & _ & Hful & _)).
  pose proof (Hmono _ _ _ (Hreg p a Ha)) as Hreg''.
  split; [eapply yields_fulfilled; eauto|]. split; [exact Hreg''|].
  intros op' ps' Hkey. apply key_token in Hkey as [Ht Hk].
  destruct (request_hit op' ps' w'' p) as (ci' & E' & _); [|eauto].
  rewrite Ht, Hk. exact Hreg''.
Qed.

End Failure.

(** ** C9: teardown of the session state in [captureTab] *)

Section Teardown.
Context `{Scrapbook}.

(** C9, as far as the script goes. When the capture started by
    [captureTab] is fulfilled, with a response, with an error record
    or with no response at all, the entry of the session is removed
    from [capturer.captureInfo]; when the capture is rejected the
    handler that removes the entry is skipped and
    [capturer.captureInfo] is left as it was, so an entry of the
    session stays behind. *)
Theorem captureTab_teardown
    (tid source : string) (ex : exn) (response : option result)
    (ci : gmap string session) :
  (captureTab_settle tid source (Fulfills response) ci).1 = delete tid ci
  /\ (captureTab_settle tid source (Fulfills response) ci).1 !! tid = None
  /\ (captureTab_settle tid source (Rejects ex) ci).1 = ci.
Proof.
  split; [|split].
  - unfold captureTab_settle, captureTab_then.
    destruct response as [r|]; [destruct (r_error r)|]; reflexivity.
  - unfold captureTab_settle, captureTab_then.
    destruct response as [r|]; [destruct (r_error r)|]; simpl; apply lookup_delete_eq.
  - reflexivity.
Qed.

End Teardown.

(** C9 does not hold for a capture that is rejected: with a session
    that holds allocated names and a capture rejected with an error,
    the entry of the session is still in [capturer.captureInfo] after
    the chain of [captureTab] has settled. *)
Example captureTab_rejected_keeps_session :
  let tid := "20230101000000000" in
  let ci : gmap string session :=
    {[ tid := Session (Some ({[ "style.css" ]} ∪ defaultFilesSet)) (Some ∅) None ]} in
  is_Some ((@captureTab_settle sample_helpers tid "[1] http://example.com/"
              (Rejects (Error "boom")) ci).1 !! tid).
Proof. vm_compute. eauto. Qed.

(** ** The theorems at concrete inputs *)

(** C4 at a concrete input: a fresh session asked for the reserved
    name twice, in two spellings, then for a name with a small and
    with a capital E acute (the bytes 195 169 and 195 137 in UTF-8),
    then for no name, twice. *)
Lemma getUniqueFilename_unique_in_session_witness :
  let t := "20230101000000000" in
  let small := String "195" (String "169" ".txt") in
  let capital := String "195" (String "137" ".txt") in
  let names := [Some "index.rdf"; Some "Index.RDF"; Some small; Some capital;
                None; Some ""] in
  defaultFilesSet ⊆ session_files t ∅
  /\ exists rs ci',
      @allocate_all sample_helpers t names ∅ = Some (rs, ci')
      /\ length rs = length names
      /\ NoDup (@toLowerCase sample_helpers <$> rs)
      /\ NoDup (Js.toLowerCase <$> rs)
      /\ Forall (fun r => (@toLowerCase sample_helpers r ∉ defaultFilesSet)
                          /\ (Js.toLowerCase r ∉ defaultFilesSet)
                          /\ (@toLowerCase sample_helpers r ∉ session_files t ∅)
                          /\ (@toLowerCase sample_helpers r ∈ session_files t ci')) rs
      /\ Forall2 (fun name r =>
                    numbered_form (@alloc_base sample_helpers name)
                      (@alloc_ext sample_helpers name) r) names rs
      /\ session_files t ∅ ⊆ session_files t ci'.
Proof.
  intros t small capital names. split; [reflexivity|].
  apply (getUniqueFilename_unique_in_session (H:=sample_helpers) t names ∅).
  reflexivity.
Defined.

(** C10 at a concrete input: the empty name, in a session that has
    given out [untitled] already. *)
Lemma getUniqueFilename_untitled_witness :
  let t := "20230101000000000" in
  let ci : gmap string session :=
    {[ t := Session (Some ({[ "untitled" ]} ∪ defaultFilesSet)) None None ]} in
  (Js.truthy (Some "") = false
   /\ filenameParts_model "untitled" = ("untitled", "")
   /\ crop_model (crop_model "untitled" 240 true) 128 false = "untitled")
  /\ exists r ci',
      @getUniqueFilename sample_helpers t (Some "") ci = Some (r, ci')
      /\ (r = "untitled"
          \/ exists n : nat, (1 <= n)%nat /\ r = "untitled-" +:+ Js.numberToString n)
      /\ (Js.toLowerCase r ∉ session_files t ci)
      /\ session_files t ci' = {[ Js.toLowerCase r ]} ∪ session_files t ci.
Proof.
  intros t ci. split; [repeat split|].
  apply (getUniqueFilename_untitled (H:=sample_helpers) t (Some "") ci); reflexivity.
Defined.


(** C6 at a concrete input: a script of 128 bytes goes in compressed. *)
Lemma downloadBlob_zip_compression_witness :
  let b := Blob "application/x-javascript" (String.concat "" (replicate 128 ";")) in
  let ps := BlobParams b "app.js" "http://example.com/app.js"
              (Settings "20230101000000000" false None)
              (Options "zip" false "" false false false) in
  let s := Pk ∅ [] [] in
  saveAs (db_options ps) = "zip"
  /\ exists r s' c,
      @downloadBlob sample_helpers ps s = (Ok r, s')
      /\ session_zip (timeId (db_settings ps)) (pk_info s') !! db_filename ps
         = Some (ZipEntry (db_blob ps) c)
      /\ (c = DEFLATE <->
          ((exists rest, blob_type (db_blob ps) = "text/" +:+ rest)
           \/ contains_word "xml" (blob_type (db_blob ps))
           \/ contains_word "json" (blob_type (db_blob ps))
           \/ contains_word "javascript" (blob_type (db_blob ps)))
          /\ 128 <= blob_size (db_blob ps))
      /\ (c <> DEFLATE -> c = STORE).
Proof.
  intros b ps s. split; [reflexivity|].
  apply (downloadBlob_zip_compression (H:=sample_helpers) ps s). reflexivity.
Defined.

(** C7 at a concrete input: session [20230101000000000], one style
    sheet, one framed document and the main document, an XHTML page.
    The archive holds the style sheet as it was handed in, stored,
    the framed document and the index document, compressed, and the
    manifest with the lines of the source URL and of the index file
    name. *)
Lemma maff_archive_layout_witness :
  let tid := "20230101000000000" in
  let opts := Options "maff" true "WebScrapBook" false false false in
  let css := BlobParams (Blob "text/css" "p{}") "style.css"
               "http://example.com/style.css" (Settings tid false None) opts in
  let frame := SaveParams (DocData "text/html" None "<p>frame</p>" None) "index_1"
                 "http://example.com/frame" (Settings tid false None) opts in
  let main := SaveParams (DocData "application/xhtml+xml" None "<html/>" (Some "Page"))
                "index" "http://example.com/page" (Settings tid true (Some "index")) opts in
  let subs := [PackBlob css; PackDocument frame] in
  let s := Pk ∅ [] [] in
  (Forall (fun op => saveAs (op_options op) = "maff" /\ timeId (op_settings op) = tid)
          (subs ++ [PackDocument main])
   /\ frameIsMain (sd_settings main) = true
   /\ prefixed tid (session_zip tid (pk_info s)))
  /\ let z := session_zip tid
                (pk_info (@run_ops sample_helpers (subs ++ [PackDocument main]) s)) in
     prefixed tid z
     /\ z !! "20230101000000000/style.css"
        = Some (ZipEntry (Blob "text/css" "p{}") STORE)
     /\ z !! "20230101000000000/index_1.html"
        = Some (ZipEntry (Blob "text/html" "<p>frame</p>") DEFLATE)
     /\ z !! "20230101000000000/index.xhtml"
        = Some (ZipEntry (Blob "application/xhtml+xml" "<html/>") DEFLATE)
     /\ exists m,
         z !! "20230101000000000/index.rdf"
         = Some (ZipEntry (Blob "application/rdf+xml" m) DEFLATE)
         /\ contains ("    <MAF:originalurl RDF:resource=" +:+ dq
                        +:+ "http://example.com/page" +:+ dq +:+ "/>" +:+ nl) m
         /\ contains ("    <MAF:indexfilename RDF:resource=" +:+ dq
                        +:+ "index.xhtml" +:+ dq +:+ "/>" +:+ nl) m.
Proof.
  intros tid opts css frame main subs s.
  assert (Forall (fun op => saveAs (op_options op) = "maff"
                            /\ timeId (op_settings op) = tid)
                 (subs ++ [PackDocument main])) as Hall.
  { repeat constructor. }
  assert (prefixed tid (session_zip tid (pk_info s))) as Hpre.
  { intros path [e He]. vm_compute in He. discriminate. }
  split; [by repeat split|].
  destruct (maff_archive_layout (H:=sample_helpers) tid subs main s Hall eq_refl Hpre)
    as (Hp & _ & _ & _ & Hblob & Hdoc & _ & Hindex & m & Hm & _ & Ho & _ & _ & Hi & _).
  split; [exact Hp|].
  split.
  { apply (Hblob [] css [PackDocument frame] eq_refl);
      [repeat constructor|..]; intros E; vm_compute in E; discriminate. }
  split.
  { apply (Hdoc [PackBlob css] frame [] eq_refl);
      [repeat constructor|..]; intros E; vm_compute in E; discriminate. }
  split.
  { apply Hindex; [|intros _]; intros E; vm_compute in E; discriminate. }
  exists m. split; [exact Hm|]. split; [exact Ho|exact Hi].
Defined.

(** C5 at a concrete input: the folder-mode capture of an XHTML page
    and of one of its images. *)
Lemma folder_mode_auto_erase_witness :
  let tid := "20230101000000000" in
  let opts := Options "folder" true "WebScrapBook" false false false in
  let bs := BlobParams (Blob "image/png" "PNG") "logo.png"
              "http://example.com/logo.png" (Settings tid false None) opts in
  let ps := SaveParams (DocData "application/xhtml+xml" None "<html/>" (Some "Page"))
              "index" "http://example.com/page" (Settings tid true (Some "index")) opts in
  let s := Pk ∅ [] [DlComplete "WebScrapBook/data/20230101000000000/index.xhtml";
                    DlComplete "WebScrapBook/data/20230101000000000/index.html"] in
  (folder_mode (db_options bs) /\ folder_mode (sd_options ps))
  /\ pk_downloads (@saveDocument sample_helpers ps s).2
     = [ Download (Blob "application/xhtml+xml" "<html/>")
           "WebScrapBook/data/20230101000000000/index.xhtml"
           false "http://example.com/page" true;
         Download (Blob "text/html" redirect_stub)
           "WebScrapBook/data/20230101000000000/index.html"
           false "http://example.com/page" false ].
Proof.
  intros tid opts bs ps s.
  assert (folder_mode opts) as Hmode by (repeat split; discriminate).
  split; [by split|].
  destruct (folder_mode_auto_erase (H:=sample_helpers) bs ps s Hmode Hmode)
    as (_ & _ & _ & Hx).
  exact (Hx eq_refl eq_refl).
Defined.

(** C1 at a concrete input: the first request of a session for a
    style sheet. *)
Lemma request_deduplicated_witness :
  let ps := Params "http://example.com/a.css#x" None None
              (Settings "20230101000000000" false None)
              (Options "zip" false "" false false false) in
  let op := OpDownloadFile in
  let w := init in
  let p := length (promises w) in
  session_accessMap (timeId (p_settings ps)) (captureInfo w)
    !! @getAccessToken sample_helpers (splitUrlByAnchor (p_url ps)).1 (method_of op ps)
  = None
  /\ exists w1,
      @request sample_helpers op ps w = Some (p, w1)
      /\ length (accesses_of op ps w1) = S (length (accesses_of op ps w))
      /\ length (fetches_of op ps w1)
         = (length (fetches_of op ps w)
            + match op with
              | OpDownloadFile =>
                  if Js.startsWith "data:" (splitUrlByAnchor (p_url ps)).1
                  then 0 else 1
              | OpCaptureUrl => 1
              end)%nat
      /\ forall evs outs w2,
          @run sample_helpers w1 evs = Some (outs, w2) ->
          (forall i ev op' ps',
             evs !! i = Some ev -> call_of ev = Some (op', ps') ->
             request_key op' ps' = request_key op ps ->
             outs !! i = Some (Some p))
          /\ length (accesses_of op ps w2) = length (accesses_of op ps w1)
          /\ length (fetches_of op ps w2) = length (fetches_of op ps w1)
          /\ (forall r r', yields w2 p r -> yields w2 p r' -> r = r')
          /\ (forall r evs' outs' w3,
                @run sample_helpers w2 evs' = Some (outs', w3) ->
                yields w2 p r -> yields w3 p r).
Proof.
  intros ps op w p. split; [reflexivity|].
  apply (request_deduplicated (H:=sample_helpers) op ps w). reflexivity.
Defined.

(** C2 at a concrete input: [b.css] was requested first, then
    [a.css], whose response comes from [b.css]. *)
Lemma redirect_merged_witness :
  let sets := Settings "20230101000000000" false None in
  let opts := Options "zip" false "" false false false in
  let psB := Params "http://example.com/b.css" None None sets opts in
  let psA := Params "http://example.com/a.css#top" None None sets opts in
  let x := Xhr "http://example.com/a.css#top" "blob" None Opened in
  let a := Access OpDownloadFile psA Pending (Some x) None no_headers in
  let resp := Response "http://example.com/b.css" 200 None (Some ("text/css", None)) in
  let w := match @run sample_helpers init [CallDownloadFile psB; CallDownloadFile psA] with
           | Some (_, w) => w
           | None => init
           end in
  let p := 1%nat in
  let q := 0%nat in
  (@reachable sample_helpers w
   /\ promises w !! p = Some a /\ a_xhr a = Some x /\ x_state x = Opened
   /\ (splitUrlByAnchor (responseURL resp)).1 <> (splitUrlByAnchor (p_url (a_params a))).1)
  /\ exists w',
      @onreadystatechange sample_helpers p resp w = Some w'
      /\ (exists a' x',
            promises w' !! p = Some a' /\ a_state a' = Following q
            /\ a_xhr a' = Some x' /\ x_state x' = Aborted)
      /\ (forall evs outs w'',
            @run sample_helpers w' evs = Some (outs, w'') ->
            forall r, yields w'' p r <-> yields w'' q r)
      /\ (forall r, yields w q r -> yields w' p r).
Proof.
  intros sets opts psB psA x a resp w p q.
  assert (@reachable sample_helpers w) as Hreach.
  { exists [CallDownloadFile psB; CallDownloadFile psA], [Some 0%nat; Some 1%nat].
    vm_compute. reflexivity. }
  assert (promises w !! p = Some a) as Ha by (vm_compute; reflexivity).
  assert ((splitUrlByAnchor (responseURL resp)).1
          <> (splitUrlByAnchor (p_url (a_params a))).1) as Hne
    by (vm_compute; discriminate).
  split; [by repeat split|].
  destruct (redirect_merged (H:=sample_helpers) w p a x resp Hreach Ha eq_refl eq_refl Hne)
    as (w' & E & Hcase).
  exists w'. split; [exact E|]. exact Hcase.
Defined.

(** C3 at a concrete input: the transport request of the first fetch
    of a session fails. *)
Lemma fetch_failure_memoized_witness :
  let sets := Settings "20230101000000000" false None in
  let opts := Options "zip" false "" false false false in
  let psA := Params "http://example.com/a.css#top" None None sets opts in
  let ex := Error "net::ERR_FAILED" in
  let w := match @run sample_helpers init [CallDownloadFile psA] with
           | Some (_, w) => w
           | None => init
           end in
  let ev := OnError 0 ex in
  let p := 0%nat in
  (@reachable sample_helpers w /\ @fetch_failure sample_helpers w ev p ex)
  /\ exists o w' a,
      @step sample_helpers w ev = Some (o, w')
      /\ promises w' !! p = Some a
      /\ let r := @errorRecord sample_helpers (p_url (a_params a))
                    (p_options (a_params a)) ex in
         a_state a = Fulfilled r
         /\ r_url r = @getErrorUrl sample_helpers (p_url (a_params a))
                        (p_options (a_params a))
         /\ r_error r = Some ex
         /\ forall evs outs w'',
              @run sample_helpers w' evs = Some (outs, w'') ->
              yields w'' p r
              /\ session_accessMap (timeId (p_settings (a_params a))) (captureInfo w'')
                   !! @own_token sample_helpers a = Some p
              /\ forall op' ps',
                   request_key op' ps' = request_key (a_op a) (a_params a) ->
                   exists w3, @request sample_helpers op' ps' w'' = Some (p, w3).
Proof.
  intros sets opts psA ex w ev p.
  assert (@reachable sample_helpers w) as Hreach.
  { exists [CallDownloadFile psA], [Some 0%nat]. vm_compute. reflexivity. }
  assert (@fetch_failure sample_helpers w ev p ex) as Hfail.
  { eapply network_error.
    - vm_compute. reflexivity.
    - eexists. split; [reflexivity|]. left. reflexivity. }
  split; [by split|].
  exact (fetch_failure_memoized (H:=sample_helpers) w ev p ex Hreach Hfail).
Defined.

(** ** The model run on the scenarios of the specification *)

(** Names asked for in one session, some of them clashing, and the
    names handed out. *)
Example allocation_in_one_session :
  fst <$> @allocate_all sample_helpers "20230101000000000"
            [Some "a.txt"; Some "A.TXT"; Some "a.txt"; None; Some "index.dat"] ∅
  = Some ["a.txt"; "A-1.TXT"; "a-2.txt"; "untitled"; "index-1.dat"].
Proof. vm_compute. reflexivity. Qed.

(** Two requests for one resource that differ in the fragment only:
    one promise, one transport request. *)
Example two_fragments_one_fetch :
  let sets := Settings "20230101000000000" false None in
  let opts := Options "zip" false "" false false false in
  let ps1 := Params "https://example.com/a#x" None None sets opts in
  let ps2 := Params "https://example.com/a#y" None None sets opts in
  match @run sample_helpers init [CallDownloadFile ps1; CallDownloadFile ps2] with
  | Some (outs, w) =>
      outs = [Some 0%nat; Some 0%nat]
      /\ omap a_xhr (promises w) = [Xhr "https://example.com/a#x" "blob" None Opened]
  | None => False
  end.
Proof. vm_compute. split; reflexivity. Qed.

(** A fetch of [a.css] that is answered from [b.css], which was
    requested and settled before: the fetch is aborted and yields the
    result of [b.css]. *)
Example redirect_to_settled :
  let sets := Settings "20230101000000000" false None in
  let opts := Options "zip" false "" false false false in
  let psB := Params "http://example.com/b.css" None None sets opts in
  let psA := Params "http://example.com/a.css" None None sets opts in
  let headersB := Response "http://example.com/b.css" 200 None (Some ("text/css", None)) in
  let rB := Result None None None (Some "b.css") "b.css" None in
  match @run sample_helpers init
          [CallDownloadFile psB; ReadyState2 0 headersB; OnLoad 0; Packaged 0 (inr rB);
           CallDownloadFile psA; ReadyState2 1 headersB] with
  | Some (outs, w) =>
      outs = [Some 0%nat; None; None; None; Some 1%nat; None]
      /\ yields w 1 rB
      /\ x_state <$> omap a_xhr (promises w) = [Loaded; Aborted]
  | None => False
  end.
Proof.
  vm_compute. split; [reflexivity|]. split; [|reflexivity].
  eapply yields_following; [reflexivity|reflexivity|].
  eapply yields_fulfilled; reflexivity.
Qed.

(** The inline reference of a small style sheet, and its decoding. *)
Example inline_reference :
  let ps := BlobParams (Blob "text/css" "p{}") "a b.css" "http://example.com/a.css#top"
              (Settings "20230101000000000" false None)
              (Options "singleHtml" false "" false false false) in
  let r := (@downloadBlob sample_helpers ps (Pk ∅ [] [])).1 in
  r = Ok (Result None None None None
            "data:text/css;filename=a%20b.css;base64,cHt9#top" None)
  /\ dataUriDecode "data:text/css;filename=a%20b.css;base64,cHt9#top" = Some "p{}".
Proof. vm_compute. split; reflexivity. Qed.

(** Types the archive compresses, and types it stores. *)
Example compressible_types :
  compressible <$> ["text/plain"; "application/xhtml+xml"; "application/json";
                    "application/x-javascript"; "image/svg+xml"; "image/png";
                    "application/vnd.openxmlformats-officedocument.spreadsheetml.sheet";
                    "application/jsonp"]
  = [true; true; true; true; true; false; false; false].
Proof. vm_compute. reflexivity. Qed.

(** * Further properties of the background script *)

(** ** Document names and file names of a session *)

Lemma html_xhtml_neq (a b : string) : a +:+ ".html" <> b +:+ ".xhtml".
Proof.
  intros E. apply (f_equal String.rev) in E. unfold String.rev in E.
  rewrite !rev_app_app in E. simpl in E. discriminate.
Qed.

Section NameFacts.
Context `{Scrapbook}.

Lemma suffixed_lower_inj (name ext : string) (n m : nat) :
  toLowerCase (suffixed name n) +:+ ext = toLowerCase (suffixed name m) +:+ ext ->
  n = m.
Proof.
  intros E%sapp_inv_tail. unfold suffixed in E.
  apply (toLowerCase_numbered (name +:+ "_") "").
  by rewrite !sapp_nil_r, !sapp_assoc.
Qed.

Lemma uniquify_document_Some fuel files name count cur r :
  uniquify_document fuel files name count cur = Some r ->
  (toLowerCase r +:+ ".html" ∉ files)
  /\ (toLowerCase r +:+ ".xhtml" ∉ files)
  /\ (r = cur \/ exists n, (count < n)%nat /\ r = suffixed name n
        /\ (toLowerCase cur +:+ ".html" ∈ files
            \/ toLowerCase cur +:+ ".xhtml" ∈ files)
        /\ forall k, (count < k < n)%nat ->
             toLowerCase (suffixed name k) +:+ ".html" ∈ files
             \/ toLowerCase (suffixed name k) +:+ ".xhtml" ∈ files).
Proof.
  revert count cur. induction fuel as [|fuel IH]; intros count cur; simpl.
  - destruct (bool_decide _ || bool_decide _) eqn:E; [discriminate|].
    apply orb_false_iff in E as [E1%bool_decide_eq_false E2%bool_decide_eq_false].
    intros [= <-]. auto.
  - destruct (bool_decide _ || bool_decide _) eqn:E.
    + apply orb_true_iff in E.
      rewrite !bool_decide_eq_true in E.
      intros Hr. apply IH in Hr as (? & ? & Hr). split; [done|]. split; [done|].
      right. destruct Hr as [->|(n & ? & -> & Hcur & Hk)].
      * exists (S count). repeat split; [lia|done|]. intros k ?. lia.
      * exists n. repeat split; [lia|done|]. intros k ?.
        destruct (decide (k = S count)) as [->|]; [done|]. apply Hk. lia.
    + apply orb_false_iff in E as [E1%bool_decide_eq_false E2%bool_decide_eq_false].
      intros [= <-]. auto.
Qed.

Lemma uniquify_document_None fuel files name count cur :
  uniquify_document fuel files name count cur = None ->
  forall n, (count < n <= count + fuel)%nat ->
    toLowerCase (suffixed name n) +:+ ".html" ∈ files
    \/ toLowerCase (suffixed name n) +:+ ".xhtml" ∈ files.
Proof.
  revert count cur. induction fuel as [|fuel IH]; intros count cur; simpl.
  - intros _ n ?. lia.
  - destruct (bool_decide _ || bool_decide _) eqn:E; [|discriminate].
    intros Hr n Hn.
    destruct (decide (n = S count)) as [->|].
    + destruct fuel; simpl in Hr;
        destruct (bool_decide _ || bool_decide _) eqn:E' in Hr; try discriminate;
        apply orb_true_iff in E'; by rewrite !bool_decide_eq_true in E'.
    + apply (IH _ _ Hr). lia.
Qed.

(** The loop of [registerDocument] ends before it has run
    [size files + 1] times. *)
Lemma uniquify_document_terminates files name cur :
  is_Some (uniquify_document (S (size files)) files name 0 cur).
Proof.
  destruct (uniquify_document _ _ _ _ _) eqn:E; [eauto|exfalso].
  pose proof (uniquify_document_None _ _ _ _ _ E) as Hin.
  set (taken := fun n =>
    if decide (toLowerCase (suffixed name n) +:+ ".html" ∈ files)
    then toLowerCase (suffixed name n) +:+ ".html"
    else toLowerCase (suffixed name n) +:+ ".xhtml").
  set (cands := taken <$> seq 1 (S (size files))).
  assert (NoDup cands) as Hnd.
  { apply NoDup_fmap_2_strong; [|apply NoDup_seq].
    intros n m _ _. unfold taken. repeat case_decide; intros E'.
    - by apply suffixed_lower_inj in E'.
    - by apply html_xhtml_neq in E'.
    - symmetry in E'. by apply html_xhtml_neq in E'.
    - by apply suffixed_lower_inj in E'. }
  assert (list_to_set cands ⊆ files) as Hsub.
  { intros x [y [-> Hy]]%elem_of_list_to_set%list_elem_of_fmap.
    apply elem_of_seq in Hy. unfold taken. case_decide; [done|].
    destruct (Hin y) as [?|?]; [lia|done|done]. }
  apply subseteq_size in Hsub.
  rewrite size_list_to_set in Hsub by done.
  unfold cands in Hsub. rewrite length_fmap, length_seq in Hsub. lia.
Qed.

Lemma session_files_set_ne t t' f ci :
  t <> t' -> session_files t' (set_files t f ci) = session_files t' ci.
Proof.
  intros. unfold session_files, get_session, set_files.
  by rewrite lookup_insert_ne.
Qed.

Lemma session_files_ensure_any t t' ci :
  session_files t' (ensure_session t ci) = session_files t' ci.
Proof.
  unfold session_files, get_session, ensure_session.
  destruct (ci !! t) eqn:E; [done|].
  destruct (decide (t = t')) as [<-|]; [by rewrite lookup_insert_eq, E|].
  by rewrite lookup_insert_ne.
Qed.

(** [registerDocument] returns; the name returned is the first of the
    candidates [name], [name_1], [name_2], ... that is free with both
    extensions, and both are taken afterwards. *)
Lemma registerDocument_allocates t m name ci :
  exists n ci',
    registerDocument (Settings t m (Some name)) ci
      = Some (Returns (document_candidate name n), ci')
    /\ (toLowerCase (document_candidate name n) +:+ ".html" ∉ session_files t ci)
    /\ (toLowerCase (document_candidate name n) +:+ ".xhtml" ∉ session_files t ci)
    /\ (forall k, (k < n)%nat ->
          toLowerCase (document_candidate name k) +:+ ".html" ∈ session_files t ci
          \/ toLowerCase (document_candidate name k) +:+ ".xhtml" ∈ session_files t ci)
    /\ session_files t ci'
       = {[ toLowerCase (document_candidate name n) +:+ ".xhtml" ]}
           ∪ ({[ toLowerCase (document_candidate name n) +:+ ".html" ]}
                ∪ session_files t ci)
    /\ (forall t', t <> t' -> session_files t' ci' = session_files t' ci).
Proof.
  unfold registerDocument. cbn [timeId documentName].
  rewrite session_files_ensure.
  destruct (uniquify_document_terminates (session_files t ci) name name) as [r Hr].
  rewrite Hr.
  apply uniquify_document_Some in Hr as (Hh & Hx & Hr).
  assert (exists n, r = document_candidate name n
    /\ forall k, (k < n)%nat ->
         toLowerCase (document_candidate name k) +:+ ".html" ∈ session_files t ci
         \/ toLowerCase (document_candidate name k) +:+ ".xhtml" ∈ session_files t ci)
    as (n & -> & Hmin).
  { destruct Hr as [->|(n & ? & -> & Hcur & Hk)].
    - exists 0%nat. split; [done|]. intros k ?. lia.
    - exists n. split; [by destruct n; [lia|]|].
      intros [|k] ?; [done|]. apply Hk. lia. }
  eexists n, _. split; [reflexivity|].
  rewrite !session_files_set.
  repeat split; try done.
  intros t' Ht. by rewrite !session_files_set_ne, session_files_ensure_any.
Qed.

Lemma getUniqueFilename_frame t t' name ci r ci' :
  getUniqueFilename t name ci = Some (r, ci') -> t <> t' ->
  session_files t' ci' = session_files t' ci.
Proof.
  unfold getUniqueFilename.
  destruct (filenameParts _) as [base ext].
  destruct (uniquify _ _ _ _ _ _); [|discriminate].
  intros [= <- <-] Ht.
  by rewrite session_files_set_ne, session_files_ensure_any.
Qed.

Lemma uniquify_first_free fuel files base ext count cur r :
  uniquify fuel files base ext count cur = Some r ->
  r = cur
  \/ exists n, (count < n)%nat /\ r = numbered base ext n
       /\ toLowerCase cur ∈ files
       /\ forall k, (count < k < n)%nat -> toLowerCase (numbered base ext k) ∈ files.
Proof.
  revert count cur. induction fuel as [|fuel IH]; intros count cur; simpl.
  - case_decide; [discriminate|]. intros [= <-]. auto.
  - case_decide; [|intros [= <-]; auto].
    intros Hr. apply IH in Hr. right.
    destruct Hr as [->|(n & ? & -> & Hcur & Hk)].
    + exists (S count). repeat split; [lia|done|]. intros k ?. lia.
    + exists n. repeat split; [lia|done|]. intros k ?.
      destruct (decide (k = S count)) as [->|]; [done|]. apply Hk. lia.
Qed.

(** For an ASCII name lower-casing goes through the extension of a
    document.  For other names it need not: the lower case of a
    letter can depend on what follows it, as for a capital sigma at
    the end of a word. *)
Lemma toLowerCase_html (r : string) :
  Js.is_ascii r = true -> toLowerCase (r +:+ ".html") = toLowerCase r +:+ ".html".
Proof. intros Hr. by rewrite toLowerCase_ascii_app. Qed.

Lemma toLowerCase_xhtml (r : string) :
  Js.is_ascii r = true -> toLowerCase (r +:+ ".xhtml") = toLowerCase r +:+ ".xhtml".
Proof. intros Hr. by rewrite toLowerCase_ascii_app. Qed.

Lemma is_ascii_document_candidate (name : string) (n : nat) :
  Js.is_ascii name = true -> Js.is_ascii (document_candidate name n) = true.
Proof.
  intros Hn. destruct n; [done|]. unfold document_candidate, suffixed.
  by rewrite !is_ascii_app, Hn, is_ascii_number.
Qed.

End NameFacts.

Section NameTheorems.
Context `{Scrapbook}.

(** X1. [registerDocument] always returns when [settings.documentName]
    is given.  The name returned is the name asked for or that name
    with [_N] (N = 1, 2, ...) appended; it is the name asked for
    whenever that name is free; in lower case and with either of the
    extensions [.html] and [.xhtml] it was not in the session's name
    set before the call, and both are in the set afterwards, which
    has grown by exactly these two names. *)
Theorem registerDocument_reserves
    (t : string) (m : bool) (name : string) (ci : gmap string session) :
  exists r ci',
    registerDocument (Settings t m (Some name)) ci = Some (Returns r, ci')
    /\ (r = name \/ exists n : nat, (1 <= n)%nat /\ r = suffixed name n)
    /\ ((toLowerCase name +:+ ".html" ∉ session_files t ci)
        /\ (toLowerCase name +:+ ".xhtml" ∉ session_files t ci) -> r = name)
    /\ (toLowerCase r +:+ ".html" ∉ session_files t ci)
    /\ (toLowerCase r +:+ ".xhtml" ∉ session_files t ci)
    /\ session_files t ci'
       = {[ toLowerCase r +:+ ".xhtml" ]}
           ∪ ({[ toLowerCase r +:+ ".html" ]} ∪ session_files t ci).
Proof.
  destruct (registerDocument_allocates t m name ci)
    as (n & ci' & E & Hh & Hx & Hmin & Hfiles & _).
  exists (document_candidate name n), ci'. repeat split; try done.
  - destruct n; [by left|right]. exists (S n). split; [lia|done].
  - intros [Hfh Hfx]. destruct n; [done|].
    destruct (Hmin 0%nat) as [?|?]; [lia|done|done].
Qed.

(** X2. [getUniqueFilename] tries the name asked for (cropped) first
    and then the names numbered 1, 2, ... in this order: it returns
    the first candidate whose lower-case form is not in the session's
    name set, so the name asked for comes back unchanged when it is
    free, and a number is skipped only if it is taken. *)
Theorem getUniqueFilename_first_free
    (t : string) (filename : option string) (ci : gmap string session) :
  exists (n : nat) ci',
    getUniqueFilename t filename ci
      = Some (file_candidate (alloc_base filename) (alloc_ext filename) n, ci')
    /\ (toLowerCase (file_candidate (alloc_base filename) (alloc_ext filename) n)
          ∉ session_files t ci)
    /\ forall k, (k < n)%nat ->
         toLowerCase (file_candidate (alloc_base filename) (alloc_ext filename) k)
           ∈ session_files t ci.
Proof.
  unfold getUniqueFilename, alloc_base, alloc_ext.
  destruct (filenameParts (Js.or_default filename "untitled")) as [base ext].
  cbv beta match zeta delta [fst snd].
  set (ext' := match ext with EmptyString => "" | _ => "." +:+ ext end).
  set (base' := crop (crop base 240 true) 128 false).
  replace (match ext with EmptyString => "" | String a e => "." +:+ String a e end)
    with ext' by (by destruct ext).
  rewrite session_files_ensure.
  destruct (uniquify_terminates (session_files t ci) base' ext' (base' +:+ ext'))
    as [r Hr].
  rewrite Hr.
  pose proof (uniquify_Some _ _ _ _ _ _ _ Hr) as [Hfree _].
  apply uniquify_first_free in Hr.
  destruct Hr as [->|(n & ? & -> & Hcur & Hk)].
  - exists 0%nat. eexists. split; [reflexivity|]. split; [done|]. intros k ?. lia.
  - exists n. eexists. split; [by destruct n; [lia|]|].
    split; [by destruct n; [lia|]|].
    intros [|k] ?; [done|]. apply Hk. lia.
Qed.

Lemma serve_spec (req : name_request) (ci : gmap string session) :
  exists ns ci',
    serve req ci = Some (ns, ci')
    /\ (forall t, session_files t ci ⊆ session_files t ci')
    /\ (ascii_document req ->
        NoDup (prod_map id toLowerCase <$> ns)
        /\ Forall (fun '(t, n) =>
             (toLowerCase n ∉ session_files t ci)
             /\ toLowerCase n ∈ session_files t ci') ns).
Proof.
  destruct req as [t name|[t m [name|]]]; simpl.
  - destruct (getUniqueFilename_allocates t name ci)
      as (r & ci' & E & _ & Hfree & Hfiles).
    rewrite E. simpl. exists [(t, r)], ci'. split; [done|].
    split.
    + intros t'. destruct (decide (t = t')) as [<-|Ht].
      * rewrite Hfiles. apply union_subseteq_r.
      * by rewrite (getUniqueFilename_frame _ _ _ _ _ _ E Ht).
    + intros _. split; [apply NoDup_singleton|].
      constructor; [|done]. split; [done|]. rewrite Hfiles.
      apply elem_of_union. left. by apply elem_of_singleton.
  - destruct (registerDocument_allocates t m name ci)
      as (n & ci' & E & Hh & Hx & _ & Hfiles & Hframe).
    rewrite E. simpl. eexists _, ci'. split; [done|].
    split.
    { intros t'. destruct (decide (t = t')) as [<-|Ht].
      + rewrite Hfiles. etrans; [|apply union_subseteq_r]. apply union_subseteq_r.
      + by rewrite Hframe. }
    intros Hascii. specialize (Hascii name eq_refl).
    pose proof (is_ascii_document_candidate name n Hascii) as Hr.
    split.
    { simpl. unfold prod_map. simpl.
      rewrite (toLowerCase_html _ Hr), (toLowerCase_xhtml _ Hr).
      apply NoDup_cons. split; [|apply NoDup_singleton].
      intros [= E']%list_elem_of_singleton. by apply html_xhtml_neq in E'. }
    repeat constructor;
      rewrite ?Hfiles, ?(toLowerCase_html _ Hr), ?(toLowerCase_xhtml _ Hr);
      try done.
    + apply elem_of_union. right. apply elem_of_union. left.
      by apply elem_of_singleton.
    + apply elem_of_union. left. by apply elem_of_singleton.
  - unfold registerDocument. simpl. eexists [], _. split; [done|].
    split; [|intros _; split; constructor].
    intros t'. destruct (decide (t = t')) as [<-|Ht].
    + by rewrite session_files_set, session_files_ensure.
    + by rewrite session_files_set_ne, session_files_ensure_any.
Qed.

(** X3. Whatever file names ([getUniqueFilename]) and document names
    ([registerDocument]) are asked for, in whatever order and for
    whatever sessions, every call returns.  When the document names
    asked for are made of ASCII characters, no two names taken in one
    session are equal when compared case-insensitively: neither two
    files, nor a file and a document with either of its extensions
    [.html] and [.xhtml], nor two documents; none of them was in the
    session's name set before (for a session without name set: none
    is a reserved name), and all of them are in it afterwards.  The
    file names are arbitrary.  (For a document name with letters
    outside ASCII the script reserves the lower-case name followed by
    the extension, which need not be the lower-case form of the file
    name of the document.) *)
Theorem names_never_collide (reqs : list name_request) (ci : gmap string session) :
  exists ns ci',
    serve_all reqs ci = Some (ns, ci')
    /\ (Forall ascii_document reqs ->
        NoDup (prod_map id toLowerCase <$> ns)
        /\ NoDup (prod_map id Js.toLowerCase <$> ns)
        /\ Forall (fun '(t, n) =>
             (toLowerCase n ∉ session_files t ci)
             /\ toLowerCase n ∈ session_files t ci') ns).
Proof.
  cut (exists ns ci',
    serve_all reqs ci = Some (ns, ci')
    /\ (forall t, session_files t ci ⊆ session_files t ci')
    /\ (Forall ascii_document reqs ->
        NoDup (prod_map id toLowerCase <$> ns)
        /\ Forall (fun '(t, n) =>
             (toLowerCase n ∉ session_files t ci)
             /\ toLowerCase n ∈ session_files t ci') ns)).
  { intros (ns & ci' & ? & _ & Hall). exists ns, ci'. split; [done|].
    intros Hreqs. destruct (Hall Hreqs) as [Hnd ?]. split; [done|]. split; [|done].
    clear -Hnd. induction ns as [|[t n] ns IH]; simpl; [constructor|].
    simpl in Hnd. apply NoDup_cons in Hnd as [Hn Hnd].
    constructor; [|by apply IH].
    intros ([t' n'] & [= -> E] & Hn')%list_elem_of_fmap. apply Hn.
    apply list_elem_of_fmap. exists (t', n'). split; [|done].
    unfold prod_map. simpl. f_equal. by apply toLowerCase_same_fold. }
  revert ci. induction reqs as [|req reqs IH]; intros ci; simpl.
  - exists [], ci. repeat split; try constructor. done.
  - destruct (serve_spec req ci) as (ns & ci1 & E1 & Hsub1 & Hspec1).
    destruct (IH ci1) as (ms & ci' & E2 & Hsub2 & Hspec2).
    rewrite E1. simpl. rewrite E2. simpl.
    exists (ns ++ ms), ci'. split; [done|].
    split; [intros t; etrans; [apply Hsub1|apply Hsub2]|].
    intros [Hreq Hreqs]%Forall_cons.
    destruct (Hspec1 Hreq) as [Hnd1 Hall1], (Hspec2 Hreqs) as [Hnd2 Hall2].
    rewrite Forall_forall in Hall1, Hall2.
    split.
    { rewrite fmap_app. apply NoDup_app. split; [done|]. split; [|done].
      intros [t n] ([t1 n1] & [= -> En1] & Hin1)%list_elem_of_fmap
                   ([t2 n2] & [= -> En2] & Hin2)%list_elem_of_fmap.
      simpl in *.
      apply Hall1 in Hin1 as [_ Hin1]. apply Hall2 in Hin2 as [Hout2 _].
      apply Hout2. by rewrite <- En2, En1. }
    apply Forall_app. split; apply Forall_forall; intros [t n] Hin.
    + apply Hall1 in Hin as [? ?]. split; [done|]. by apply Hsub2.
    + apply Hall2 in Hin as [Hout ?]. split; [|done].
      intros ?. apply Hout. by apply Hsub1.
Qed.

End NameTheorems.

(** ** Download coordinator *)

Lemma elem_of_remove_first (x y : nat) (l : list nat) :
  x <> y -> y ∈ l -> y ∈ remove_first x l.
Proof.
  intros Hne. induction l as [|z l IH]; simpl; [done|].
  intros [->|Hin]%elem_of_cons.
  - case_decide; [done|]. apply elem_of_cons. by left.
  - case_decide; [done|]. apply elem_of_cons. right. auto.
Qed.

Section CoordinatorFacts.
Context `{Scrapbook}.

Lemma kept_refl i c : kept i c c.
Proof. by repeat split. Qed.

Lemma kept_trans i c1 c2 c3 : kept i c1 c2 -> kept i c2 c3 -> kept i c1 c3.
Proof.
  intros (?&?&?&?&?) (?&?&?&?&?). repeat split; try congruence; auto.
Qed.

Lemma callbacks_of_invoke i j v c :
  callbacks_of i (invoke j v c)
  = callbacks_of i c ++ (if decide (j = i) then [v] else []).
Proof.
  unfold callbacks_of, invoke. simpl. rewrite filter_app, fmap_app. f_equal.
  case_decide.
  - by rewrite filter_cons_True.
  - by rewrite filter_cons_False.
Qed.

Lemma erasures_of_snoc i j c l s e cb r :
  erasures_of i (Coordinator l s e cb r (erased c ++ [j]))
  = (erasures_of i c + (if decide (j = i) then 1 else 0))%nat.
Proof.
  unfold erasures_of. simpl. rewrite filter_app, length_app. f_equal.
  case_decide.
  - by rewrite filter_cons_True.
  - by rewrite filter_cons_False.
Qed.

Lemma invoke_kept i j v c : j <> i -> kept i c (invoke j v c).
Proof.
  intros. repeat split; try done.
  rewrite callbacks_of_invoke. case_decide; [done|]. apply app_nil_r.
Qed.

Lemma finish_kept i j c : j <> i -> kept i c (finish j c).
Proof.
  intros Hne. unfold finish.
  destruct (downloadInfo c !! j) as [info|]; [|apply kept_refl].
  destruct (di_autoErase info); repeat split; simpl; try done.
  - rewrite erasures_of_snoc. case_decide; [done|]. lia.
  - intros ?. apply elem_of_app. by left.
  - by rewrite lookup_delete_ne.
Qed.

(** An event that does not concern a download leaves it alone. *)
Lemma coordinate_kept i c ev : about i ev = false -> kept i c (coordinate c ev).
Proof.
  destruct ev as [[[|j]|] e info|d|j results|j]; cbn [about coordinate];
    intros Hne; apply bool_decide_eq_false in Hne.
  - by repeat split.
  - repeat split; simpl; try done.
    rewrite lookup_insert_ne; [done|congruence].
  - by repeat split.
  - unfold onChanged.
    destruct (downloadInfo c !! dd_id d); [|apply kept_refl].
    case_bool_decide.
    + repeat split; simpl; try done. intros ?. apply elem_of_app. by left.
    + destruct (dd_error d); [|apply kept_refl].
      eapply kept_trans; [by apply invoke_kept|by apply finish_kept].
  - unfold search_answered. case_decide; [|apply kept_refl].
    cbv zeta. set (c0 := Coordinator _ (remove_first _ _) _ _ _ _).
    assert (kept i c c0) as K0.
    { repeat split; simpl; try done. by apply elem_of_remove_first. }
    eapply kept_trans; [exact K0|].
    eapply kept_trans; [|by apply finish_kept].
    destruct results; [apply kept_refl|].
    destruct (downloadInfo _ !! j); [|apply kept_refl].
    by apply invoke_kept.
  - unfold erase_answered. case_decide; [|apply kept_refl].
    repeat split; simpl; try done.
    + by rewrite lookup_delete_ne.
    + by apply elem_of_remove_first.
Qed.

Lemma coordinate_all_kept i c evs :
  Forall (fun ev => about i ev = false) evs -> kept i c (coordinate_all c evs).
Proof.
  revert c. induction evs as [|ev evs IH]; intros c Hall; [apply kept_refl|].
  apply Forall_cons in Hall as [Hev Hall]. simpl.
  eapply kept_trans; [by apply coordinate_kept|by apply IH].
Qed.

Lemma coordinate_all_app c evs1 evs2 :
  coordinate_all c (evs1 ++ evs2) = coordinate_all (coordinate_all c evs1) evs2.
Proof. apply foldl_app. Qed.

(** The end of the chain for a registered download, and the answer
    to the erasure if one was asked for. *)
Lemma finish_then_erase i info c rest :
  downloadInfo c !! i = Some info ->
  Forall (fun ev => about i ev = false) rest ->
  let c' := coordinate_all (finish i c)
              (rest ++ if di_autoErase info then [EraseAnswered i] else []) in
  downloadInfo c' !! i = None
  /\ callbacks_of i c' = callbacks_of i c
  /\ erasures_of i c' = (erasures_of i c + if di_autoErase info then 1 else 0)%nat.
Proof.
  intros Hi Hrest c'. unfold c'. clear c'. rewrite coordinate_all_app.
  pose proof (coordinate_all_kept i (finish i c) rest Hrest) as (K1 & K2 & K3 & _ & K5).
  revert K1 K2 K3 K5. generalize (coordinate_all (finish i c) rest). intros c1.
  unfold finish. rewrite Hi. destruct (di_autoErase info); simpl.
  - rewrite erasures_of_snoc. rewrite decide_True by done.
    intros K1 K2 K3 K5. unfold erase_answered.
    rewrite decide_True by (apply K5, elem_of_app; right; by apply list_elem_of_singleton).
    simpl. rewrite lookup_delete_eq. split; [done|]. split; [exact K2|exact K3].
  - rewrite lookup_delete_eq. intros K1 K2 K3 _.
    split; [done|]. split; [exact K2|]. rewrite K3.
    unfold erasures_of. simpl. lia.
Qed.

(** X4. Life of a download that completes.  After [saveUrl] has
    registered the download [i], once the listener has seen the
    change of [i] to the state [complete] and the search for [i] and,
    if the download was registered with [autoErase], the erasure of
    [i] have been answered, the entry of [i] is gone from
    [capturer.downloadInfo], whatever happens to other downloads in
    between.  [onComplete] was invoked exactly once, with the file
    name part of the path found, if the search found an item, and not
    at all if it found none; the erasure of [i] was asked for exactly
    once if [autoErase] was set, and not at all otherwise. *)
Theorem download_completes
    (c : coordinator) (i : nat) (lastError : exn) (info : download_info)
    (others1 others2 others3 : list download_event)
    (delta : download_delta) (results : list string) :
  i <> 0%nat ->
  dd_id delta = i ->
  current <$> dd_state delta = Some (Some "complete") ->
  Forall (fun ev => about i ev = false) (others1 ++ others2 ++ others3) ->
  let c' :=
    coordinate_all c
      ([DownloadStarted (Some i) lastError info] ++ others1
       ++ [DownloadChanged delta] ++ others2
       ++ [SearchAnswered i results] ++ others3
       ++ if di_autoErase info then [EraseAnswered i] else []) in
  downloadInfo c' !! i = None
  /\ callbacks_of i c'
     = callbacks_of i c
       ++ match results with
          | [] => []
          | item :: _ => [inr (filepathParts item).2]
          end
  /\ erasures_of i c' = (erasures_of i c + if di_autoErase info then 1 else 0)%nat.
Proof.
  intros Hi Hd Hstate Hothers c'. unfold c'. clear c'.
  apply Forall_app in Hothers as [H1 Hothers].
  apply Forall_app in Hothers as [H2 H3].
  destruct i as [|n]; [done|].
  rewrite !coordinate_all_app. cbn [coordinate_all foldl coordinate].
  set (c1 := download_started _ _ _ c).
  assert (downloadInfo c1 !! S n = Some info
          /\ callbacks_of (S n) c1 = callbacks_of (S n) c
          /\ erasures_of (S n) c1 = erasures_of (S n) c) as (I1 & C1 & E1).
  { unfold c1. simpl. by rewrite lookup_insert_eq. }
  clearbody c1.
  pose proof (coordinate_all_kept (S n) c1 others1 H1) as (K1 & K2 & K3 & _ & _).
  set (c2 := coordinate_all c1 others1) in *. clearbody c2.
  rewrite I1 in K1. rewrite C1 in K2. rewrite E1 in K3. clear c1 I1 C1 E1.
  set (c3 := onChanged delta c2).
  assert (downloadInfo c3 !! S n = Some info
          /\ callbacks_of (S n) c3 = callbacks_of (S n) c
          /\ erasures_of (S n) c3 = erasures_of (S n) c
          /\ S n ∈ searches c3) as (I3 & C3 & E3 & S3).
  { unfold c3, onChanged. rewrite Hd, K1, bool_decide_eq_true_2 by done.
    simpl. repeat split; try done.
    apply elem_of_app. right. by apply list_elem_of_singleton. }
  clearbody c3. clear c2 K1 K2 K3.
  pose proof (coordinate_all_kept (S n) c3 others2 H2) as (K1 & K2 & K3 & K4 & _).
  set (c4 := coordinate_all c3 others2) in *. clearbody c4.
  rewrite I3 in K1. rewrite C3 in K2. rewrite E3 in K3. apply K4 in S3.
  clear c3 I3 C3 E3 K4.
  unfold search_answered. rewrite decide_True by done.
  cbn [downloadInfo]. rewrite K1. cbv zeta.
  set (c5 := match results with [] => _ | _ => _ end).
  assert (downloadInfo c5 !! S n = Some info
          /\ callbacks_of (S n) c5
             = callbacks_of (S n) c
               ++ match results with
                  | [] => []
                  | item :: _ => [inr (filepathParts item).2]
                  end
          /\ erasures_of (S n) c5 = erasures_of (S n) c) as (I5 & C5 & E5).
  { unfold c5. destruct results as [|item results].
    - split; [exact K1|]. split; [|exact K3]. rewrite app_nil_r. exact K2.
    - split; [exact K1|]. split; [|exact K3].
      rewrite callbacks_of_invoke, decide_True by done. f_equal. exact K2. }
  clearbody c5.
  rewrite <- coordinate_all_app.
  destruct (finish_then_erase (S n) info c5 others3 I5 H3) as (F1 & F2 & F3).
  split; [exact F1|]. split; [by rewrite F2|by rewrite F3, E5].
Qed.

(** X5. Life of a download that fails.  After [saveUrl] has
    registered the download [i], once the listener has seen a change
    of [i] that carries an error and is not the change to [complete]
    and, if the download was registered with [autoErase], the erasure
    of [i] has been answered, the entry of [i] is gone from
    [capturer.downloadInfo], whatever happens to other downloads in
    between; [onError] was invoked exactly once, with an [Error]
    whose message is the error code, and the erasure of [i] was asked
    for exactly once if [autoErase] was set, and not at all otherwise. *)
Theorem download_fails
    (c : coordinator) (i : nat) (lastError : exn) (info : download_info)
    (others1 others2 : list download_event)
    (delta : download_delta) (error : string_delta) :
  i <> 0%nat ->
  dd_id delta = i ->
  current <$> dd_state delta <> Some (Some "complete") ->
  dd_error delta = Some error ->
  Forall (fun ev => about i ev = false) (others1 ++ others2) ->
  let c' :=
    coordinate_all c
      ([DownloadStarted (Some i) lastError info] ++ others1
       ++ [DownloadChanged delta] ++ others2
       ++ if di_autoErase info then [EraseAnswered i] else []) in
  downloadInfo c' !! i = None
  /\ callbacks_of i c' = callbacks_of i c ++ [inl (new_Error (current error))]
  /\ erasures_of i c' = (erasures_of i c + if di_autoErase info then 1 else 0)%nat.
Proof.
  intros Hi Hd Hstate Herr Hothers c'. unfold c'. clear c'.
  apply Forall_app in Hothers as [H1 H2].
  destruct i as [|n]; [done|].
  rewrite !coordinate_all_app. cbn [coordinate_all foldl coordinate].
  set (c1 := download_started _ _ _ c).
  assert (downloadInfo c1 !! S n = Some info
          /\ callbacks_of (S n) c1 = callbacks_of (S n) c
          /\ erasures_of (S n) c1 = erasures_of (S n) c) as (I1 & C1 & E1).
  { unfold c1. simpl. by rewrite lookup_insert_eq. }
  clearbody c1.
  pose proof (coordinate_all_kept (S n) c1 others1 H1) as (K1 & K2 & K3 & _ & _).
  set (c2 := coordinate_all c1 others1) in *. clearbody c2.
  rewrite I1 in K1. rewrite C1 in K2. rewrite E1 in K3. clear c1 I1 C1 E1.
  unfold onChanged. rewrite Hd, K1, bool_decide_eq_false_2, Herr by done.
  set (c3 := invoke _ _ c2).
  assert (downloadInfo c3 !! S n = Some info
          /\ callbacks_of (S n) c3
             = callbacks_of (S n) c ++ [inl (new_Error (current error))]
          /\ erasures_of (S n) c3 = erasures_of (S n) c) as (I3 & C3 & E3).
  { unfold c3. split; [exact K1|]. split; [|exact K3].
    rewrite callbacks_of_invoke, decide_True by done. f_equal. exact K2. }
  clearbody c3.
  rewrite <- coordinate_all_app.
  destruct (finish_then_erase (S n) info c3 others2 I3 H2) as (F1 & F2 & F3).
  split; [exact F1|]. split; [by rewrite F2|by rewrite F3, E3].
Qed.

Lemma accounted_mono evs ev c : accounted evs c -> accounted (evs ++ [ev]) c.
Proof.
  intros (A1 & A2 & A3). repeat split.
  - intros i info Hi. destruct (A1 i info Hi) as [e ?]. exists e.
    apply elem_of_app. by left.
  - intros i Hi. destruct (A2 i Hi) as (e & info & ? & ?). exists e, info.
    split; [|done]. apply elem_of_app. by left.
  - intros i v Hi. destruct (A3 i v Hi) as (e & info & ?). exists e, info.
    apply elem_of_app. by left.
Qed.

Lemma invoke_accounted evs i v c :
  is_Some (downloadInfo c !! i) -> accounted evs c -> accounted evs (invoke i v c).
Proof.
  intros [info Hi] (A1 & A2 & A3). repeat split; simpl; try done.
  intros j w [Hin|[= -> ->]%list_elem_of_singleton]%elem_of_app; [eauto|].
  destruct (A1 _ _ Hi) as [e ?]. eauto.
Qed.

Lemma finish_accounted evs i c : accounted evs c -> accounted evs (finish i c).
Proof.
  intros (A1 & A2 & A3). unfold finish.
  destruct (downloadInfo c !! i) as [info|] eqn:Hi; [|done].
  destruct (di_autoErase info) eqn:Ha; repeat split; simpl; try done.
  - intros j [Hin| ->%list_elem_of_singleton]%elem_of_app; [eauto|].
    destruct (A1 _ _ Hi) as [e ?]. eauto.
  - intros j info' [_ Hj]%lookup_delete_Some. eauto.
Qed.

Lemma coordinate_accounted evs ev c :
  accounted evs c -> accounted (evs ++ [ev]) (coordinate c ev).
Proof.
  intros A. apply (accounted_mono _ ev) in A.
  assert (ev ∈ evs ++ [ev]) as Hev.
  { apply elem_of_app. right. by apply list_elem_of_singleton. }
  revert A Hev. generalize (evs ++ [ev]). intros evs' A Hev.
  destruct ev as [[[|j]|] e info|d|j results|j]; cbn [coordinate].
  - destruct A as (A1 & A2 & A3). by repeat split.
  - destruct A as (A1 & A2 & A3). repeat split; simpl; try done.
    intros i info' [[<- <-]|[_ Hi]]%lookup_insert_Some; eauto.
  - destruct A as (A1 & A2 & A3). by repeat split.
  - unfold onChanged.
    destruct (downloadInfo c !! dd_id d) eqn:Hd; [|done].
    case_bool_decide.
    + destruct A as (A1 & A2 & A3). by repeat split.
    + destruct (dd_error d); [|done].
      apply finish_accounted, invoke_accounted; [by rewrite Hd|done].
  - unfold search_answered. case_decide; [|done]. cbv zeta.
    apply finish_accounted.
    set (c0 := Coordinator _ (remove_first _ _) _ _ _ _).
    assert (accounted evs' c0) as A0.
    { destruct A as (A1 & A2 & A3). by repeat split. }
    destruct results; [done|].
    destruct (downloadInfo c0 !! j) eqn:Hj; [|done].
    apply invoke_accounted; [by rewrite Hj|done].
  - unfold erase_answered. case_decide; [|done].
    destruct A as (A1 & A2 & A3). repeat split; simpl; try done.
    intros i info [_ Hi]%lookup_delete_Some. eauto.
Qed.

Lemma coordinate_all_accounted evs : accounted evs (coordinate_all idle evs).
Proof.
  induction evs as [|ev evs IH] using rev_ind.
  - repeat split; simpl.
    + intros i info. by rewrite lookup_empty.
    + intros i Hi. by apply elem_of_nil in Hi.
    + intros i v Hi. by apply elem_of_nil in Hi.
  - rewrite coordinate_all_app. simpl. by apply coordinate_accounted.
Qed.

(** X6. Whatever the download subsystem reports and in whatever
    order, starting with an empty registry, the coordinator acts only
    on downloads the script has started: every entry of
    [capturer.downloadInfo] was registered by [saveUrl] as it is,
    a callback [onComplete] or [onError] is invoked only for a
    registered download, and the erasure from the download history is
    asked for only for a download that was registered with
    [autoErase] set.  So a download only ever registered without
    [autoErase] is never erased. *)
Theorem coordinator_erases_only_flagged (evs : list download_event) :
  (forall i info, downloadInfo (coordinate_all idle evs) !! i = Some info ->
     exists e, DownloadStarted (Some i) e info ∈ evs)
  /\ (forall i v, (i, v) ∈ callbacks (coordinate_all idle evs) ->
        exists e info, DownloadStarted (Some i) e info ∈ evs)
  /\ (forall i, i ∈ erased (coordinate_all idle evs) ->
        exists e info, DownloadStarted (Some i) e info ∈ evs
                       /\ di_autoErase info = true)
  /\ (forall i,
        (forall e info, DownloadStarted (Some i) e info ∈ evs ->
                        di_autoErase info = false) ->
        i ∉ erased (coordinate_all idle evs)).
Proof.
  destruct (coordinate_all_accounted evs) as (A1 & A2 & A3).
  repeat split; try done.
  intros i Hno Hin. destruct (A2 i Hin) as (e & info & Hev & Ha).
  apply Hno in Hev. congruence.
Qed.

End CoordinatorFacts.

(** ** Access deduplicator: names, sessions, redirects *)

Section SessionFrame.

Lemma files_ensure t t' ci :
  files (get_session t (ensure_session t' ci)) = files (get_session t ci).
Proof.
  unfold ensure_session. destruct (ci !! t') eqn:E; [done|].
  rewrite get_session_insert. case_decide; [subst|done].
  unfold get_session. by rewrite E.
Qed.

Lemma files_set_accessMap t t' m ci :
  files (get_session t (set_accessMap t' m ci)) = files (get_session t ci).
Proof.
  unfold set_accessMap. rewrite get_session_insert. case_decide; by subst.
Qed.

Lemma files_register t t' k p ci :
  files (get_session t (register t' k p ci)) = files (get_session t ci).
Proof. apply files_set_accessMap. Qed.

Lemma session_files_set_accessMap t t' m ci :
  session_files t (set_accessMap t' m ci) = session_files t ci.
Proof. unfold session_files. by rewrite files_set_accessMap. Qed.

Lemma session_files_register t t' k p ci :
  session_files t (register t' k p ci) = session_files t ci.
Proof. unfold session_files. by rewrite files_register. Qed.

End SessionFrame.

Section NamedAccesses.
Context `{Scrapbook}.

(** One access, [p0], is added or changed; it keeps its session and
    name, or has no name, or has a name that was free. *)
Lemma named_step w ci' l' p0 :
  named w ->
  (forall t, session_files t (captureInfo w) ⊆ session_files t ci') ->
  (forall p, p <> p0 -> l' !! p = promises w !! p) ->
  (forall a', l' !! p0 = Some a' ->
     (forall x, a_xhr a' = Some x -> x_state x = Opened -> a_filename a' = None)
     /\ ((exists a, promises w !! p0 = Some a /\ session_of a' = session_of a
                    /\ stored_name a' = stored_name a)
         \/ stored_name a' = None
         \/ exists f, stored_name a' = Some f
              /\ (toLowerCase f ∉ session_files (session_of a') (captureInfo w))
              /\ toLowerCase f ∈ session_files (session_of a') ci')) ->
  named (World ci' l') /\ extends w (World ci' l').
Proof.
  intros (N1 & N2 & N3) Hmono Hold Hnew.
  assert (forall p a f, l' !! p = Some a -> stored_name a = Some f ->
            toLowerCase f ∈ session_files (session_of a) ci'
            /\ ((exists b, promises w !! p = Some b /\ session_of a = session_of b
                           /\ stored_name b = Some f)
                \/ (p = p0
                    /\ toLowerCase f ∉ session_files (session_of a) (captureInfo w))))
    as Hcase.
  { intros p a f Ha Hf. destruct (decide (p = p0)) as [->|Hp].
    - destruct (Hnew a Ha) as [_ [(b & Hb & Hs & Hn)|[Hn|(g & Hg & Hfree & Hin)]]].
      + rewrite Hn in Hf. split.
        * rewrite Hs. by eapply Hmono, N1.
        * left. eauto.
      + congruence.
      + rewrite Hg in Hf. injection Hf as ->. split; [done|]. by right.
    - rewrite Hold in Ha by done. split.
      + by eapply Hmono, N1.
      + left. eauto. }
  split; [|split; [exact Hmono|]; cbn [promises captureInfo];
           intros p a f Ha Hf; destruct (Hcase p a f Ha Hf) as [Hin [?|[-> ?]]];
           [by left|right; by split]].
  split; [|split]; cbn [promises captureInfo].
  - intros p a f Ha Hf. by destruct (Hcase p a f Ha Hf).
  - intros p q a b f g Hpq Ha Hb Hs Hf Hg.
    destruct (Hcase p a f Ha Hf) as [_ [(a0 & Ha0 & Hsa & Hfa)|[-> Hfree]]],
             (Hcase q b g Hb Hg) as [_ [(b0 & Hb0 & Hsb & Hgb)|[-> Hfree']]].
    + eapply (N2 p q a0 b0); eauto. congruence.
    + intros E. apply Hfree'. rewrite <- E, <- Hs, Hsa. by eapply N1.
    + intros E. apply Hfree. rewrite E, Hs, Hsb. by eapply N1.
    + done.
  - intros p a x Ha Hx Hst. destruct (decide (p = p0)) as [->|Hp].
    + destruct (Hnew a Ha) as [Hn _]. by eapply Hn.
    + rewrite Hold in Ha by done. by eapply N3.
Qed.

Lemma determine_filename_names ps h ci f ci' :
  determine_filename ps h ci = Some (f, ci') ->
  (forall t, session_files t ci ⊆ session_files t ci')
  /\ (saveAs (p_options ps) <> "singleHtml" ->
      (toLowerCase f ∉ session_files (timeId (p_settings ps)) ci)
      /\ toLowerCase f ∈ session_files (timeId (p_settings ps)) ci').
Proof.
  unfold determine_filename. set (name := validateFilename _ _).
  case_bool_decide as Hmode; [by intros [= <- <-]|].
  intros E.
  destruct (getUniqueFilename_allocates (timeId (p_settings ps)) (Some name) ci)
    as (r & ci1 & E' & _ & Hfree & Hfiles).
  rewrite E' in E. injection E as <- <-.
  split.
  - intros t. destruct (decide (timeId (p_settings ps) = t)) as [<-|Ht].
    + rewrite Hfiles. apply union_subseteq_r.
    + by rewrite (getUniqueFilename_frame _ _ _ _ _ _ E' Ht).
  - intros _. split; [done|]. rewrite Hfiles.
    apply elem_of_union. left. by apply elem_of_singleton.
Qed.

Lemma executor_names op ps ci st x f ci' :
  match op with
  | OpDownloadFile => downloadFile_executor
  | OpCaptureUrl => captureUrl_executor
  end ps ci = Some (st, x, f, ci') ->
  (forall t, session_files t ci ⊆ session_files t ci')
  /\ (is_Some x -> f = None)
  /\ (forall name, f = Some name ->
        saveAs (p_options ps) <> "singleHtml"
        /\ (toLowerCase name ∉ session_files (timeId (p_settings ps)) ci)
        /\ toLowerCase name ∈ session_files (timeId (p_settings ps)) ci').
Proof.
  destruct op.
  - unfold downloadFile_executor.
    destruct (Js.startsWith "data:" _); [|by intros [= <- <- <- <-]].
    destruct (saveDataUriAsFile (p_options ps)); cbn [andb];
      [|by intros [= <- <- <- <-]].
    case_bool_decide as Hmode; cbn [negb]; [by intros [= <- <- <- <-]|].
    destruct (dataUriToFile _) as [[name file]|]; [|by intros [= <- <- <- <-]].
    set (v := validateFilename _ _).
    destruct (getUniqueFilename_allocates (timeId (p_settings ps)) (Some v) ci)
      as (r & ci1 & E' & _ & Hfree & Hfiles).
    rewrite E'. intros [= <- <- <- <-].
    split; [|split].
    + intros t. destruct (decide (timeId (p_settings ps) = t)) as [<-|Ht].
      * rewrite Hfiles. apply union_subseteq_r.
      * by rewrite (getUniqueFilename_frame _ _ _ _ _ _ E' Ht).
    + by intros [? ?].
    + intros ? [= <-]. split; [done|]. split; [done|]. rewrite Hfiles.
      apply elem_of_union. left. by apply elem_of_singleton.
  - unfold captureUrl_executor. by intros [= <- <- <- <-].
Qed.

Lemma request_named op ps w q w' :
  request op ps w = Some (q, w') -> named w -> named w' /\ extends w w'.
Proof.
  unfold request.
  set (tid := timeId (p_settings ps)).
  set (ci0 := set_accessMap tid _ _).
  assert (forall t, session_files t ci0 = session_files t (captureInfo w)) as H0.
  { intros t. unfold ci0.
    by rewrite session_files_set_accessMap, session_files_ensure_any. }
  destruct (_ !! getAccessToken _ _) as [q'|].
  - intros [= <- <-] N.
    apply (named_step w ci0 (promises w) (length (promises w))); try done.
    + intros t. by rewrite H0.
    + intros a' Ha'. apply lookup_lt_Some in Ha'. lia.
  - destruct (match op with
              | OpDownloadFile => downloadFile_executor
              | OpCaptureUrl => captureUrl_executor
              end ps ci0) as [[[[st x] f] ci1]|] eqn:E; [|done].
    apply executor_names in E as (Hmono & Hx & Hf).
    intros [= <- <-] N.
    apply (named_step w _ _ (length (promises w))); try done.
    + intros t. rewrite session_files_register, <- H0. apply Hmono.
    + intros p Hp. destruct (decide (p < length (promises w))%nat).
      * by rewrite lookup_app_l.
      * rewrite lookup_app_r by lia.
        rewrite (lookup_ge_None_2 (promises w)) by lia.
        destruct (p - length (promises w))%nat as [|k] eqn:Hk; [lia|done].
    + intros a'. rewrite lookup_app_r, Nat.sub_diag by lia. intros [= <-].
      split; [intros x' Hx' _; apply Hx; simpl in Hx'; by rewrite Hx'|].
      right. unfold stored_name, session_of. cbn [a_params a_filename].
      destruct f as [name|]; [|left; by case_bool_decide].
      destruct (Hf name eq_refl) as (Hmode & Hfree & Hin).
      right. exists name. rewrite bool_decide_eq_false_2 by done.
      split; [done|]. rewrite session_files_register, <- H0. done.
Qed.

Lemma update_named w ci' p a a' :
  promises w !! p = Some a ->
  (forall t, session_files t (captureInfo w) ⊆ session_files t ci') ->
  a_params a' = a_params a ->
  (forall x, a_xhr a' = Some x -> x_state x <> Opened) ->
  (a_filename a' = a_filename a
   \/ exists f, a_filename a' = Some f
        /\ (saveAs (p_options (a_params a)) <> "singleHtml" ->
            (toLowerCase f ∉ session_files (session_of a) (captureInfo w))
            /\ toLowerCase f ∈ session_files (session_of a) ci')) ->
  named w ->
  named (World ci' (<[p := a']> (promises w)))
  /\ extends w (World ci' (<[p := a']> (promises w))).
Proof.
  intros Ha Hmono Hps Hx Hf N.
  apply (named_step w ci' _ p); try done.
  - intros q Hq. by rewrite list_lookup_insert_ne.
  - intros b. rewrite list_lookup_insert_eq by (by eapply lookup_lt_Some).
    intros [= <-]. split; [intros x Hx' Hst; by apply Hx in Hx'|].
    unfold stored_name, session_of. rewrite Hps.
    destruct Hf as [Hf|(f & Hf & Hnew)].
    + left. exists a. by rewrite Hf.
    + right. case_bool_decide as Hmode; [by left|right].
      exists f. split; [done|]. by apply Hnew.
Qed.

Lemma set_xhr_state_not_opened st a x :
  st <> Opened -> a_xhr (set_xhr_state st a) = Some x -> x_state x <> Opened.
Proof.
  intros Hst. unfold set_xhr_state. simpl.
  destruct (a_xhr a); simpl; [|done]. by intros [= <-].
Qed.

Lemma step_named w ev o w' :
  step w ev = Some (o, w') -> named w -> named w' /\ extends w w'.
Proof.
  destruct ev as [ps|ps|p resp|p|p ex|p r]; simpl;
    intros E; apply fmap_Some in E as (r' & E & Hr).
  - destruct r'. injection Hr as -> ->. by eapply request_named.
  - destruct r'. injection Hr as -> ->. by eapply request_named.
  - injection Hr as -> ->. revert E. unfold onreadystatechange.
    destruct (promises w !! p) as [a|] eqn:Ha; [|done]. simpl.
    destruct (a_xhr a) as [x|] eqn:Hx; [|done]. simpl.
    case_bool_decide as Hopen; [|done]. simpl. intros E N.
    assert (a_filename a = None) as Hnone.
    { destruct N as (_ & _ & N3). by eapply N3. }
    set (ps := a_params a) in *. set (tid := timeId (p_settings ps)) in *.
    set (tok := getAccessToken _ _) in *.
    destruct (if negb _ then session_accessMap tid (captureInfo w) !! tok else None)
      as [q|].
    + injection E as <-. eapply update_named; try done.
      * unfold settle. by destruct (a_state a).
      * intros x'. by apply set_xhr_state_not_opened.
      * left. unfold settle. by destruct (a_state a).
    + set (ci1 := if negb _ then register tid tok p (captureInfo w) else captureInfo w)
        in *.
      assert (forall t, session_files t ci1 = session_files t (captureInfo w)) as H1.
      { intros t. unfold ci1. destruct (negb _); [|done].
        by rewrite session_files_register. }
      destruct (a_op a).
      * destruct (determine_filename _ _ _) as [[f ci2]|] eqn:Ef; [|done].
        injection E as <-.
        apply determine_filename_names in Ef as [Hmono Hfresh].
        eapply update_named; try done.
        -- intros t. rewrite <- H1. apply Hmono.
        -- intros x'. by apply set_xhr_state_not_opened.
        -- right. exists f. split; [done|]. intros Hmode.
           destruct (Hfresh Hmode) as [Hfree Hin]. fold ps. unfold session_of.
           fold ps. fold tid. by rewrite <- H1.
      * injection E as <-. eapply update_named; try done.
        -- intros t. by rewrite H1.
        -- intros x'. by apply set_xhr_state_not_opened.
        -- by left.
  - injection Hr as -> ->. revert E. unfold onload.
    destruct (promises w !! p) as [a|] eqn:Ha; [|done]. simpl.
    destruct (a_xhr a) as [x|] eqn:Hx; [|done]. simpl.
    case_bool_decide; [|done]. simpl. intros [= <-] N.
    eapply update_named; try done.
    + unfold settle. by destruct (a_state a).
    + intros x'. by apply set_xhr_state_not_opened.
    + left. unfold settle. by destruct (a_state a).
  - injection Hr as -> ->. revert E. unfold onerror.
    destruct (promises w !! p) as [a|] eqn:Ha; [|done]. simpl.
    destruct (a_xhr a) as [x|] eqn:Hx; [|done]. simpl.
    destruct (negb _); [done|]. intros [= <-] N.
    eapply update_named; try done.
    + unfold settle. by destruct (a_state a).
    + intros x'. by apply set_xhr_state_not_opened.
    + left. unfold settle. by destruct (a_state a).
  - injection Hr as -> ->. revert E. unfold packaged.
    destruct (promises w !! p) as [a|] eqn:Ha; [|done]. simpl.
    destruct (a_state a) eqn:Hst; try done. intros [= <-] N.
    apply (named_step w _ _ p); try done.
    + intros q Hq. by rewrite list_lookup_insert_ne.
    + intros b. rewrite list_lookup_insert_eq by (by eapply lookup_lt_Some).
      intros [= <-]. split.
      * intros x Hx Hopen. simpl in *. destruct N as (_ & _ & N3). eapply N3; eauto.
      * left. by exists a.
Qed.

Lemma run_named evs w outs w' : run w evs = Some (outs, w') -> named w -> named w'.
Proof.
  revert w outs. induction evs as [|ev evs IH]; intros w outs; simpl.
  - by intros [= _ <-].
  - destruct (step w ev) as [[o w1]|] eqn:E; [|done].
    destruct (run w1 evs) as [[os w2]|] eqn:E'; [|done].
    intros [= _ <-] N. eapply IH; [done|]. by eapply step_named.
Qed.

Lemma named_init : named init.
Proof.
  repeat split; simpl; intros *; by rewrite ?lookup_nil.
Qed.

(** X7. In every state the session model reaches, two accesses of
    one session that are not inline captures ([capture.saveAs] other
    than [singleHtml]) never store their resources under the same
    file name, compared case-insensitively: the lower-case forms
    ([toLowerCase]) of the two names differ, so that in particular
    the names are not equal up to the case of ASCII letters, whatever
    was asked for and in whatever order the transport answered; and
    the lower-case form of each name is in the session's name set. *)
Theorem stored_names_unique
    (w : world) (p q : nat) (a b : access) (f g : string) :
  reachable w ->
  p <> q ->
  promises w !! p = Some a -> promises w !! q = Some b ->
  session_of a = session_of b ->
  stored_name a = Some f -> stored_name b = Some g ->
  toLowerCase f <> toLowerCase g
  /\ Js.toLowerCase f <> Js.toLowerCase g
  /\ toLowerCase f ∈ session_files (session_of a) (captureInfo w)
  /\ toLowerCase g ∈ session_files (session_of a) (captureInfo w).
Proof.
  intros (evs & outs & Hrun) Hpq Ha Hb Hs Hf Hg.
  destruct (run_named _ _ _ _ Hrun named_init) as (N1 & N2 & _).
  assert (toLowerCase f <> toLowerCase g) as Hne by (by eapply (N2 p q a b)).
  split; [done|].
  split; [intros E; by apply Hne, toLowerCase_same_fold|].
  split; [by eapply N1|]. rewrite Hs. by eapply N1.
Qed.

End NamedAccesses.

Section SessionIsolation.
Context `{Scrapbook}.

Lemma ensure_session_ne t t' ci : t <> t' -> ensure_session t ci !! t' = ci !! t'.
Proof.
  intros. unfold ensure_session. destruct (ci !! t); [done|].
  by rewrite lookup_insert_ne.
Qed.

Lemma set_accessMap_ne t t' m ci : t <> t' -> set_accessMap t m ci !! t' = ci !! t'.
Proof. intros. unfold set_accessMap. by rewrite lookup_insert_ne. Qed.

Lemma register_ne t t' k p ci : t <> t' -> register t k p ci !! t' = ci !! t'.
Proof. intros. by apply set_accessMap_ne. Qed.

Lemma getUniqueFilename_ne t t' name ci r ci' :
  getUniqueFilename t name ci = Some (r, ci') -> t <> t' -> ci' !! t' = ci !! t'.
Proof.
  unfold getUniqueFilename.
  destruct (filenameParts _) as [base ext].
  destruct (uniquify _ _ _ _ _ _); [|discriminate].
  intros [= <- <-] Ht. unfold set_files.
  by rewrite lookup_insert_ne, ensure_session_ne.
Qed.

Lemma determine_filename_effect ps h ci f ci' :
  determine_filename ps h ci = Some (f, ci') ->
  (forall t, timeId (p_settings ps) <> t -> ci' !! t = ci !! t)
  /\ (saveAs (p_options ps) = "singleHtml" -> ci' = ci).
Proof.
  unfold determine_filename. case_bool_decide as Hmode.
  - by intros [= <- <-].
  - intros E. split; [|done]. intros t Ht. by eapply getUniqueFilename_ne.
Qed.

Lemma executor_effect op ps ci st x f ci' :
  match op with
  | OpDownloadFile => downloadFile_executor
  | OpCaptureUrl => captureUrl_executor
  end ps ci = Some (st, x, f, ci') ->
  (forall t, timeId (p_settings ps) <> t -> ci' !! t = ci !! t)
  /\ (saveAs (p_options ps) = "singleHtml" -> ci' = ci).
Proof.
  destruct op.
  - unfold downloadFile_executor.
    destruct (Js.startsWith "data:" _); [|by intros [= <- <- <- <-]].
    destruct (saveDataUriAsFile (p_options ps)); cbn [andb];
      [|by intros [= <- <- <- <-]].
    case_bool_decide as Hmode; cbn [negb]; [by intros [= <- <- <- <-]|].
    destruct (dataUriToFile _) as [[name file]|]; [|by intros [= <- <- <- <-]].
    destruct (getUniqueFilename _ _ _) as [[r ci1]|] eqn:E; [|done].
    intros [= <- <- <- <-]. split; [|done].
    intros t Ht. by eapply getUniqueFilename_ne.
  - unfold captureUrl_executor. by intros [= <- <- <- <-].
Qed.

Lemma request_changes op ps w q w' :
  request op ps w = Some (q, w') ->
  (forall t, timeId (p_settings ps) <> t -> captureInfo w' !! t = captureInfo w !! t)
  /\ (saveAs (p_options ps) = "singleHtml" ->
      forall t, files (get_session t (captureInfo w'))
                = files (get_session t (captureInfo w))).
Proof.
  unfold request.
  set (tid := timeId (p_settings ps)).
  set (ci0 := set_accessMap tid _ _).
  assert (forall t, tid <> t -> ci0 !! t = captureInfo w !! t) as H0.
  { intros t Ht. unfold ci0. by rewrite set_accessMap_ne, ensure_session_ne. }
  assert (forall t, files (get_session t ci0) = files (get_session t (captureInfo w)))
    as F0.
  { intros t. unfold ci0. by rewrite files_set_accessMap, files_ensure. }
  destruct (_ !! getAccessToken _ _) as [q'|].
  { intros [= <- <-]. cbn [captureInfo]. done. }
  destruct (match op with
            | OpDownloadFile => downloadFile_executor
            | OpCaptureUrl => captureUrl_executor
            end ps ci0) as [[[[st x] f] ci1]|] eqn:Ee; [|done].
  apply executor_effect in Ee as [Hne Hin].
  intros [= <- <-]. cbn [captureInfo]. split.
  - intros t Ht. by rewrite register_ne, Hne, H0.
  - intros Hmode t. by rewrite files_register, (Hin Hmode), F0.
Qed.

(** What one step changes: only the session of the event; no name
    set when the event is handled for an inline capture; and the
    accesses keep their parameters, a new one having those of the
    call. *)
Lemma step_changes w ev o w' :
  step w ev = Some (o, w') ->
  exists sess opts,
    event_session w ev = Some sess /\ event_options w ev = Some opts
    /\ (forall t, sess <> t -> captureInfo w' !! t = captureInfo w !! t)
    /\ (saveAs opts = "singleHtml" ->
        forall t, files (get_session t (captureInfo w'))
                  = files (get_session t (captureInfo w)))
    /\ (forall p a', promises w' !! p = Some a' ->
          (exists a, promises w !! p = Some a /\ a_params a' = a_params a)
          \/ exists op, call_of ev = Some (op, a_params a')).
Proof.
  intros E.
  assert (forall p a', promises w' !! p = Some a' ->
            (exists a, promises w !! p = Some a /\ a_params a' = a_params a)
            \/ exists op, call_of ev = Some (op, a_params a')) as Hparams.
  { destruct (call_of ev) as [[op ps]|] eqn:Hcall.
    - rewrite (step_call _ _ _ _ Hcall) in E.
      apply fmap_Some in E as ([q w1] & E & [= -> ->]).
      destruct (session_accessMap (timeId (p_settings ps)) (captureInfo w)
                  !! getAccessToken (splitUrlByAnchor (p_url ps)).1 (method_of op ps))
        as [q'|] eqn:Hq.
      + destruct (request_hit op ps w q' Hq) as (ci' & E' & _).
        rewrite E' in E. injection E as <- <-. intros p a' Ha'. left. by exists a'.
      + destruct (request_miss op ps w Hq) as (st & x & f & ci' & E' & _).
        rewrite E' in E. injection E as <- <-. cbn [promises].
        intros p a' [Ha'|[_ Ha']]%lookup_app_Some.
        * left. by exists a'.
        * apply list_lookup_singleton_Some in Ha' as [_ <-]. right. by exists op.
    - destruct (step_no_call _ _ _ _ E Hcall) as [_ Hlen].
      destruct (step_grows _ _ _ _ E) as [_ Hev].
      intros p a' Ha'. left.
      assert (is_Some (promises w !! p)) as [a Ha].
      { apply lookup_lt_is_Some. rewrite <- Hlen. by eapply lookup_lt_Some. }
      destruct (Hev p a Ha) as (b & Hb & (_ & Hps & _)).
      exists a. split; [done|]. congruence. }
  destruct ev as [ps|ps|p resp|p|p ex|p r]; cbn [step] in E;
    apply fmap_Some in E as (r' & E & Hr).
  - destruct r' as [q w1]. injection Hr as -> ->.
    exists (timeId (p_settings ps)), (p_options ps).
    split; [done|]. split; [done|].
    apply request_changes in E as [? ?]. by repeat split.
  - destruct r' as [q w1]. injection Hr as -> ->.
    exists (timeId (p_settings ps)), (p_options ps).
    split; [done|]. split; [done|].
    apply request_changes in E as [? ?]. by repeat split.
  - injection Hr as ? ?; subst o r'. revert E. unfold onreadystatechange.
    destruct (promises w !! p) as [a|] eqn:Ha; [|done]. cbn [mbind option_bind].
    destruct (a_xhr a) as [x|] eqn:Hx; [|done]. cbn [mbind option_bind].
    case_bool_decide as Hopen; [|done]. cbn [negb].
    intros E. exists (session_of a), (p_options (a_params a)).
    cbn [event_session event_options]. rewrite Ha.
    split; [done|]. split; [done|].
    cut ((forall t, session_of a <> t -> captureInfo w' !! t = captureInfo w !! t)
         /\ (saveAs (p_options (a_params a)) = "singleHtml" ->
             forall t, files (get_session t (captureInfo w'))
                       = files (get_session t (captureInfo w)))).
    { intros [? ?]. by repeat split. }
    revert E. unfold session_of.
    set (ps := a_params a). set (tid := timeId (p_settings ps)).
    set (tok := getAccessToken _ _).
    destruct (if negb _ then session_accessMap tid (captureInfo w) !! tok else None)
      as [q|]; [by intros [= <-]|].
    set (ci1 := if negb _ then register tid tok p (captureInfo w) else captureInfo w).
    assert (forall t, tid <> t -> ci1 !! t = captureInfo w !! t) as H1.
    { intros t Ht. unfold ci1. destruct (negb _); [|done]. by rewrite register_ne. }
    assert (forall t, files (get_session t ci1) = files (get_session t (captureInfo w)))
      as F1.
    { intros t. unfold ci1. destruct (negb _); [|done]. by rewrite files_register. }
    cbn [a_op set_xhr_state set_headers].
    destruct (a_op a).
    + destruct (determine_filename _ _ _) as [[f ci2]|] eqn:Ef; [|done].
      apply determine_filename_effect in Ef as [Hne Hin].
      intros [= <-]. cbn [captureInfo]. split.
      * intros t Ht. by rewrite Hne, H1.
      * intros Hmode t. by rewrite (Hin Hmode), F1.
    + intros [= <-]. cbn [captureInfo]. split; [exact H1|]. intros _. exact F1.
  - injection Hr as ? ?; subst o r'. revert E. unfold onload.
    destruct (promises w !! p) as [a|] eqn:Ha; [|done]. cbn [mbind option_bind].
    destruct (a_xhr a) as [x|] eqn:Hx; [|done]. cbn [mbind option_bind].
    destruct (negb _); [done|]. intros E.
    exists (session_of a), (p_options (a_params a)).
    cbn [event_session event_options]. rewrite Ha.
    injection E as <-. by repeat split.
  - injection Hr as ? ?; subst o r'. revert E. unfold onerror.
    destruct (promises w !! p) as [a|] eqn:Ha; [|done]. cbn [mbind option_bind].
    destruct (a_xhr a) as [x|] eqn:Hx; [|done]. cbn [mbind option_bind].
    destruct (negb _); [done|]. intros E.
    exists (session_of a), (p_options (a_params a)).
    cbn [event_session event_options]. rewrite Ha.
    injection E as <-. by repeat split.
  - injection Hr as ? ?; subst o r'. revert E. unfold packaged.
    destruct (promises w !! p) as [a|] eqn:Ha; [|done]. cbn [mbind option_bind].
    destruct (a_state a); try done. intros E.
    exists (session_of a), (p_options (a_params a)).
    cbn [event_session event_options]. rewrite Ha.
    injection E as <-. by repeat split.
Qed.

(** X8. Sessions are isolated.  Over any run of the session model,
    a session [t] for which no request is made during the run and
    for which no access exists at its start keeps its entry of
    [capturer.captureInfo] (name set, access map and archive) exactly
    as it was, whatever happens in the other sessions. *)
Theorem sessions_isolated
    (t : string) (w : world) (evs : list event) (outs : list (option nat))
    (w' : world) :
  run w evs = Some (outs, w') ->
  (forall p a, promises w !! p = Some a -> session_of a <> t) ->
  (forall ev op ps, ev ∈ evs -> call_of ev = Some (op, ps) ->
     timeId (p_settings ps) <> t) ->
  captureInfo w' !! t = captureInfo w !! t
  /\ forall p a, promises w' !! p = Some a -> session_of a <> t.
Proof.
  revert w outs. induction evs as [|ev evs IH]; intros w outs; simpl.
  - by intros [= _ <-].
  - destruct (step w ev) as [[o w1]|] eqn:E; [|done].
    destruct (run w1 evs) as [[os w2]|] eqn:E'; [|done].
    intros [= _ <-] Hacc Hcalls.
    destruct (step_changes _ _ _ _ E) as (sess & opts & Hs & _ & Hne & _ & Hps).
    assert (sess <> t) as Hsess.
    { destruct ev as [ps|ps|p resp|p|p ex|p r]; cbn [event_session] in Hs.
      1,2: injection Hs as <-; eapply Hcalls; [apply list_elem_of_here|done].
      all: apply fmap_Some in Hs as (a & Ha & ->); by eapply Hacc. }
    assert (forall p a, promises w1 !! p = Some a -> session_of a <> t) as Hacc1.
    { intros p a' Ha'. destruct (Hps p a' Ha') as [(a & Ha & Hp)|[op Hc]].
      - unfold session_of. rewrite Hp. by eapply Hacc.
      - eapply Hcalls; [apply list_elem_of_here|exact Hc]. }
    destruct (IH w1 os E' Hacc1) as [Hci Hfin].
    { intros ev' op ps Hin. apply Hcalls. by apply list_elem_of_further. }
    split; [|exact Hfin]. rewrite Hci. by apply Hne.
Qed.

(** X9. An inline capture takes no name.  Over any run of the
    session model from the initial state in which every request is
    made with [capture.saveAs] set to [singleHtml], no session gets a
    name set: neither [downloadFile] nor [captureUrl] nor the answers
    of the transport call [getUniqueFilename]. *)
Theorem inline_capture_takes_no_name
    (evs : list event) (outs : list (option nat)) (w : world) :
  run init evs = Some (outs, w) ->
  (forall ev op ps, ev ∈ evs -> call_of ev = Some (op, ps) ->
     saveAs (p_options ps) = "singleHtml") ->
  (forall t, files (get_session t (captureInfo w)) = None)
  /\ forall p a, promises w !! p = Some a ->
       saveAs (p_options (a_params a)) = "singleHtml" /\ stored_name a = None.
Proof.
  cut (forall w0 outs w,
    run w0 evs = Some (outs, w) ->
    (forall ev op ps, ev ∈ evs -> call_of ev = Some (op, ps) ->
       saveAs (p_options ps) = "singleHtml") ->
    (forall p a, promises w0 !! p = Some a ->
       saveAs (p_options (a_params a)) = "singleHtml") ->
    (forall t, files (get_session t (captureInfo w))
               = files (get_session t (captureInfo w0)))
    /\ forall p a, promises w !! p = Some a ->
         saveAs (p_options (a_params a)) = "singleHtml").
  { intros Hgen Hrun Hcalls.
    destruct (Hgen init outs w Hrun Hcalls) as [Hf Hp].
    { intros p a Ha. simpl in Ha. by rewrite lookup_nil in Ha. }
    split.
    - intros t. rewrite Hf. unfold get_session. simpl. by rewrite lookup_empty.
    - intros p a Ha. split; [by eapply Hp|].
      unfold stored_name. by rewrite bool_decide_eq_true_2 by (by eapply Hp). }
  clear. induction evs as [|ev evs IH]; intros w outs w'; simpl.
  - by intros [= _ <-].
  - destruct (step w ev) as [[o w1]|] eqn:E; [|done].
    destruct (run w1 evs) as [[os w2]|] eqn:E'; [|done].
    intros [= _ <-] Hcalls Hacc.
    destruct (step_changes _ _ _ _ E) as (sess & opts & _ & Ho & _ & Hfiles & Hps).
    assert (saveAs opts = "singleHtml") as Hmode.
    { destruct ev as [ps|ps|p resp|p|p ex|p r]; cbn [event_options] in Ho.
      1,2: injection Ho as <-; eapply Hcalls; [apply list_elem_of_here|done].
      all: apply fmap_Some in Ho as (a & Ha & ->); by eapply Hacc. }
    assert (forall p a, promises w1 !! p = Some a ->
              saveAs (p_options (a_params a)) = "singleHtml") as Hacc1.
    { intros p a' Ha'. destruct (Hps p a' Ha') as [(a & Ha & Hp)|[op Hc]].
      - rewrite Hp. by eapply Hacc.
      - eapply Hcalls; [apply list_elem_of_here|exact Hc]. }
    destruct (IH w1 os w2 E') as [Hf Hfin]; [|exact Hacc1|].
    { intros ev' op ps Hin. apply Hcalls. by apply list_elem_of_further. }
    split; [|exact Hfin]. intros t. rewrite Hf. by apply Hfiles.
Qed.

End SessionIsolation.

Section ResponseUrl.
Context `{Scrapbook}.

Lemma getAccessToken_main url method method' :
  Js.or_default method' "" = Js.or_default method "" ->
  getAccessToken (splitUrlByAnchor url).1 method' = getAccessToken url method.
Proof.
  intros Hm. unfold getAccessToken. rewrite Hm. do 2 f_equal.
  induction url as [|c s IH]; [done|]. simpl.
  case_decide; [done|]. destruct (splitUrlByAnchor s) as [main hash].
  simpl in *. rewrite decide_False by done.
  destruct (splitUrlByAnchor main) as [m h]. simpl in *. congruence.
Qed.

(** The response URL is registered when the handler of the response
    headers is through, and stays so. *)
Lemma response_url_registered
    (w : world) (p : nat) (a : access) (x : xhr) (resp : response) :
  reachable w ->
  promises w !! p = Some a -> a_xhr a = Some x -> x_state x = Opened ->
  exists w',
    onreadystatechange p resp w = Some w'
    /\ forall evs outs w'',
         run w' evs = Some (outs, w'') ->
         forall op' ps',
           request_key op' ps'
           = (session_of a, (splitUrlByAnchor (responseURL resp)).1,
              Js.or_default (method_of (a_op a) (a_params a)) "") ->
           exists q ci,
             request op' ps' w'' = Some (q, World ci (promises w''))
             /\ forall r, yields w'' q r <-> yields w'' p r.
Proof.
  intros Hreach Ha Hx Hopen.
  destruct (reachable_consistent w Hreach) as [Hpend Hown].
  assert (a_state a = Pending) as Hst by (eapply Hpend; [exact Ha|exists x; auto]).
  specialize (Hown p a Ha).
  set (tid := timeId (p_settings (a_params a))) in *.
  set (tok := getAccessToken (splitUrlByAnchor (responseURL resp)).1
                (method_of (a_op a) (a_params a))).
  assert (exists w' q,
    onreadystatechange p resp w = Some w'
    /\ session_accessMap tid (captureInfo w') !! tok = Some q
    /\ (q = p \/ exists a', promises w' !! p = Some a' /\ a_state a' = Following q))
    as (w' & q & E & Hreg & Hq).
  { pose proof (onreadystatechange_grows p resp w) as Hgrow.
    revert Hgrow. unfold onreadystatechange. rewrite Ha. cbn [mbind option_bind].
    rewrite Hx. cbn [mbind option_bind].
    rewrite (bool_decide_eq_true_2 _ Hopen). cbn [negb].
    fold tid. fold tok.
    case_bool_decide as Hred; cbn [negb].
    - (* no redirect: the token is the one of the request *)
      assert (tok = own_token a) as Htok.
      { unfold tok, own_token. by rewrite Hred. }
      change (a_op (set_xhr_state HeadersReceived
                      (set_headers (get_headers resp (a_headers a)) a)))
        with (a_op a).
      destruct (a_op a).
      + destruct (determine_filename_returns (a_params a)
                    (get_headers resp (a_headers a)) (captureInfo w))
          as (f & ci' & -> & Hm).
        intros Hgrow. eexists _, p. split; [reflexivity|]. cbn [captureInfo].
        split; [|by left]. rewrite Hm, Htok. exact Hown.
      + intros Hgrow. eexists _, p. split; [reflexivity|]. cbn [captureInfo].
        split; [|by left]. rewrite Htok. exact Hown.
    - destruct (session_accessMap tid (captureInfo w) !! tok) as [q|] eqn:Hq.
      + intros _. eexists _, q. split; [reflexivity|]. cbn [captureInfo promises].
        split; [exact Hq|]. right. eexists.
        split; [apply list_lookup_insert_eq; by eapply lookup_lt_Some|].
        unfold settle. rewrite Hst. done.
      + assert (session_accessMap tid (register tid tok p (captureInfo w)) !! tok
                = Some p) as Hreg.
        { rewrite accessMap_register, decide_True by done. apply lookup_insert_eq. }
        change (a_op (set_xhr_state HeadersReceived
                        (set_headers (get_headers resp (a_headers a)) a)))
          with (a_op a).
        destruct (a_op a).
        * destruct (determine_filename_returns (a_params a)
                      (get_headers resp (a_headers a))
                      (register tid tok p (captureInfo w)))
            as (f & ci' & -> & Hm).
          intros _. eexists _, p. split; [reflexivity|]. cbn [captureInfo].
          split; [|by left]. by rewrite Hm.
        * intros _. eexists _, p. split; [reflexivity|]. cbn [captureInfo].
          split; [|by left]. exact Hreg. }
  exists w'. split; [exact E|].
  intros evs outs w'' Hrun op' ps' Hkey.
  pose proof (run_grows _ _ _ _ Hrun) as [Hmono Hev].
  unfold request_key, session_of in Hkey. injection Hkey as Ht Hu Hm.
  assert (session_accessMap (timeId (p_settings ps')) (captureInfo w'')
            !! getAccessToken (splitUrlByAnchor (p_url ps')).1 (method_of op' ps')
          = Some q) as Hhit.
  { rewrite Ht, Hu. rewrite (getAccessToken_main _ _ _ Hm).
    apply Hmono. unfold tok in Hreg.
    by rewrite (getAccessToken_main _ _ _ eq_refl) in Hreg. }
  destruct (request_hit op' ps' w'' q Hhit) as (ci & Ereq & _).
  exists q, ci. split; [exact Ereq|].
  destruct Hq as [->|(a' & Ha' & Hfol)]; [done|].
  destruct (Hev p a' Ha') as (a'' & Ha'' & (_ & _ & _ & _ & Hf)).
  specialize (Hf q Hfol). intros r. split.
  - intros Hy. eapply yields_following; eauto.
  - intros Hy. inversion Hy; simplify_eq; [congruence|].
    match goal with
    | Hs : a_state _ = Following _ |- _ => rewrite Hf in Hs; injection Hs as <-
    end. done.
Qed.

End ResponseUrl.

Section ResponseHandler.
Context `{Scrapbook} `{MimeTable}.

(** X10. A response URL is served by the fetch that reached it.
    When the response headers of a fetch arrive, with or without a
    redirect, the handler of [readyState === 2] runs and leaves a
    state.  It returns, except in one case, in which it throws a
    [TypeError] after the registration and the header block: the
    fetch is one of [captureUrl], it was not redirected to a
    resource accessed before, no document name was given, the name
    is to come from [scrapbook.dataUriToFile] (the response has a
    [Content-Disposition] file name or the URL is a data URI), and
    the URL cannot be decoded.  Either way, from then on every
    request of the same session and rewrite method for the response
    URL, up to the fragment, returns a registered promise and
    creates no access, so that no second transport request is
    started; and what that promise yields is what the promise of the
    fetch yields. *)
Theorem response_url_served
    (w : world) (p : nat) (a : access) (x : xhr) (resp : response) :
  reachable w ->
  promises w !! p = Some a -> a_xhr a = Some x -> x_state x = Opened ->
  exists ended w',
    readyState2 p resp w = Some (ended, w')
    /\ (ended = ThrowsTypeError <->
        a_op a = OpCaptureUrl
        /\ previous_access a resp w = None
        /\ Js.truthy (documentName (p_settings (a_params a))) = false
        /\ (Js.truthy (h_filename (get_headers resp (a_headers a))) = true
            \/ Js.startsWith "data:" (p_url (a_params a)) = true)
        /\ dataUriToFile (splitUrlByAnchor (p_url (a_params a))).1 = None)
    /\ forall evs outs w'',
         run w' evs = Some (outs, w'') ->
         forall op' ps',
           request_key op' ps'
           = (session_of a, (splitUrlByAnchor (responseURL resp)).1,
              Js.or_default (method_of (a_op a) (a_params a)) "") ->
           exists q ci,
             request op' ps' w'' = Some (q, World ci (promises w''))
             /\ forall r, yields w'' q r <-> yields w'' p r.
Proof.
  intros Hreach Ha Hx Hopen.
  destruct (response_url_registered w p a x resp Hreach Ha Hx Hopen) as (w' & E & Hserved).
  unfold readyState2. rewrite E, Ha. cbn [mbind option_bind].
  eexists _, w'. split; [reflexivity|]. split; [|exact Hserved].
  destruct (previous_access a resp w) as [q|].
  { split; [done|]. by intros (_ & ? & _). }
  destruct (a_op a).
  { split; [done|]. by intros (? & _). }
  unfold documentName_block, generate_documentName.
  destruct (Js.truthy (documentName (p_settings (a_params a)))).
  { split; [done|]. by intros (_ & _ & ? & _). }
  destruct (Js.truthy (h_filename (get_headers resp (a_headers a)))
            || Js.startsWith "data:" (p_url (a_params a))) eqn:Hc.
  - destruct (dataUriToFile _) as [[filename file]|]; simpl.
    + split; [done|]. by intros (_ & _ & _ & _ & ?).
    + split; [|done]. intros _. repeat split. by apply orb_true_iff in Hc.
  - split; [done|]. intros (_ & _ & _ & Hor & _).
    apply orb_true_iff in Hor. congruence.
Qed.

End ResponseHandler.

(** ** Packager: what is downloaded, and what an archive holds *)

Section PackagerFacts.
Context `{Scrapbook}.

Lemma saveBlob_run b dir name src ae sp s :
  saveBlob b dir name src ae sp s
  = (match pk_reports s with
     | [] => Stall
     | DlRefused ex :: _ => Throw ex
     | DlComplete path :: _ => Ok (filepathParts path).2
     | DlFailed code :: _ => Throw (Error code)
     end,
     Pk (pk_info s)
        (pk_downloads s
         ++ [Download b
               (match dir with EmptyString => EmptyString | _ => dir +:+ "/" end +:+ name)
               sp src ae])
        (tail (pk_reports s))).
Proof. unfold saveBlob, saveUrl. by destruct (pk_reports s) as [|[]]. Qed.

(** Where [target] sends the single file of a capture. *)
Lemma target_spec opts tid d src suffix force :
  exists dir name,
    target opts tid d src suffix force = (dir, name, negb (saveInScrapbook opts))
    /\ dir = (if saveInScrapbook opts then scrapbookFolder opts +:+ "/data" else "")
    /\ Js.endsWith suffix
         (match dir with EmptyString => EmptyString | _ => dir +:+ "/" end +:+ name) = true
    /\ (saveInScrapbook opts = true ->
        match dir with EmptyString => EmptyString | _ => dir +:+ "/" end +:+ name
        = scrapbookFolder opts +:+ "/data/" +:+ tid +:+ suffix).
Proof.
  unfold target. destruct (saveInScrapbook opts).
  - eexists _, _. split; [reflexivity|]. split; [reflexivity|].
    assert (match scrapbookFolder opts +:+ "/data" with
            | EmptyString => EmptyString
            | _ => (scrapbookFolder opts +:+ "/data") +:+ "/"
            end +:+ tid +:+ suffix
            = (scrapbookFolder opts +:+ "/data/" +:+ tid) +:+ suffix) as ->.
    { destruct (scrapbookFolder opts); simpl; by rewrite ?sapp_assoc. }
    split; [apply endsWith_app|]. intros _. by rewrite !sapp_assoc.
  - eexists _, _. split; [reflexivity|]. split; [reflexivity|].
    split; [|done].
    set (v := validateFilename _ _).
    change (Js.endsWith suffix
              (if force || negb (Js.endsWith suffix v) then v +:+ suffix else v) = true).
    destruct force; cbn [orb]; [apply endsWith_app|].
    destruct (Js.endsWith suffix v) eqn:E; cbn [negb]; [done|apply endsWith_app].
Qed.

(** The last part of every single-file capture: the file is handed
    to the download subsystem, and the answer decides the result. *)
Lemma single_file_run b opts tid d src hash suffix force s :
  let m : M result :=
    let '(targetDir, filename, savePrompt) := target opts tid d src suffix force in
    filename ← saveBlob b targetDir filename src false savePrompt;
    mret (Result (Some tid) (Some src) (Some targetDir) (Some filename)
            (escapeFilename filename +:+ hash) None) in
  exists dl,
    (m s).2 = Pk (pk_info s) (pk_downloads s ++ [dl]) (tail (pk_reports s))
    /\ d_blob dl = b
    /\ d_autoErase dl = false
    /\ d_saveAs dl = negb (saveInScrapbook opts)
    /\ d_src dl = src
    /\ Js.endsWith suffix (d_filename dl) = true
    /\ (saveInScrapbook opts = true ->
        d_filename dl = scrapbookFolder opts +:+ "/data/" +:+ tid +:+ suffix)
    /\ (m s).1
       = match pk_reports s with
         | [] => Stall
         | DlRefused ex :: _ => Throw ex
         | DlFailed code :: _ => Throw (Error code)
         | DlComplete path :: _ =>
             Ok (Result (Some tid) (Some src)
                   (Some (if saveInScrapbook opts
                          then scrapbookFolder opts +:+ "/data" else ""))
                   (Some (filepathParts path).2)
                   (escapeFilename (filepathParts path).2 +:+ hash) None)
         end.
Proof.
  intros m. unfold m. clear m.
  destruct (target_spec opts tid d src suffix force)
    as (dir & name & -> & Hdir & Hends & Hpath).
  unfold mbind, M_bind, mret, M_ret. rewrite saveBlob_run.
  eexists (Download b _ _ src false).
  split; [by destruct (pk_reports s) as [|[]]|].
  split; [done|]. split; [done|]. split; [done|]. split; [done|].
  split; [exact Hends|]. split; [exact Hpath|].
  rewrite <- Hdir. by destruct (pk_reports s) as [|[]].
Qed.


Lemma single_file_caught b opts tid d src hash suffix force h s :
  let m : M result :=
    let '(targetDir, filename, savePrompt) := target opts tid d src suffix force in
    filename ← saveBlob b targetDir filename src false savePrompt;
    mret (Result (Some tid) (Some src) (Some targetDir) (Some filename)
            (escapeFilename filename +:+ hash) None) in
  exists dl,
    (catch m h s).2 = Pk (pk_info s) (pk_downloads s ++ [dl]) (tail (pk_reports s))
    /\ d_blob dl = b
    /\ d_autoErase dl = false
    /\ d_saveAs dl = negb (saveInScrapbook opts)
    /\ d_src dl = src
    /\ Js.endsWith suffix (d_filename dl) = true
    /\ (saveInScrapbook opts = true ->
        d_filename dl = scrapbookFolder opts +:+ "/data/" +:+ tid +:+ suffix)
    /\ (catch m h s).1
       = match pk_reports s with
         | [] => Stall
         | DlRefused ex :: _ => Ok (h ex)
         | DlFailed code :: _ => Ok (h (Error code))
         | DlComplete path :: _ =>
             Ok (Result (Some tid) (Some src)
                   (Some (if saveInScrapbook opts
                          then scrapbookFolder opts +:+ "/data" else ""))
                   (Some (filepathParts path).2)
                   (escapeFilename (filepathParts path).2 +:+ hash) None)
         end.
Proof.
  intros m.
  destruct (single_file_run b opts tid d src hash suffix force s)
    as (dl & Hs & Hb & Ha & Hp & Hsrc & He & Hpath & Ho).
  fold m in Hs, Ho. exists dl. unfold catch.
  destruct (m s) as [o s1]. simpl in Hs, Ho. subst o s1.
  repeat split; try done; by destruct (pk_reports s) as [|[]].
Qed.

Lemma save_archive_caught tid src hash sfx d opts h s :
  catch (save_archive tid src hash sfx d opts) h s
  = match generateAsync (session_zip tid (pk_info s)) with
    | inl ex => (Ok (h ex), s)
    | inr zipBlob =>
        catch
          (let '(targetDir, filename, savePrompt) := target opts tid d src sfx true in
           filename ← saveBlob zipBlob targetDir filename src false savePrompt;
           mret (Result (Some tid) (Some src) (Some targetDir) (Some filename)
                   (escapeFilename filename +:+ hash) None)) h s
    end.
Proof.
  unfold save_archive, catch, mbind, M_bind, get_info, throw.
  by destruct (generateAsync _).
Qed.

Lemma catch_modify {A} f (m : M A) h s :
  catch (modify_info f;; m) h s
  = catch m h (Pk (f (pk_info s)) (pk_downloads s) (pk_reports s)).
Proof. reflexivity. Qed.

Lemma catch_skip {A} (m : M A) h s : catch (mret ();; m) h s = catch m h s.
Proof. reflexivity. Qed.

(** X11. Saving the main document in one of the single-file modes
    ([singleHtml], [zip], [maff]) never rejects and starts at most
    one download.  If the archive cannot be generated, nothing is
    downloaded and the result is the error record of the failure.
    Otherwise exactly one download is started: it is not auto-erased,
    the user is prompted exactly when the capture is not saved in the
    scrapbook, the file name ends with the extension of the mode
    ([.html] or [.xhtml], [.htz], [.maff]), in the scrapbook it is
    [<folder>/data/<timeId><extension>], and what is downloaded is
    the document itself ([singleHtml]) or the archive generated from
    the session's builder; the result is decided by the answer of the
    download subsystem: the completed file, the error record of a
    refusal or of a failure, or no result as long as there is no
    answer. *)
Theorem saveDocument_main_single_file (ps : save_params) (s : pk) :
  frameIsMain (sd_settings ps) = true ->
  saveAs (sd_options ps) = "singleHtml" \/ saveAs (sd_options ps) = "zip"
    \/ saveAs (sd_options ps) = "maff" ->
  let opts := sd_options ps in
  let tid := timeId (sd_settings ps) in
  let src := sd_sourceUrl ps in
  let suffix := single_suffix opts (sd_data ps) in
  let o := (saveDocument ps s).1 in
  let s' := (saveDocument ps s).2 in
  let failure ex := Ok (Result None None None None (getErrorUrl src opts) (Some ex)) in
  (exists ex,
     saveAs opts <> "singleHtml"
     /\ generateAsync (session_zip tid (pk_info s')) = inl ex
     /\ o = failure ex
     /\ pk_downloads s' = pk_downloads s /\ pk_reports s' = pk_reports s)
  \/ (exists dl,
        pk_downloads s' = pk_downloads s ++ [dl]
        /\ pk_reports s' = tail (pk_reports s)
        /\ d_autoErase dl = false
        /\ d_saveAs dl = negb (saveInScrapbook opts)
        /\ d_src dl = src
        /\ Js.endsWith suffix (d_filename dl) = true
        /\ (saveInScrapbook opts = true ->
            d_filename dl = scrapbookFolder opts +:+ "/data/" +:+ tid +:+ suffix)
        /\ (if bool_decide (saveAs opts = "singleHtml")
            then d_blob dl = Blob (mime (sd_data ps)) (content (sd_data ps))
            else generateAsync (session_zip tid (pk_info s')) = inr (d_blob dl))
        /\ o = match pk_reports s with
               | [] => Stall
               | DlRefused ex :: _ => failure ex
               | DlFailed code :: _ => failure (Error code)
               | DlComplete path :: _ =>
                   Ok (Result (Some tid) (Some src)
                         (Some (if saveInScrapbook opts
                                then scrapbookFolder opts +:+ "/data" else ""))
                         (Some (filepathParts path).2)
                         (escapeFilename (filepathParts path).2
                            +:+ (splitUrlByAnchor src).2) None)
               end).
Proof.
  intros Hmain Hmode opts tid src suffix o s' failure.
  unfold o, s', saveDocument, saveDocument_switch. clear o s'.
  fold opts. fold tid. fold src. rewrite Hmain. cbn [negb].
  set (h := fun ex => Result None None None None (getErrorUrl src opts) (Some ex)).
  assert (forall ex, failure ex = Ok (h ex)) as Hfail by done.
  (* the archive modes: the builder is complete, the archive is
     generated and downloaded *)
  assert (forall sfx s0,
    pk_downloads s0 = pk_downloads s -> pk_reports s0 = pk_reports s ->
    suffix = sfx -> saveAs opts <> "singleHtml" ->
    let r := catch (save_archive tid src (splitUrlByAnchor src).2 sfx (sd_data ps) opts)
               h s0 in
    (exists ex,
       saveAs opts <> "singleHtml"
       /\ generateAsync (session_zip tid (pk_info r.2)) = inl ex
       /\ r.1 = failure ex
       /\ pk_downloads r.2 = pk_downloads s /\ pk_reports r.2 = pk_reports s)
    \/ (exists dl,
          pk_downloads r.2 = pk_downloads s ++ [dl]
          /\ pk_reports r.2 = tail (pk_reports s)
          /\ d_autoErase dl = false
          /\ d_saveAs dl = negb (saveInScrapbook opts)
          /\ d_src dl = src
          /\ Js.endsWith suffix (d_filename dl) = true
          /\ (saveInScrapbook opts = true ->
              d_filename dl = scrapbookFolder opts +:+ "/data/" +:+ tid +:+ suffix)
          /\ generateAsync (session_zip tid (pk_info r.2)) = inr (d_blob dl)
          /\ r.1 = match pk_reports s with
                   | [] => Stall
                   | DlRefused ex :: _ => failure ex
                   | DlFailed code :: _ => failure (Error code)
                   | DlComplete path :: _ =>
                       Ok (Result (Some tid) (Some src)
                             (Some (if saveInScrapbook opts
                                    then scrapbookFolder opts +:+ "/data" else ""))
                             (Some (filepathParts path).2)
                             (escapeFilename (filepathParts path).2
                                +:+ (splitUrlByAnchor src).2) None)
                   end)) as Harchive.
  { intros sfx s0 Hd Hr <- Hnot r. unfold r. clear r.
    rewrite save_archive_caught.
    destruct (generateAsync (session_zip tid (pk_info s0))) as [ex|zipBlob] eqn:Hgen.
    - left. exists ex. cbn [fst snd]. by repeat split.
    - right.
      destruct (single_file_caught zipBlob opts tid (sd_data ps) src
                  (splitUrlByAnchor src).2 suffix true h s0)
        as (dl & Hs & Hb & Ha & Hp & Hsrc & He & Hpath & Ho).
      exists dl.
      rewrite Hs, Ho. cbn [pk_downloads pk_reports pk_info].
      rewrite Hd, Hr, Hgen, Hb. by repeat split. }
  destruct Hmode as [Hmode|[Hmode|Hmode]].
  - right. rewrite (bool_decide_eq_true_2 _ Hmode).
    destruct (single_file_caught (Blob (mime (sd_data ps)) (content (sd_data ps)))
                opts tid (sd_data ps) src (splitUrlByAnchor src).2
                (doc_ext (sd_data ps)) false h s)
      as (dl & Hs & Hb & Ha & Hp & Hsrc & He & Hpath & Ho).
    assert (suffix = doc_ext (sd_data ps)) as Hsfx.
    { unfold suffix, single_suffix. fold opts. by rewrite bool_decide_eq_true_2. }
    exists dl. fold opts. rewrite Hs, Ho, Hsfx. cbn [pk_downloads pk_reports].
    by repeat split.
  - assert (saveAs opts <> "singleHtml") as Hnot by (unfold opts; by rewrite Hmode).
    rewrite (bool_decide_eq_false_2 _ Hnot).
    rewrite (bool_decide_eq_true_2 _ Hmode).
    assert (suffix = ".htz") as Hsfx.
    { unfold suffix, single_suffix. fold opts.
      rewrite bool_decide_eq_false_2 by done. by rewrite bool_decide_eq_true_2. }
    rewrite catch_modify.
    destruct (bool_decide (doc_ext (sd_data ps) = ".xhtml"));
      repeat (rewrite catch_modify || rewrite catch_skip);
      match goal with
      | |- context [catch _ h ?s0] =>
          exact (Harchive ".htz" s0 eq_refl eq_refl Hsfx Hnot)
      end.
  - assert (saveAs opts <> "singleHtml") as Hnot by (unfold opts; by rewrite Hmode).
    assert (saveAs opts <> "zip") as Hnot' by (unfold opts; by rewrite Hmode).
    rewrite (bool_decide_eq_false_2 _ Hnot), (bool_decide_eq_false_2 _ Hnot').
    rewrite (bool_decide_eq_true_2 _ Hmode).
    assert (suffix = ".maff") as Hsfx.
    { unfold suffix, single_suffix. fold opts.
      by rewrite !bool_decide_eq_false_2 by done. }
    rewrite catch_modify.
    destruct (bool_decide (doc_ext (sd_data ps) = ".xhtml"));
      repeat (rewrite catch_modify || rewrite catch_skip);
      match goal with
      | |- context [catch _ h ?s0] =>
          exact (Harchive ".maff" s0 eq_refl eq_refl Hsfx Hnot)
      end.
Qed.


Lemma catch_ok {A} (m : M A) h s a s' : m s = (Ok a, s') -> catch m h s = (Ok a, s').
Proof. unfold catch. by intros ->. Qed.

(** What an operation leaves of the packager's state in zip mode. *)
Lemma zip_op_info op s :
  saveAs (op_options op) = "zip" ->
  pk_info (run_op op s).2
  = foldl (fun ci e => zip_file (timeId (op_settings op)) e.1 (ze_blob e.2)
                         (ze_compression e.2) ci)
      (pk_info s) (zip_writes op).
Proof.
  intros Hmode. destruct op as [ps|ps]; cbn [run_op op_options op_settings] in *.
  - unfold downloadBlob. rewrite Hmode.
    rewrite bool_decide_eq_false_2 by discriminate.
    rewrite bool_decide_eq_true_2 by done. reflexivity.
  - unfold saveDocument, saveDocument_switch, zip_writes. rewrite Hmode.
    rewrite bool_decide_eq_false_2 by discriminate.
    rewrite bool_decide_eq_true_2 by done.
    run_monad.
    destruct (frameIsMain (sd_settings ps)); simpl; [|done].
    destruct (bool_decide (doc_ext (sd_data ps) = ".xhtml")); simpl;
      match goal with
      | |- context [save_archive ?a ?b ?c ?d ?e ?f ?s] =>
          pose proof (save_archive_info a b c d e f s) as Hs;
          destruct (save_archive a b c d e f s) as [[]]
      end; exact Hs.
Qed.

(** X12. What a flat archive holds.  After any sequence of packager
    operations of one session in zip mode ([downloadBlob] for
    resources, [saveDocument] for documents), the archive builder of
    the session holds what it held before with, written over it in
    order, one entry per resource under its file name with the
    compression chosen for it, one entry per document under its
    validated file name with strong compression, and an [index.html]
    redirect stub for a main document that is XHTML: the paths are
    the bare file names, no manifest and no other entry is added, and
    a later entry replaces an earlier one with the same path.  So a
    path that is not written keeps its entry, and when the paths
    written are pairwise different every entry is in the archive as
    it was written. *)
Theorem zip_archive_contents (tid : string) (ops : list pk_op) (s : pk) :
  Forall (fun op => saveAs (op_options op) = "zip"
                    /\ timeId (op_settings op) = tid) ops ->
  let z := session_zip tid (pk_info s) in
  let z' := session_zip tid (pk_info (run_ops ops s)) in
  z' = write_all (ops ≫= zip_writes) z
  /\ (forall path,
        is_Some (z' !! path) <-> is_Some (z !! path) \/ path ∈ (ops ≫= zip_writes).*1)
  /\ (forall path, path ∉ (ops ≫= zip_writes).*1 -> z' !! path = z !! path)
  /\ (NoDup (ops ≫= zip_writes).*1 ->
      forall path e, (path, e) ∈ ops ≫= zip_writes -> z' !! path = Some e).
Proof.
  intros Hall z z'.
  assert (z' = write_all (ops ≫= zip_writes) z) as Hz.
  { unfold z, z'. clear z z'. revert s.
    induction ops as [|op ops IH]; intros s; [done|].
    apply Forall_cons in Hall as [[Hmode Htid] Hall].
    cbn [run_ops mbind list_bind]. rewrite write_all_app, (IH Hall).
    f_equal. rewrite zip_op_info by done. rewrite Htid. apply session_zip_writes. }
  split; [exact Hz|]. rewrite Hz.
  split; [intros path; apply write_all_lookup|].
  split; [intros path; apply write_all_lookup_ne|].
  intros Hnd path e. by apply write_all_kept.
Qed.

(** X13. Outside folder mode only the main document is downloaded.
    In the single-file modes ([singleHtml], [zip], [maff]) every
    operation of the packager other than saving the document of the
    main frame is fulfilled with a result without error, whatever the
    state, and any sequence of such operations starts no download and
    takes no answer of the download subsystem. *)
Theorem secondary_resources_start_no_download (ops : list pk_op) (s : pk) :
  Forall (fun op => single_file_mode (op_options op)
                    /\ saves_main_document op = false) ops ->
  pk_downloads (run_ops ops s) = pk_downloads s
  /\ pk_reports (run_ops ops s) = pk_reports s
  /\ Forall (fun op => forall s0, exists r,
               (run_op op s0).1 = Ok r /\ r_error r = None) ops.
Proof.
  intros Hall.
  assert (forall op s0,
            single_file_mode (op_options op) -> saves_main_document op = false ->
            exists r, run_op op s0
                      = (Ok r, Pk (pk_info (run_op op s0).2) (pk_downloads s0)
                                 (pk_reports s0))
                      /\ r_error r = None) as Hop.
  { intros op s0 Hmode Hsec.
    destruct op as [ps|ps];
      cbn [run_op op_options saves_main_document] in *.
    - unfold downloadBlob.
      destruct Hmode as [Hmode|[Hmode|Hmode]]; rewrite Hmode;
        rewrite ?(bool_decide_eq_false_2 ("zip" = "singleHtml")),
                ?(bool_decide_eq_false_2 ("maff" = "singleHtml")),
                ?(bool_decide_eq_false_2 ("maff" = "zip")) by discriminate;
        rewrite bool_decide_eq_true_2 by done;
        destruct s0; eexists; (split; [reflexivity|]); reflexivity.
    - unfold saveDocument, saveDocument_switch. rewrite Hsec. cbn [negb].
      destruct Hmode as [Hmode|[Hmode|Hmode]]; rewrite Hmode;
        rewrite ?(bool_decide_eq_false_2 ("zip" = "singleHtml")),
                ?(bool_decide_eq_false_2 ("maff" = "singleHtml")),
                ?(bool_decide_eq_false_2 ("maff" = "zip")) by discriminate;
        rewrite bool_decide_eq_true_2 by done;
        destruct s0; eexists; (split; [reflexivity|]); reflexivity. }
  split; [|split].
  - revert s. induction ops as [|op ops IH]; intros s; [done|].
    apply Forall_cons in Hall as [[Hmode Hsec] Hall]. cbn [run_ops].
    rewrite (IH Hall). destruct (Hop op s Hmode Hsec) as (r & -> & _). done.
  - revert s. induction ops as [|op ops IH]; intros s; [done|].
    apply Forall_cons in Hall as [[Hmode Hsec] Hall]. cbn [run_ops].
    rewrite (IH Hall). destruct (Hop op s Hmode Hsec) as (r & -> & _). done.
  - eapply Forall_impl; [exact Hall|]. intros op [Hmode Hsec] s0.
    destruct (Hop op s0 Hmode Hsec) as (r & -> & Hr). eauto.
Qed.

End PackagerFacts.

(** ** Request headers *)

Lemma substring_prefix (p s : string) :
  String.substring 0 (String.length p) s = p <-> exists rest, s = p +:+ rest.
Proof.
  revert s. induction p as [|c p IH]; intros s; simpl.
  - split; [intros _; by exists s|]. intros _. by destruct s.
  - destruct s as [|c' s]; simpl.
    + split; [done|]. by intros [? ?].
    + split.
      * intros [= -> [rest ->]%IH]. by exists rest.
      * intros [rest [= -> ->]]. f_equal. apply IH. by exists rest.
Qed.

Lemma slice_from_app (p rest : string) : slice_from (String.length p) (p +:+ rest) = rest.
Proof. induction p; simpl; [by destruct rest|done]. Qed.

Section RequestHeaders.
Context `{Scrapbook}.

(** X14. The listener of [onBeforeSendHeaders] keeps the number, the
    order and the values of the request headers; a header whose name
    starts with [X-WebScrapBook-] leaves with the rest of its name,
    every other header leaves unchanged.  So the referrer that
    [downloadFile], [captureUrl] and [captureBookmark] attach to
    their transport request as [X-WebScrapBook-Referer] leaves as the
    header [Referer] with the same value, after whatever headers come
    before it, and no referrer header is added when [refUrl] is
    empty or missing. *)
Theorem onBeforeSendHeaders_renames (hs : list header) :
  length (onBeforeSendHeaders hs) = length hs
  /\ (forall i h, hs !! i = Some h ->
        exists h',
          onBeforeSendHeaders hs !! i = Some h'
          /\ hd_value h' = hd_value h
          /\ ((exists rest, hd_name h = "X-WebScrapBook-" +:+ rest /\ hd_name h' = rest)
              \/ ((forall rest, hd_name h <> "X-WebScrapBook-" +:+ rest)
                  /\ hd_name h' = hd_name h)))
  /\ (forall op ps ci st x f ci',
        match op with
        | OpDownloadFile => downloadFile_executor
        | OpCaptureUrl => captureUrl_executor
        end ps ci = Some (st, Some x, f, ci')
        \/ x = captureBookmark_xhr ps ->
        onBeforeSendHeaders (hs ++ xhr_requestHeaders x)
        = onBeforeSendHeaders hs
          ++ if Js.truthy (p_refUrl ps)
             then [Header "Referer" (default "" (p_refUrl ps))] else []).
Proof.
  split; [apply length_fmap|]. split.
  - intros i h Hi. unfold onBeforeSendHeaders. rewrite list_lookup_fmap, Hi. simpl.
    eexists. split; [reflexivity|].
    case_bool_decide as Hp.
    + apply (substring_prefix "X-WebScrapBook-") in Hp as [rest Hrest].
      split; [done|]. left. exists rest. split; [done|]. simpl. rewrite Hrest.
      apply (slice_from_app "X-WebScrapBook-").
    + split; [done|]. right. split; [|done].
      intros rest Hrest. apply Hp.
      apply (substring_prefix "X-WebScrapBook-"). by exists rest.
  - intros op ps ci st x f ci' Hx.
    assert (x_referer x = referer (p_refUrl ps)) as Hr.
    { destruct Hx as [Hx| ->]; [|done].
      destruct op.
      - unfold downloadFile_executor in Hx.
        destruct (Js.startsWith "data:" _).
        + destruct (saveDataUriAsFile _ && _).
          * destruct (dataUriToFile _) as [[]|]; [|done].
            by destruct (getUniqueFilename _ _ _) as [[]|].
          * done.
        + by injection Hx as _ <- _ _.
      - unfold captureUrl_executor in Hx. by injection Hx as _ <- _ _. }
    unfold onBeforeSendHeaders, xhr_requestHeaders. rewrite fmap_app. f_equal.
    rewrite Hr. unfold referer.
    destruct (p_refUrl ps) as [[|c r]|]; done.
Qed.

End RequestHeaders.

(** ** Pages of [captureFile] and [captureBookmark] *)

Section PageFacts.
Context `{Scrapbook} `{ScrapbookHtml}.

Lemma link_page_refresh meta target title label src :
  contains (meta_refresh target) (link_page meta target title label src).
Proof.
  unfold link_page, contains.
  eexists ("<!DOCTYPE html>" +:+ nl +:+ "<html" +:+ meta +:+ ">" +:+ nl +:+
           "<head>" +:+ nl +:+
           "<meta charset=" +:+ dq +:+ "UTF-8" +:+ dq +:+ ">" +:+ nl), _.
  rewrite !sapp_assoc. reflexivity.
Qed.

(** X15. [captureFile] in folder mode.  For a frame the result
    hands on the directory, the file name and the URL of the
    download and carries no error, also when the download failed and
    its URL is the error placeholder; nothing is saved.  For the main
    frame a redirect page of type [text/html] that leads to the URL
    of the download is saved as [<documentName>.html] (validated)
    in the folder of the capture: this is exactly one download, not
    auto-erased and without prompt, no [index.html] stub follows,
    and the result is decided by the answer of the download
    subsystem alone: the completed file, or the error record of a
    refusal or failure. *)
Theorem captureFile_folder (ps : file_params) (response : result) (s : pk) :
  folder_mode (fp_options ps) ->
  let opts := fp_options ps in
  let tid := timeId (fp_settings ps) in
  let src := fp_url ps in
  let o := (captureFile_then ps response s).1 in
  let s' := (captureFile_then ps response s).2 in
  if frameIsMain (fp_settings ps) then
    let page := captureFile_page ps response in
    let name :=
      validateFilename (default "undefined" (documentName (fp_settings ps)) +:+ ".html")
        (saveAsciiFilename opts) in
    contains (meta_refresh (escapeHtml (Some (r_url response)))) page
    /\ pk_info s' = pk_info s
    /\ pk_downloads s'
       = pk_downloads s
         ++ [Download (Blob "text/html" page) (folder_of opts tid +:+ "/" +:+ name)
               false src false]
    /\ o = match pk_reports s with
           | [] => Stall
           | DlRefused ex :: _ =>
               Ok (Result None None None None (getErrorUrl src opts) (Some ex))
           | DlFailed code :: _ =>
               Ok (Result None None None None (getErrorUrl src opts) (Some (Error code)))
           | DlComplete path :: _ =>
               Ok (Result (Some tid) (Some src) (Some (folder_of opts tid))
                     (Some (filepathParts path).2)
                     (escapeFilename (filepathParts path).2
                        +:+ (splitUrlByAnchor src).2) None)
           end
  else
    o = Ok (Result (Some tid) (Some src) (r_targetDir response) (r_filename response)
              (r_url response) None)
    /\ s' = s.
Proof.
  intros (Hm1 & Hm2 & Hm3) opts tid src o s'. unfold o, s', captureFile_then. clear o s'.
  destruct (frameIsMain (fp_settings ps)) eqn:Hmain; [|done].
  split; [apply link_page_refresh|].
  unfold saveDocument, saveDocument_switch.
  cbn [sd_data sd_documentName sd_sourceUrl sd_settings sd_options].
  fold opts. fold tid. fold src.
  rewrite !bool_decide_eq_false_2 by done.
  rewrite Hmain. unfold doc_ext. cbn [mime content].
  rewrite (bool_decide_eq_false_2 ("text/html" = "application/xhtml+xml")) by discriminate.
  change ("." +:+ "html") with ".html".
  rewrite ?(bool_decide_eq_false_2 (".html" = ".xhtml")) by discriminate.
  cbn [negb orb andb].
  unfold catch, mbind, M_bind, mret, M_ret. rewrite saveBlob_run.
  fold (folder_of opts tid).
  assert (match folder_of opts tid with
          | EmptyString => EmptyString
          | _ => folder_of opts tid +:+ "/"
          end = folder_of opts tid +:+ "/") as ->.
  { pose proof (folder_of_nonempty opts tid). by destruct (folder_of opts tid). }
  rewrite sapp_assoc.
  destruct (pk_reports s) as [|[]]; by repeat split.
Qed.

(** X16. [captureBookmark] never rejects and never touches
    [capturer.captureInfo].  If the transport request fails, nothing
    is downloaded and the result is the error record of the failure.
    If it loads, exactly one download is started: a page of type
    [text/html] that leads to the bookmarked URL, not auto-erased,
    with a prompt exactly when the capture is not saved in the
    scrapbook, under a file name that ends with [.htm], which in the
    scrapbook is [<folder>/data/<timeId>.htm]; the result is decided
    by the answer of the download subsystem. *)
Theorem captureBookmark_single_file
    (ps : params) (loaded : exn + option string) (s : pk) :
  let opts := p_options ps in
  let tid := timeId (p_settings ps) in
  let src := p_url ps in
  let o := (captureBookmark ps loaded s).1 in
  let s' := (captureBookmark ps loaded s).2 in
  let failure ex := Ok (Result None None None None (getErrorUrl src opts) (Some ex)) in
  pk_info s' = pk_info s
  /\ match loaded with
     | inl ex =>
         o = failure ex
         /\ pk_downloads s' = pk_downloads s /\ pk_reports s' = pk_reports s
     | inr title =>
         exists dl,
           pk_downloads s' = pk_downloads s ++ [dl]
           /\ pk_reports s' = tail (pk_reports s)
           /\ d_blob dl = Blob "text/html" (captureBookmark_page ps title)
           /\ contains (meta_refresh (escapeHtml (Some src))) (blob_data (d_blob dl))
           /\ d_autoErase dl = false
           /\ d_saveAs dl = negb (saveInScrapbook opts)
           /\ d_src dl = src
           /\ Js.endsWith ".htm" (d_filename dl) = true
           /\ (saveInScrapbook opts = true ->
               d_filename dl = scrapbookFolder opts +:+ "/data/" +:+ tid +:+ ".htm")
           /\ o = match pk_reports s with
                  | [] => Stall
                  | DlRefused ex :: _ => failure ex
                  | DlFailed code :: _ => failure (Error code)
                  | DlComplete path :: _ =>
                      Ok (Result (Some tid) (Some src)
                            (Some (if saveInScrapbook opts
                                   then scrapbookFolder opts +:+ "/data" else ""))
                            (Some (filepathParts path).2)
                            (escapeFilename (filepathParts path).2
                               +:+ (splitUrlByAnchor src).2) None)
                  end
     end.
Proof.
  intros opts tid src o s' failure. unfold o, s', captureBookmark. clear o s'.
  fold opts. fold tid. fold src.
  destruct loaded as [ex|ttl]; [done|].
  set (h := fun ex => Result None None None None (getErrorUrl src opts) (Some ex)).
  destruct (single_file_caught (Blob "text/html" (captureBookmark_page ps ttl))
              opts tid (DocData "text/html" None (captureBookmark_page ps ttl) ttl)
              src (splitUrlByAnchor src).2 ".htm" false h s)
    as (dl & Hs & Hb & Ha & Hp & Hsrc & He & Hpath & Ho).
  unfold target in Hs, Ho. cbn [title orb] in Hs, Ho.
  rewrite Hs, Ho. split; [done|]. exists dl. rewrite Hb.
  repeat split; try done. apply link_page_refresh.
Qed.

End PageFacts.

(** ** The document name [captureUrl] generates *)

Lemma srev_app (a b : string) : String.rev (a +:+ b) = String.rev b +:+ String.rev a.
Proof.
  unfold String.rev. rewrite rev_app_app.
  by rewrite (rev_app_tail b (String.rev_app a "")).
Qed.

Lemma srev_involutive (s : string) : String.rev (String.rev s) = s.
Proof.
  induction s as [|c s IH]; [done|].
  change (String c s) with (String c "" +:+ s) at 1.
  rewrite srev_app, srev_app, IH. done.
Qed.

Lemma endsWith_inv (p s : string) : Js.endsWith p s = true -> exists pre, s = pre +:+ p.
Proof.
  unfold Js.endsWith. intros [rest E]%startsWith_iff.
  exists (String.rev rest). apply (f_equal String.rev) in E.
  by rewrite srev_involutive, srev_app, srev_involutive in E.
Qed.

Lemma toLowerCase_length (s : string) : String.length (Js.toLowerCase s) = String.length s.
Proof. induction s; simpl; congruence. Qed.

Lemma substring_slice (k : nat) (s : string) :
  s = String.substring 0 k s +:+ slice_from k s.
Proof.
  revert s. induction k as [|k IH]; intros [|c s]; simpl; try done.
  by rewrite <- IH.
Qed.

Lemma substring_length (k : nat) (s : string) :
  (k <= String.length s)%nat -> String.length (String.substring 0 k s) = k.
Proof.
  revert s. induction k as [|k IH]; intros [|c s]; simpl; try done; try lia.
  intros ?. rewrite IH; lia.
Qed.

Lemma sapp_inj_length (a b a' b' : string) :
  a +:+ b = a' +:+ b' -> String.length a = String.length a' -> a = a' /\ b = b'.
Proof.
  revert a'. induction a as [|c a IH]; intros [|c' a']; simpl; try done.
  intros [= -> E] [= Hlen]. destruct (IH _ E Hlen) as [-> ->]. done.
Qed.

(** Cutting an extension the lower-case name ends with leaves the
    name without its last characters, which spell the extension. *)
Lemma slice_off_extension (ext filename : string) :
  ext <> "" ->
  Js.endsWith ext (Js.toLowerCase filename) = true ->
  exists rest,
    filename = slice_off (String.length ext) filename +:+ rest
    /\ Js.toLowerCase rest = ext.
Proof.
  intros Hne [pre E]%endsWith_inv.
  assert (String.length filename = String.length pre + String.length ext)%nat as Hlen.
  { by rewrite <- toLowerCase_length, E, slength_app. }
  unfold slice_off. destruct (String.length ext) as [|n] eqn:Hn.
  { by destruct ext. }
  rewrite <- Hn.
  set (k := (String.length filename - String.length ext)%nat).
  exists (slice_from k filename). split; [apply substring_slice|].
  pose proof (substring_slice k filename) as Hsplit.
  apply (f_equal Js.toLowerCase) in Hsplit. rewrite toLowerCase_app, E in Hsplit.
  apply sapp_inj_length in Hsplit as [_ <-]; [done|].
  rewrite toLowerCase_length, substring_length; unfold k; lia.
Qed.

Lemma strip_extension_spec (filename : string) (exts : list string) :
  let name := strip_extension (Js.toLowerCase filename) filename exts in
  (name = filename
   /\ Forall (fun e => Js.endsWith (Js.toLowerCase ("." +:+ e))
                         (Js.toLowerCase filename) = false) exts)
  \/ exists e rest,
       e ∈ exts /\ filename = name +:+ rest
       /\ Js.toLowerCase rest = Js.toLowerCase ("." +:+ e).
Proof.
  induction exts as [|e exts IH]; cbn [strip_extension]; [left; by split|].
  assert (Js.toLowerCase ("." +:+ e) <> "") as Hne by done.
  destruct (Js.endsWith _ _) eqn:E.
  - right. destruct (slice_off_extension _ _ Hne E) as (rest & Hf & Hr).
    exists e, rest. split; [apply list_elem_of_here|]. split; [exact Hf|exact Hr].
  - destruct IH as [[-> Hall]|(e' & rest & Hin & Hf & Hr)].
    + left. split; [done|]. by constructor.
    + right. exists e', rest. split; [by apply list_elem_of_further|done].
Qed.

Section DocumentNameFacts.
Context `{Scrapbook} `{MimeTable}.

(** X17. The document name [captureUrl] generates when none is
    given.  The name is derived from the file name of the URL
    ([scrapbook.urlToFilename]) or, when the URL is a data URI or the
    response has a [Content-Disposition] file name, from the name
    [scrapbook.dataUriToFile] gives for the URL; the file name of the
    header itself is not used, only whether there is one.  The name
    is that file name, or that file name without one extension at its
    end, which is, up to case, an extension of the type of the
    document ([text/html] or [application/xhtml+xml]); the block
    throws exactly when the name is to come from
    [scrapbook.dataUriToFile] and the URL cannot be decoded. *)
Theorem generate_documentName_strips_extension (ps : params) (h : headers) :
  match generate_documentName ps h with
  | ThrowsTypeError =>
      (Js.truthy (h_filename h) = true \/ Js.startsWith "data:" (p_url ps) = true)
      /\ dataUriToFile (splitUrlByAnchor (p_url ps)).1 = None
  | Returns name =>
      exists filename,
        (if Js.truthy (h_filename h) || Js.startsWith "data:" (p_url ps)
         then exists file,
                dataUriToFile (splitUrlByAnchor (p_url ps)).1 = Some (filename, file)
         else filename = urlToFilename (p_url ps))
        /\ (name = filename
            \/ exists mime e rest,
                 (mime = "text/html" \/ mime = "application/xhtml+xml")
                 /\ e ∈ mimeAllExtensions mime
                 /\ filename = name +:+ rest
                 /\ Js.toLowerCase rest = Js.toLowerCase ("." +:+ e))
  end.
Proof.
  unfold generate_documentName.
  destruct (Js.truthy (h_filename h) || Js.startsWith "data:" (p_url ps)) eqn:Hc.
  - destruct (dataUriToFile _) as [[filename file]|] eqn:Hfile; simpl.
    + exists filename. split; [by exists file|].
      set (mime := if Js.truthy (h_contentType h) then _ else _).
      destruct (bool_decide (mime = "text/html")
                || bool_decide (mime = "application/xhtml+xml")) eqn:Hm; [|by left].
      apply orb_true_iff in Hm. rewrite !bool_decide_eq_true in Hm.
      destruct (strip_extension_spec filename (mimeAllExtensions mime))
        as [[-> _]|(e & rest & Hin & Hf & Hr)]; [by left|].
      right. by exists mime, e, rest.
    + split; [|done]. by apply orb_true_iff in Hc.
  - exists (urlToFilename (p_url ps)). split; [done|].
    set (mime := if Js.truthy (h_contentType h) then _ else _).
    destruct (bool_decide (mime = "text/html")
              || bool_decide (mime = "application/xhtml+xml")) eqn:Hm; [|by left].
    apply orb_true_iff in Hm. rewrite !bool_decide_eq_true in Hm.
    destruct (strip_extension_spec (urlToFilename (p_url ps)) (mimeAllExtensions mime))
      as [[-> _]|(e & rest & Hin & Hf & Hr)]; [by left|].
    right. by exists mime, e, rest.
Qed.

End DocumentNameFacts.

(** ** Fetched resources and registered documents of a capture *)

Section CaptureNames.
Context `{Scrapbook}.

Lemma registerDocument_mono s ci r ci' :
  registerDocument s ci = Some (r, ci') ->
  forall t, session_files t ci ⊆ session_files t ci'.
Proof.
  destruct s as [t m [name|]].
  - destruct (registerDocument_allocates t m name ci)
      as (n & ci1 & -> & _ & _ & _ & Hfiles & Hframe).
    intros [= <- <-] t'. destruct (decide (t = t')) as [<-|Ht].
    + rewrite Hfiles. etrans; [|apply union_subseteq_r]. apply union_subseteq_r.
    + by rewrite Hframe.
  - unfold registerDocument. simpl. intros [= <- <-] t'.
    destruct (decide (t = t')) as [<-|Ht].
    + by rewrite session_files_set, session_files_ensure.
    + by rewrite session_files_set_ne, session_files_ensure_any.
Qed.

Lemma capture_step_named c ev c' :
  capture_step c ev = Some c' -> all_named c -> all_named c'.
Proof.
  destruct c as [w docs]. intros E (N & D1 & D2 & D3). cbn [c_world c_documents] in *.
  destruct ev as [ev|s]; cbn [capture_step c_world c_documents] in E.
  - destruct (step w ev) as [[o w1]|] eqn:Es; [|done]. injection E as <-.
    destruct (step_named _ _ _ _ Es N) as [N' [Hmono Hext]].
    split; [exact N'|]. cbn [c_world c_documents].
    split; [|split; [exact D2|]].
    + intros i t n Hi. destruct (D1 i t n Hi). split; by apply Hmono.
    + intros p a' f i n Ha' Hf Hi.
      destruct (Hext p a' f Ha' Hf) as [(a & Ha & Hs & Hfa)|[Hfree _]].
      * rewrite Hs in Hi. by eapply D3.
      * destruct (D1 i _ n Hi) as [Hh Hx]. split; intros E; apply Hfree; by rewrite E.
  - destruct (registerDocument s (captureInfo w)) as [[r ci]|] eqn:Er; [|done].
    injection E as <-. cbn [c_world c_documents].
    pose proof (registerDocument_mono _ _ _ _ Er) as Hmono.
    assert (named (World ci (promises w))) as N'.
    { apply (named_step w ci (promises w) (length (promises w))); try done.
      intros a' Ha'. apply lookup_lt_Some in Ha'. lia. }
    split; [exact N'|]. cbn [c_world captureInfo promises].
    destruct s as [t m [name|]].
    + destruct (registerDocument_allocates t m name (captureInfo w))
        as (k & ci1 & Er' & Hh & Hx & _ & Hfiles & _).
      rewrite Er' in Er. injection Er as <- <-. cbn [timeId].
      set (n := document_candidate name k) in *.
      assert (forall i t' n', docs !! i = Some (t', n') -> t' = t ->
                toLowerCase n' <> toLowerCase n) as Hold.
      { intros i t' n' Hi -> E. destruct (D1 i t n' Hi) as [Hin _].
        apply Hh. by rewrite <- E. }
      split; [|split].
      * intros i t' n' [Hi|[_ Hi]]%lookup_app_Some.
        -- destruct (D1 i t' n' Hi). split; by apply Hmono.
        -- apply list_lookup_singleton_Some in Hi as [_ [= <- <-]].
           rewrite Hfiles. split.
           ++ apply elem_of_union. right. apply elem_of_union. left.
              by apply elem_of_singleton.
           ++ apply elem_of_union. left. by apply elem_of_singleton.
      * intros i j t' n1 n2 Hij [Hi|[Hge Hi]]%lookup_app_Some
                               [Hj|[Hge' Hj]]%lookup_app_Some.
        -- by eapply D2.
        -- apply list_lookup_singleton_Some in Hj as [_ [= <- <-]].
           by eapply Hold.
        -- apply list_lookup_singleton_Some in Hi as [_ [= <- <-]].
           intros E. symmetry in E. revert E. by eapply Hold.
        -- apply list_lookup_singleton_Some in Hi as [? _].
           apply list_lookup_singleton_Some in Hj as [? _]. lia.
      * intros p a f i n' Ha Hf [Hi|[_ Hi]]%lookup_app_Some.
        -- by eapply D3.
        -- apply list_lookup_singleton_Some in Hi as [_ [= Hs <-]].
           destruct N as (N1 & _). specialize (N1 p a f Ha Hf). rewrite <- Hs in N1.
           split; intros E; [apply Hh|apply Hx]; by rewrite <- E.
    + unfold registerDocument in Er. simpl in Er. injection Er as <- <-.
      split; [|split; [exact D2|exact D3]].
      intros i t' n Hi. destruct (D1 i t' n Hi). split; by apply Hmono.
Qed.

Lemma capture_run_named evs c c' :
  capture_run c evs = Some c' -> all_named c -> all_named c'.
Proof.
  revert c. induction evs as [|ev evs IH]; intros c; simpl.
  - by intros [= <-].
  - destruct (capture_step c ev) as [c1|] eqn:E; [|done]. simpl.
    intros Hrun Hc. eapply IH; [exact Hrun|]. by eapply capture_step_named.
Qed.

(** X18. Files and documents of a capture.  However the events of
    the fetch pipeline ([downloadFile], [captureUrl], the answers of
    the transport) and the calls of [registerDocument] interleave,
    from the initial state on: what the script has reserved for a
    document name [registerDocument] returned, its lower-case form
    followed by [.html] and by [.xhtml], differs from the lower-case
    form of the file name of every fetched resource of the same
    session that is stored as a file; two document names returned
    for one session differ case-insensitively; and when the document
    name is made of ASCII characters, the file names of the document,
    the name with [.html] and with [.xhtml], differ
    case-insensitively, also up to the case of ASCII letters alone,
    from the file name of every such resource. *)
Theorem capture_names_unique (evs : list capture_event) (c : capture) :
  capture_run (Capture init []) evs = Some c ->
  (forall p a f i n,
     promises (c_world c) !! p = Some a -> stored_name a = Some f ->
     c_documents c !! i = Some (session_of a, n) ->
     (toLowerCase f <> toLowerCase n +:+ ".html"
      /\ toLowerCase f <> toLowerCase n +:+ ".xhtml")
     /\ (Js.is_ascii n = true ->
         toLowerCase f <> toLowerCase (n +:+ ".html")
         /\ toLowerCase f <> toLowerCase (n +:+ ".xhtml")
         /\ Js.toLowerCase f <> Js.toLowerCase (n +:+ ".html")
         /\ Js.toLowerCase f <> Js.toLowerCase (n +:+ ".xhtml")))
  /\ (forall i j t n m, i <> j ->
        c_documents c !! i = Some (t, n) -> c_documents c !! j = Some (t, m) ->
        toLowerCase n <> toLowerCase m /\ Js.toLowerCase n <> Js.toLowerCase m).
Proof.
  intros Hrun.
  destruct (capture_run_named _ _ _ Hrun) as (_ & _ & D2 & D3).
  { split; [apply named_init|]. cbn [c_documents c_world].
    split; [intros i t n Hi; by rewrite lookup_nil in Hi|].
    split; [intros i j t n m _ Hi; by rewrite lookup_nil in Hi|].
    intros p a f i n _ _ Hi. by rewrite lookup_nil in Hi. }
  split.
  - intros p a f i n Ha Hf Hi.
    destruct (D3 p a f i n Ha Hf Hi) as [Hh Hx]. split; [done|].
    intros Hn. rewrite <- (toLowerCase_html n Hn) in Hh.
    rewrite <- (toLowerCase_xhtml n Hn) in Hx.
    repeat split; try done; intros E; [apply Hh|apply Hx];
      by apply toLowerCase_same_fold.
  - intros i j t n m Hij Hi Hj.
    assert (toLowerCase n <> toLowerCase m) as Hne by (by eapply D2).
    split; [done|]. intros E. by apply Hne, toLowerCase_same_fold.
Qed.

End CaptureNames.

(** ** A resource downloaded in folder mode *)

Section FolderDownload.
Context `{Scrapbook}.

(** X19. The result of a resource in folder mode.  The response of
    a [downloadFile] fetch has loaded and its promise waits for the
    chain that ends with [downloadBlob]; the capture is in folder
    mode.  Then the answer of the download subsystem to the one
    download decides how the chain ends, and with it the promise:
    on completion the promise is fulfilled with the directory, the
    completed file name and its escaped URL with the fragment of the
    source URL; on a refusal or a failure [downloadBlob] rejects and
    the promise is fulfilled with the error record of [downloadFile]
    (placeholder URL and error).  Whatever happens afterwards in the
    session, the promise yields that result and every request with
    the key of the fetch returns this promise and creates no
    access. *)
Theorem folder_download_memoized
    (w : world) (p : nat) (a : access) (b : blob) (f : string) (s : pk)
    (report : dl_report) :
  reachable w ->
  promises w !! p = Some a -> a_op a = OpDownloadFile ->
  a_state a = Packaging -> a_filename a = Some f ->
  folder_mode (p_options (a_params a)) ->
  head (pk_reports s) = Some report ->
  let ps := a_params a in
  let tid := timeId (p_settings ps) in
  let call := BlobParams b f (p_url ps) (p_settings ps) (p_options ps) in
  let o : exn + result :=
    match report with
    | DlRefused ex => inl ex
    | DlFailed code => inl (Error code)
    | DlComplete path =>
        inr (Result (Some tid) (Some (p_url ps)) (Some (folder_of (p_options ps) tid))
               (Some (filepathParts path).2)
               (escapeFilename (filepathParts path).2
                  +:+ (splitUrlByAnchor (p_url ps)).2) None)
    end in
  let r :=
    match o with
    | inr r => r
    | inl ex => errorRecord (p_url ps) (p_options ps) ex
    end in
  chain_end (downloadBlob call s).1 = Some o
  /\ exists w',
       step w (Packaged p o) = Some (None, w')
       /\ forall evs outs w'',
            run w' evs = Some (outs, w'') ->
            yields w'' p r
            /\ forall op' ps',
                 request_key op' ps' = request_key (a_op a) ps ->
                 exists ci, request op' ps' w'' = Some (p, World ci (promises w'')).
Proof.
  intros Hreach Ha Hop Hst Hf (Hm1 & Hm2 & Hm3) Hrep ps tid call o r.
  split.
  { unfold downloadBlob, call. cbn [db_options db_blob db_filename db_sourceUrl db_settings].
    rewrite !bool_decide_eq_false_2 by done.
    unfold mbind, M_bind, mret, M_ret. rewrite saveBlob_run.
    destruct (pk_reports s) as [|rep reports]; [done|].
    injection Hrep as ->. unfold o. by destruct report. }
  destruct (reachable_consistent w Hreach) as [_ Hown].
  specialize (Hown p a Ha).
  assert (exists w', packaged p o w = Some w'
            /\ exists a', promises w' !! p = Some a' /\ a_state a' = Fulfilled r)
    as (w' & Ep & a' & Ha' & Hst').
  { unfold packaged. rewrite Ha. cbn [mbind option_bind]. rewrite Hst.
    eexists. split; [reflexivity|]. cbn [promises].
    eexists. split; [apply list_lookup_insert_eq; by eapply lookup_lt_Some|].
    cbn [a_state]. unfold r, ps. by destruct o. }
  exists w'. split; [cbn [step]; by rewrite Ep|].
  pose proof (packaged_grows _ _ _ _ Ep) as [Hmono _].
  intros evs outs w'' Hrun.
  pose proof (run_grows _ _ _ _ Hrun) as [Hmono' Hev].
  split.
  - destruct (Hev p a' Ha') as (a'' & Ha'' & (_ & _ & _ & Hful & _)).
    eapply yields_fulfilled; [exact Ha''|by apply Hful].
  - intros op' ps' Hkey. apply key_token in Hkey as [Ht Hk].
    assert (session_accessMap (timeId (p_settings ps')) (captureInfo w'')
              !! getAccessToken (splitUrlByAnchor (p_url ps')).1 (method_of op' ps')
            = Some p) as Hhit.
    { rewrite Ht, Hk. apply Hmono', Hmono. exact Hown. }
    destruct (request_hit op' ps' w'' p Hhit) as (ci & E & _). by exists ci.
Qed.

End FolderDownload.

Lemma folder_download_memoized_witness :
  let sets := Settings "20230101000000000" false None in
  let opts := Options "folder" false "WebScrapBook" false false false in
  let ps := Params "http://example.com/a.css#x" None None sets opts in
  let resp := Response "http://example.com/a.css" 200 None None in
  let w := match @run sample_helpers init
                   [CallDownloadFile ps; ReadyState2 0 resp; OnLoad 0] with
           | Some (_, w) => w
           | None => init
           end in
  let a := Access OpDownloadFile ps Packaging
             (Some (Xhr "http://example.com/a.css#x" "blob" None Loaded))
             (Some "a.css") no_headers in
  let b := Blob "text/css" "body { margin: 0 }" in
  let s := Pk ∅ [] [DlFailed "NETWORK_FAILED"] in
  let r := @errorRecord sample_helpers (p_url ps) opts (Error "NETWORK_FAILED") in
  (@reachable sample_helpers w /\ promises w !! 0%nat = Some a
   /\ a_op a = OpDownloadFile /\ a_state a = Packaging /\ a_filename a = Some "a.css"
   /\ folder_mode (p_options (a_params a))
   /\ head (pk_reports s) = Some (DlFailed "NETWORK_FAILED"))
  /\ chain_end
       (@downloadBlob sample_helpers
          (BlobParams b "a.css" (p_url ps) sets opts) s).1
     = Some (inl (Error "NETWORK_FAILED"))
  /\ exists w',
       @step sample_helpers w (Packaged 0 (inl (Error "NETWORK_FAILED"))) = Some (None, w')
       /\ forall evs outs w'',
            @run sample_helpers w' evs = Some (outs, w'') ->
            yields w'' 0%nat r
            /\ forall op' ps',
                 @request_key op' ps' = @request_key OpDownloadFile ps ->
                 exists ci,
                   @request sample_helpers op' ps' w'' = Some (0%nat, World ci (promises w'')).
Proof.
  intros sets opts ps resp w a b s r.
  assert (@reachable sample_helpers w) as Hreach.
  { exists [CallDownloadFile ps; ReadyState2 0 resp; OnLoad 0],
           [Some 0%nat; None; None].
    vm_compute. reflexivity. }
  assert (promises w !! 0%nat = Some a) as Ha by (vm_compute; reflexivity).
  assert (folder_mode (p_options (a_params a))) as Hmode by (repeat split; discriminate).
  split; [by repeat split|].
  exact (folder_download_memoized (H:=sample_helpers) w 0 a b "a.css" s
           (DlFailed "NETWORK_FAILED") Hreach Ha eq_refl eq_refl eq_refl Hmode eq_refl).
Defined.

(** ** The further properties on examples *)

Lemma download_completes_witness :
  let info := DownloadInfo None "http://example.com/a.png" true in
  let other := DownloadInfo None "http://example.com/b.png" false in
  let delta :=
    DownloadDelta 1 (Some (StringDelta (Some "in_progress") (Some "complete"))) None in
  let others1 := [DownloadStarted (Some 2%nat) (Error "") other] in
  let others2 :=
    [DownloadChanged
       (DownloadDelta 2 None (Some (StringDelta None (Some "NETWORK_FAILED"))))] in
  let results := ["/home/user/Downloads/data/20230101000000000/a.png"] in
  (1%nat <> 0%nat /\ dd_id delta = 1%nat
   /\ current <$> dd_state delta = Some (Some "complete")
   /\ Forall (fun ev => about 1 ev = false) (others1 ++ others2 ++ []))
  /\ let c' :=
       @coordinate_all sample_helpers idle
         ([DownloadStarted (Some 1%nat) (Error "") info] ++ others1
          ++ [DownloadChanged delta] ++ others2
          ++ [SearchAnswered 1 results] ++ []
          ++ if di_autoErase info then [EraseAnswered 1] else []) in
     downloadInfo c' !! 1%nat = None
     /\ callbacks_of 1 c' = callbacks_of 1 idle ++ [inr "a.png"]
     /\ erasures_of 1 c' = (erasures_of 1 idle + 1)%nat.
Proof.
  intros info other delta others1 others2 results.
  assert (1%nat <> 0%nat) as H1 by lia.
  assert (Forall (fun ev => about 1 ev = false) (others1 ++ others2 ++ [])) as H2
    by (repeat constructor).
  split; [by repeat split|].
  exact (download_completes (H:=sample_helpers) idle 1 (Error "") info
           others1 others2 [] delta results H1 eq_refl eq_refl H2).
Defined.

Lemma download_fails_witness :
  let info := DownloadInfo None "http://example.com/a.png" false in
  let error := StringDelta None (Some "NETWORK_FAILED") in
  let delta :=
    DownloadDelta 1 (Some (StringDelta (Some "in_progress") (Some "interrupted")))
      (Some error) in
  let others1 :=
    [DownloadStarted (Some 2%nat) (Error "") info;
     DownloadChanged (DownloadDelta 3 None None)] in
  (1%nat <> 0%nat /\ dd_id delta = 1%nat
   /\ current <$> dd_state delta <> Some (Some "complete")
   /\ dd_error delta = Some error
   /\ Forall (fun ev => about 1 ev = false) (others1 ++ []))
  /\ let c' :=
       @coordinate_all sample_helpers idle
         ([DownloadStarted (Some 1%nat) (Error "") info] ++ others1
          ++ [DownloadChanged delta] ++ []
          ++ if di_autoErase info then [EraseAnswered 1] else []) in
     downloadInfo c' !! 1%nat = None
     /\ callbacks_of 1 c' = callbacks_of 1 idle ++ [inl (Error "NETWORK_FAILED")]
     /\ erasures_of 1 c' = (erasures_of 1 idle + 0)%nat.
Proof.
  intros info error delta others1.
  assert (1%nat <> 0%nat) as H1 by lia.
  assert (current <$> dd_state delta <> Some (Some "complete")) as H2 by discriminate.
  assert (Forall (fun ev => about 1 ev = false) (others1 ++ [])) as H3
    by (repeat constructor).
  split; [by repeat split|].
  exact (download_fails (H:=sample_helpers) idle 1 (Error "") info
           others1 [] delta error H1 eq_refl H2 eq_refl H3).
Defined.

Lemma names_never_collide_witness :
  let t := "20230101000000000" in
  let reqs := [DocumentName (Settings t true (Some "index"));
               FileName t (Some "Index.HTML");
               FileName t (Some "index.xhtml");
               DocumentName (Settings t false (Some "INDEX"));
               FileName t (Some "index_1.html")] in
  Forall ascii_document reqs
  /\ exists ns ci',
       @serve_all sample_helpers reqs ∅ = Some (ns, ci')
       /\ ns = [(t, "index.html"); (t, "index.xhtml"); (t, "Index-1.HTML");
                (t, "index-1.xhtml"); (t, "INDEX_1.html"); (t, "INDEX_1.xhtml");
                (t, "index_1-1.html")]
       /\ NoDup (prod_map id (@toLowerCase sample_helpers) <$> ns)
       /\ NoDup (prod_map id Js.toLowerCase <$> ns).
Proof.
  intros t reqs.
  assert (Forall ascii_document reqs) as Hreqs.
  { repeat constructor; intros n [= <-]; reflexivity. }
  split; [exact Hreqs|].
  destruct (names_never_collide (H:=sample_helpers) reqs ∅)
    as (ns & ci' & E & Hall).
  destruct (Hall Hreqs) as (Hnd & Hfold & _).
  exists ns, ci'. split; [exact E|]. split; [|by split].
  vm_compute in E. by injection E as <- _.
Defined.

Lemma stored_names_unique_witness :
  let sets := Settings "20230101000000000" false None in
  let opts := Options "zip" false "" false false false in
  let ps1 := Params "http://example.com/img/logo.png" None None sets opts in
  let ps2 := Params "http://cdn.example.com/logo.png" None None sets opts in
  let resp1 := Response "http://example.com/img/logo.png" 200 None None in
  let resp2 := Response "http://cdn.example.com/logo.png" 200 None None in
  let w := match @run sample_helpers init
                   [CallDownloadFile ps1; CallDownloadFile ps2;
                    ReadyState2 0 resp1; ReadyState2 1 resp2] with
           | Some (_, w) => w
           | None => init
           end in
  let a := Access OpDownloadFile ps1 Pending
             (Some (Xhr "http://example.com/img/logo.png" "blob" None HeadersReceived))
             (Some "logo.png") no_headers in
  let b := Access OpDownloadFile ps2 Pending
             (Some (Xhr "http://cdn.example.com/logo.png" "blob" None HeadersReceived))
             (Some "logo-1.png") no_headers in
  (@reachable sample_helpers w /\ 0%nat <> 1%nat
   /\ promises w !! 0%nat = Some a /\ promises w !! 1%nat = Some b
   /\ session_of a = session_of b
   /\ stored_name a = Some "logo.png" /\ stored_name b = Some "logo-1.png")
  /\ @toLowerCase sample_helpers "logo.png" <> @toLowerCase sample_helpers "logo-1.png"
  /\ Js.toLowerCase "logo.png" <> Js.toLowerCase "logo-1.png"
  /\ @toLowerCase sample_helpers "logo.png"
       ∈ session_files (session_of a) (captureInfo w)
  /\ @toLowerCase sample_helpers "logo-1.png"
       ∈ session_files (session_of a) (captureInfo w).
Proof.
  intros sets opts ps1 ps2 resp1 resp2 w a b.
  assert (@reachable sample_helpers w) as Hreach.
  { exists [CallDownloadFile ps1; CallDownloadFile ps2;
            ReadyState2 0 resp1; ReadyState2 1 resp2],
           [Some 0%nat; Some 1%nat; None; None].
    vm_compute. reflexivity. }
  assert (0%nat <> 1%nat) as Hne by lia.
  assert (promises w !! 0%nat = Some a) as Ha by (vm_compute; reflexivity).
  assert (promises w !! 1%nat = Some b) as Hb by (vm_compute; reflexivity).
  split; [by repeat split|].
  exact (stored_names_unique (H:=sample_helpers) w 0 1 a b "logo.png" "logo-1.png"
           Hreach Hne Ha Hb eq_refl eq_refl eq_refl).
Defined.

Lemma sessions_isolated_witness :
  let setsA := Settings "20230101000000000" false None in
  let opts := Options "zip" false "" false false false in
  let psA := Params "http://example.com/a.css" None None setsA opts in
  let resp := Response "http://example.com/a.css" 200 None None in
  let t := "20230202000000000" in
  let w := World (set_files t {[ "index.rdf"; "index.dat"; "b.css" ]} ∅) [] in
  let evs := [CallDownloadFile psA; ReadyState2 0 resp] in
  let w' := match @run sample_helpers w evs with
            | Some (_, w') => w'
            | None => init
            end in
  (@run sample_helpers w evs = Some ([Some 0%nat; None], w')
   /\ (forall p a, promises w !! p = Some a -> session_of a <> t)
   /\ (forall ev op ps, ev ∈ evs -> call_of ev = Some (op, ps) ->
         timeId (p_settings ps) <> t))
  /\ captureInfo w' !! t = captureInfo w !! t
  /\ forall p a, promises w' !! p = Some a -> session_of a <> t.
Proof.
  intros setsA opts psA resp t w evs w'.
  assert (@run sample_helpers w evs = Some ([Some 0%nat; None], w')) as Hrun
    by (vm_compute; reflexivity).
  assert (forall p a, promises w !! p = Some a -> session_of a <> t) as Hacc.
  { intros p a Ha. simpl in Ha. by rewrite lookup_nil in Ha. }
  assert (forall ev op ps, ev ∈ evs -> call_of ev = Some (op, ps) ->
            timeId (p_settings ps) <> t) as Hcalls.
  { intros ev op ps Hin Hc.
    apply elem_of_cons in Hin as [->|Hin]; [by injection Hc as <- <-|].
    apply elem_of_cons in Hin as [->|Hin]; [done|]. by apply elem_of_nil in Hin. }
  split; [by repeat split|].
  exact (sessions_isolated (H:=sample_helpers) t w evs _ w' Hrun Hacc Hcalls).
Defined.

Lemma inline_capture_takes_no_name_witness :
  let sets := Settings "20230101000000000" false None in
  let opts := Options "singleHtml" false "" false true false in
  let ps1 := Params "http://example.com/a.css" None None sets opts in
  let ps2 := Params "data:text/plain;base64,aGk=" None None sets opts in
  let resp := Response "http://example.com/a.css" 200 None None in
  let evs := [CallDownloadFile ps1; CallDownloadFile ps2; ReadyState2 0 resp] in
  let w := match @run sample_helpers init evs with
           | Some (_, w) => w
           | None => init
           end in
  (@run sample_helpers init evs = Some ([Some 0%nat; Some 1%nat; None], w)
   /\ (forall ev op ps, ev ∈ evs -> call_of ev = Some (op, ps) ->
         saveAs (p_options ps) = "singleHtml"))
  /\ (forall t, files (get_session t (captureInfo w)) = None)
  /\ forall p a, promises w !! p = Some a ->
       saveAs (p_options (a_params a)) = "singleHtml" /\ stored_name a = None.
Proof.
  intros sets opts ps1 ps2 resp evs w.
  assert (@run sample_helpers init evs = Some ([Some 0%nat; Some 1%nat; None], w))
    as Hrun by (vm_compute; reflexivity).
  assert (forall ev op ps, ev ∈ evs -> call_of ev = Some (op, ps) ->
            saveAs (p_options ps) = "singleHtml") as Hcalls.
  { intros ev op ps Hin Hc.
    apply elem_of_cons in Hin as [->|Hin]; [by injection Hc as <- <-|].
    apply elem_of_cons in Hin as [->|Hin]; [by injection Hc as <- <-|].
    apply elem_of_cons in Hin as [->|Hin]; [done|]. by apply elem_of_nil in Hin. }
  split; [by split|].
  exact (inline_capture_takes_no_name (H:=sample_helpers) evs _ w Hrun Hcalls).
Defined.

Lemma response_url_served_witness :
  let sets := Settings "20230101000000000" false None in
  let opts := Options "zip" false "" false false false in
  let psA := Params "http://example.com/a.html#top" None None sets opts in
  let x := Xhr "http://example.com/a.html#top" "document" None Opened in
  let a := Access OpCaptureUrl psA Pending (Some x) None no_headers in
  let resp := Response "http://example.com/b.html" 200
                (Some ("attachment", Some "b.html")) (Some ("text/html", None)) in
  let w := match @run sample_helpers init [CallCaptureUrl psA] with
           | Some (_, w) => w
           | None => init
           end in
  (@reachable sample_helpers w
   /\ promises w !! 0%nat = Some a /\ a_xhr a = Some x /\ x_state x = Opened)
  /\ exists w',
       @readyState2 sample_helpers sample_mime 0 resp w = Some (ThrowsTypeError, w')
       /\ forall evs outs w'',
            @run sample_helpers w' evs = Some (outs, w'') ->
            forall op' ps',
              @request_key op' ps'
              = (session_of a, (splitUrlByAnchor (responseURL resp)).1,
                 Js.or_default (method_of (a_op a) (a_params a)) "") ->
              exists q ci,
                @request sample_helpers op' ps' w'' = Some (q, World ci (promises w''))
                /\ forall r, yields w'' q r <-> yields w'' 0%nat r.
Proof.
  intros sets opts psA x a resp w.
  assert (@reachable sample_helpers w) as Hreach.
  { exists [CallCaptureUrl psA], [Some 0%nat]. vm_compute. reflexivity. }
  assert (promises w !! 0%nat = Some a) as Ha by (vm_compute; reflexivity).
  split; [by repeat split|].
  destruct (response_url_served (H:=sample_helpers) (H0:=sample_mime)
              w 0 a x resp Hreach Ha eq_refl eq_refl)
    as (ended & w' & E & Hthrows & Hserved).
  assert (ended = ThrowsTypeError) as ->.
  { apply Hthrows. repeat split; try reflexivity. by left. }
  exists w'. split; [exact E|exact Hserved].
Defined.

Lemma saveDocument_main_single_file_witness :
  let sets := Settings "20230101000000000" true (Some "index") in
  let opts := Options "maff" true "WebScrapBook" false false false in
  let d := DocData "text/html" (Some "UTF-8") "<html></html>" (Some "Example") in
  let ps := SaveParams d "index" "http://example.com/page#top" sets opts in
  let s := Pk ∅ [] [DlComplete "/home/user/Downloads/WebScrapBook/data/20230101000000000.maff"] in
  (frameIsMain (sd_settings ps) = true
   /\ (saveAs (sd_options ps) = "singleHtml" \/ saveAs (sd_options ps) = "zip"
       \/ saveAs (sd_options ps) = "maff"))
  /\ exists dl,
       pk_downloads (@saveDocument sample_helpers ps s).2 = [dl]
       /\ d_autoErase dl = false /\ d_saveAs dl = false
       /\ d_filename dl = "WebScrapBook/data/20230101000000000.maff"
       /\ (@saveDocument sample_helpers ps s).1
          = Ok (Result (Some "20230101000000000") (Some "http://example.com/page#top")
                  (Some "WebScrapBook/data") (Some "20230101000000000.maff")
                  "20230101000000000.maff#top" None).
Proof.
  intros sets opts d ps s.
  assert (saveAs (sd_options ps) = "singleHtml" \/ saveAs (sd_options ps) = "zip"
          \/ saveAs (sd_options ps) = "maff") as Hmode by (right; right; reflexivity).
  split; [by split|].
  destruct (saveDocument_main_single_file (H:=sample_helpers) ps s eq_refl Hmode)
    as [(ex & _ & Hgen & _)|(dl & Hd & _ & Ha & Hp & _ & _ & Hpath & _ & Ho)].
  - exfalso. vm_compute in Hgen. discriminate.
  - exists dl. split; [exact Hd|]. split; [exact Ha|]. split; [exact Hp|].
    split; [exact (Hpath eq_refl)|]. rewrite Ho. vm_compute. reflexivity.
Defined.

Lemma zip_archive_contents_witness :
  let tid := "20230101000000000" in
  let opts := Options "zip" false "" false false false in
  let css := Blob "text/css" "body { margin: 0 }" in
  let png := Blob "image/png" "PNG" in
  let frame := DocData "text/html" None "<p>frame</p>" None in
  let page := DocData "application/xhtml+xml" None "<html/>" (Some "Example") in
  let ops :=
    [PackBlob (BlobParams css "style.css" "http://example.com/style.css"
                 (Settings tid false None) opts);
     PackBlob (BlobParams png "logo.png" "http://example.com/logo.png"
                 (Settings tid false None) opts);
     PackDocument (SaveParams frame "index_1" "http://example.com/frame"
                     (Settings tid false (Some "index_1")) opts);
     PackDocument (SaveParams page "index" "http://example.com/"
                     (Settings tid true (Some "index")) opts)] in
  let s := Pk ∅ [] [] in
  Forall (fun op => saveAs (op_options op) = "zip"
                    /\ timeId (op_settings op) = tid) ops
  /\ let z := session_zip tid (pk_info s) in
     let z' := session_zip tid (pk_info (@run_ops sample_helpers ops s)) in
     z' = write_all (ops ≫= @zip_writes sample_helpers) z
     /\ (forall path,
           is_Some (z' !! path)
           <-> is_Some (z !! path) \/ path ∈ (ops ≫= @zip_writes sample_helpers).*1)
     /\ (forall path, path ∉ (ops ≫= @zip_writes sample_helpers).*1 ->
           z' !! path = z !! path)
     /\ (NoDup (ops ≫= @zip_writes sample_helpers).*1 ->
         forall path e, (path, e) ∈ ops ≫= @zip_writes sample_helpers ->
           z' !! path = Some e).
Proof.
  intros tid opts css png frame page ops s.
  assert (Forall (fun op => saveAs (op_options op) = "zip"
                            /\ timeId (op_settings op) = tid) ops) as Hall
    by (repeat constructor).
  split; [exact Hall|].
  exact (zip_archive_contents (H:=sample_helpers) tid ops s Hall).
Defined.

Lemma secondary_resources_start_no_download_witness :
  let tid := "20230101000000000" in
  let css := Blob "text/css" "body { margin: 0 }" in
  let frame := DocData "text/html" None "<p>frame</p>" None in
  let ops :=
    [PackBlob (BlobParams css "style.css" "http://example.com/style.css"
                 (Settings tid false None)
                 (Options "maff" false "" false false false));
     PackDocument (SaveParams frame "index_1" "http://example.com/frame"
                     (Settings tid false (Some "index_1"))
                     (Options "singleHtml" false "" false false false))] in
  let s := Pk ∅ [] [DlFailed "NETWORK_FAILED"] in
  Forall (fun op => single_file_mode (op_options op)
                    /\ saves_main_document op = false) ops
  /\ pk_downloads (@run_ops sample_helpers ops s) = pk_downloads s
  /\ pk_reports (@run_ops sample_helpers ops s) = pk_reports s
  /\ Forall (fun op => forall s0, exists r,
               (@run_op sample_helpers op s0).1 = Ok r /\ r_error r = None) ops.
Proof.
  intros tid css frame ops s.
  assert (Forall (fun op => single_file_mode (op_options op)
                            /\ saves_main_document op = false) ops) as Hall.
  { constructor; [split; [right; right; reflexivity|reflexivity]|].
    constructor; [split; [left; reflexivity|reflexivity]|]. constructor. }
  split; [exact Hall|].
  exact (secondary_resources_start_no_download (H:=sample_helpers) ops s Hall).
Defined.

Lemma captureFile_folder_witness :
  let sets := Settings "20230101000000000" true (Some "index") in
  let opts := Options "folder" true "WebScrapBook" false false false in
  let ps := FileParams "http://example.com/paper.pdf" None (Some "Paper") sets opts in
  let response :=
    Result None None None None "urn:scrapbook:download:error:http://example.com/paper.pdf"
      (Some (Error "Not Found")) in
  let s := Pk ∅ [] [DlComplete "/home/user/Downloads/WebScrapBook/data/20230101000000000/index.html"] in
  folder_mode (fp_options ps)
  /\ pk_downloads (@captureFile_then sample_helpers sample_html ps response s).2
     = [Download
          (Blob "text/html" (@captureFile_page sample_helpers sample_html ps response))
          "WebScrapBook/data/20230101000000000/index.html" false
          "http://example.com/paper.pdf" false]
  /\ (@captureFile_then sample_helpers sample_html ps response s).1
     = Ok (Result (Some "20230101000000000") (Some "http://example.com/paper.pdf")
             (Some "WebScrapBook/data/20230101000000000") (Some "index.html")
             "index.html" None).
Proof.
  intros sets opts ps response s.
  assert (folder_mode (fp_options ps)) as Hmode by (repeat split; discriminate).
  split; [exact Hmode|].
  pose proof (captureFile_folder (H:=sample_helpers) (H0:=sample_html)
                ps response s Hmode) as Hthm.
  cbv zeta in Hthm. change (frameIsMain (fp_settings ps)) with true in Hthm.
  cbv iota in Hthm. destruct Hthm as (_ & _ & Hd & Ho).
  split; [exact Hd|exact Ho].
Defined.

Lemma capture_names_unique_witness :
  let tid := "20230101000000000" in
  let opts := Options "zip" false "" false false false in
  let ps := Params "http://example.com/Index.HTML" None None
              (Settings tid false None) opts in
  let resp := Response "http://example.com/Index.HTML" 200 None None in
  let evs :=
    [RegisterDocument (Settings tid true (Some "index"));
     Fetch (CallDownloadFile ps);
     Fetch (ReadyState2 0 resp);
     RegisterDocument (Settings tid false (Some "Index-1"))] in
  let c := match @capture_run sample_helpers (Capture init []) evs with
           | Some c => c
           | None => Capture init []
           end in
  @capture_run sample_helpers (Capture init []) evs = Some c
  /\ c_documents c = [(tid, "index"); (tid, "Index-1_1")]
  /\ (a_filename <$> promises (c_world c)) = [Some "Index-1.HTML"]
  /\ (forall p a f i n,
        promises (c_world c) !! p = Some a -> stored_name a = Some f ->
        c_documents c !! i = Some (session_of a, n) ->
        (@toLowerCase sample_helpers f <> @toLowerCase sample_helpers n +:+ ".html"
         /\ @toLowerCase sample_helpers f <> @toLowerCase sample_helpers n +:+ ".xhtml")
        /\ (Js.is_ascii n = true ->
            @toLowerCase sample_helpers f <> @toLowerCase sample_helpers (n +:+ ".html")
            /\ @toLowerCase sample_helpers f
                 <> @toLowerCase sample_helpers (n +:+ ".xhtml")
            /\ Js.toLowerCase f <> Js.toLowerCase (n +:+ ".html")
            /\ Js.toLowerCase f <> Js.toLowerCase (n +:+ ".xhtml")))
  /\ (forall i j t n m, i <> j ->
        c_documents c !! i = Some (t, n) -> c_documents c !! j = Some (t, m) ->
        @toLowerCase sample_helpers n <> @toLowerCase sample_helpers m
        /\ Js.toLowerCase n <> Js.toLowerCase m).
Proof.
  intros tid opts ps resp evs c.
  assert (@capture_run sample_helpers (Capture init []) evs = Some c) as Hrun
    by (vm_compute; reflexivity).
  split; [exact Hrun|].
  split; [vm_compute; reflexivity|]. split; [vm_compute; reflexivity|].
  exact (capture_names_unique (H:=sample_helpers) evs c Hrun).
Defined.
